(** * ToDo-Python: the task graph, its cascades, its layout and its reordering

    A shallow embedding of the task tracker of [main5.0.0.py] (the
    card/flow-chart generation), with the accessors of [main1.0.0.py] and
    [main2.0.0.py] where the generations differ.

    The program keeps every task in one Python [dict] from task id to a
    task [dict] ([self.tasks]).  A Python [dict] iterates in insertion
    order and its keys are unique, so the store is an association list
    whose keys are pairwise different ([NoDup (keys tasks)]).  *)

From Stdlib Require Import List String Ascii ZArith Bool Arith Lia.
From Stdlib Require Import Permutation Sorted.
Import ListNotations.

Local Open Scope string_scope.
Local Open Scope list_scope.

(** * Python values as the program uses them *)

(** [x == y] where [x] comes from [dict.get] (so it may be [None]) and [y]
    is a [str]. *)
Definition get_eqb (x : option string) (y : string) : bool :=
  match x with
  | Some s => String.eqb s y
  | None => false
  end.

(** Truth value of an optional string: [None] and [''] are falsy. *)
Definition truthy (x : option string) : bool :=
  match x with
  | Some s => negb (String.eqb s "")
  | None => false
  end.

(** [x is None]. *)
Definition is_None {A : Type} (x : option A) : bool :=
  match x with
  | Some _ => false
  | None => true
  end.

(** * The task record

    A task is a JSON object.  The fields the program reads with
    [t.get(key)] may be missing, hence the options; [completed] and
    [stashed] are only ever read through [t.get(key, False)] (or right
    after having been written), and [created] through
    [t.get('created', '')], so a missing key is the default value.  A JSON
    [null] is not told apart from a missing key; the program never writes
    one, and every task it creates carries an integer [priority]. *)
Record Task : Type := mkTask {
  id : string;
  title : string;
  description : string;
  completed : bool;
  stashed : bool;
  parent_id : option string;
  workflow_sibling_of : option string;
  created : string;
  priority : option Z
}.

Definition store : Type := list (string * Task).

Definition keys {V : Type} (d : list (string * V)) : list string := map fst d.

(** [d.get(k)] *)
Fixpoint dict_get {V : Type} (d : list (string * V)) (k : string) : option V :=
  match d with
  | [] => None
  | (k', v) :: d' => if String.eqb k' k then Some v else dict_get d' k
  end.

(** [k in d] *)
Definition dict_mem {V : Type} (d : list (string * V)) (k : string) : bool :=
  existsb (String.eqb k) (keys d).

(** [d[k] = v]: an existing key keeps its place, a new key goes last. *)
Fixpoint dict_set {V : Type} (d : list (string * V)) (k : string) (v : V)
  : list (string * V) :=
  match d with
  | [] => [(k, v)]
  | (k', v') :: d' =>
      if String.eqb k' k then (k', v) :: d' else (k', v') :: dict_set d' k v
  end.

(** [del d[k]] *)
Definition dict_del {V : Type} (d : list (string * V)) (k : string)
  : list (string * V) :=
  filter (fun e => negb (String.eqb (fst e) k)) d.

(** [d[k][field] = value] for a key that is present: the task is changed
    in place. *)
Definition dict_update (d : store) (k : string) (f : Task -> Task) : store :=
  map (fun e => if String.eqb (fst e) k then (fst e, f (snd e)) else e) d.

Definition set_completed (b : bool) (t : Task) : Task :=
  mkTask (id t) (title t) (description t) b (stashed t)
         (parent_id t) (workflow_sibling_of t) (created t) (priority t).

Definition set_stashed (b : bool) (t : Task) : Task :=
  mkTask (id t) (title t) (description t) (completed t) b
         (parent_id t) (workflow_sibling_of t) (created t) (priority t).

Definition set_priority (p : Z) (t : Task) : Task :=
  mkTask (id t) (title t) (description t) (completed t) (stashed t)
         (parent_id t) (workflow_sibling_of t) (created t) (Some p).

(** * [list.sort(key=...)]

    Python's sort is stable and compares keys only; a stable sort has one
    possible result, which insertion from the right computes. *)
Section SortByKey.
Context {A K : Type}.
Variable leb : K -> K -> bool.
Variable key : A -> K.

Fixpoint insert_by (x : A) (l : list A) : list A :=
  match l with
  | [] => [x]
  | y :: l' => if leb (key x) (key y) then x :: l else y :: insert_by x l'
  end.

Fixpoint sort_by (l : list A) : list A :=
  match l with
  | [] => []
  | x :: l' => insert_by x (sort_by l')
  end.
End SortByKey.

(** * Graph accessors ([main5.0.0.py], lines 1290-1312) *)

(** [t.get('priority', 999) or 999] *)
Definition priority_or_999 (t : Task) : Z :=
  match priority t with
  | None => 999
  | Some p => if Z.eqb p 0 then 999 else p
  end.

(** [t.get('priority', 999)] *)
Definition priority_get_999 (t : Task) : Z :=
  match priority t with
  | None => 999
  | Some p => p
  end.

(** The key functions [lambda tid: self.tasks[tid]...]: every [tid] that is
    sorted was taken from [self.tasks.items()], so [self.tasks[tid]] never
    raises; the [None] branch below is never reached. *)
Definition key_priority (tasks : store) (tid : string) : Z :=
  match dict_get tasks tid with
  | Some t => priority_or_999 t
  | None => 999
  end.

Definition key_created (tasks : store) (tid : string) : string :=
  match dict_get tasks tid with
  | Some t => created t
  | None => ""
  end.

Definition is_subtask (parent : string) (t : Task) : bool :=
  get_eqb (parent_id t) parent && negb (truthy (workflow_sibling_of t)).

Definition is_workflow_sibling (anchor : string) (t : Task) : bool :=
  get_eqb (workflow_sibling_of t) anchor.

Definition get_subtasks (tasks : store) (parent : string) : list string :=
  sort_by Z.leb (key_priority tasks)
          (keys (filter (fun e => is_subtask parent (snd e)) tasks)).

Definition get_workflow_siblings (tasks : store) (task_id : string)
  : list string :=
  sort_by String.leb (key_created tasks)
          (keys (filter (fun e => is_workflow_sibling task_id (snd e)) tasks)).

(** * Cascade operations ([main5.0.0.py], lines 1314-1353 and 1535-1547)

    The cascades are recursive Python methods without any bound of their
    own: the only bound is the interpreter's recursion limit.  [fuel] is
    the depth of calls that is left, and [None] is Python's
    [RecursionError]. *)

(** [for x in l: body(x)], the store being threaded through the calls. *)
Section ForEach.
Context {S A : Type}.
Variable body : S -> A -> option S.

Fixpoint for_each (l : list A) (s : S) : option S :=
  match l with
  | [] => Some s
  | x :: l' =>
      match body s x with
      | Some s' => for_each l' s'
      | None => None
      end
  end.
End ForEach.

Fixpoint _delete_recursive (fuel : nat) (tasks : store) (task_id : string)
  : option store :=
  match fuel with
  | O => None
  | S fuel' =>
      (* Delete subtasks *)
      match for_each (_delete_recursive fuel')
                     (get_subtasks tasks task_id) tasks with
      | None => None
      | Some tasks1 =>
          (* Delete workflow siblings *)
          match for_each (_delete_recursive fuel')
                         (get_workflow_siblings tasks1 task_id) tasks1 with
          | None => None
          | Some tasks2 =>
              (* Delete the task itself *)
              Some (if dict_mem tasks2 task_id
                    then dict_del tasks2 task_id
                    else tasks2)
          end
      end
  end.

Fixpoint _set_stash_recursive (fuel : nat) (tasks : store) (task_id : string)
                              (stashed : bool) : option store :=
  match fuel with
  | O => None
  | S fuel' =>
      if negb (dict_mem tasks task_id) then Some tasks
      else
        let tasks1 := dict_update tasks task_id (set_stashed stashed) in
        (* Un-complete if stashing *)
        let tasks2 := if stashed
                      then dict_update tasks1 task_id (set_completed false)
                      else tasks1 in
        (* Apply to all subtasks *)
        match for_each (fun s c => _set_stash_recursive fuel' s c stashed)
                       (get_subtasks tasks2 task_id) tasks2 with
        | None => None
        | Some tasks3 =>
            (* Apply to all workflow siblings *)
            for_each (fun s c => _set_stash_recursive fuel' s c stashed)
                     (get_workflow_siblings tasks3 task_id) tasks3
        end
  end.

(** [toggle_stash_status]: flips the root's flag and cascades the new
    value. *)
Definition toggle_stash_status (fuel : nat) (tasks : store) (task_id : string)
  : option store :=
  match dict_get tasks task_id with
  | Some t => _set_stash_recursive fuel tasks task_id (negb (stashed t))
  | None => Some tasks
  end.

(** The label of the "done" entry of the status menu, as the bytes of the
    source file have it: ["Done "] followed by a check mark. *)
Definition DONE_LABEL : string :=
  String.append "Done "
    (string_of_list_ascii
       (map ascii_of_nat [226; 128; 154; 195; 186; 195; 172])).

Definition toggle_done_status (tasks : store) (task_id : string)
                              (status : string) : store :=
  if dict_mem tasks task_id then
    let tasks1 :=
      dict_update tasks task_id (set_completed (String.eqb status DONE_LABEL)) in
    (* Un-stash if marking as done *)
    match dict_get tasks1 task_id with
    | Some t => if completed t
                then dict_update tasks1 task_id (set_stashed false)
                else tasks1
    | None => tasks1
    end
  else tasks.

(** * The graph the cascades walk *)

Definition children (tasks : store) (k : string) : list string :=
  get_subtasks tasks k ++ get_workflow_siblings tasks k.

(** [reachable tasks r k]: [k] is [r] or is reached from [r] through
    [get_subtasks] and [get_workflow_siblings], transitively. *)
Inductive reachable (tasks : store) (r : string) : string -> Prop :=
| reach_root : reachable tasks r r
| reach_step : forall k c,
    reachable tasks r k -> In c (children tasks k) -> reachable tasks r c.

(** The edge that enters a task is read off the task itself: a subtask
    edge from [parent_id] when [workflow_sibling_of] is falsy, a workflow
    edge from [workflow_sibling_of].  A store is ranked by [rk] when every
    edge goes from a greater rank to a smaller one: the relations have no
    cycle. *)
Definition edge_ranked (rk : string -> nat) (e : string * Task) : bool :=
  (match parent_id (snd e) with
   | Some p => truthy (workflow_sibling_of (snd e)) || Nat.ltb (rk (fst e)) (rk p)
   | None => true
   end)
  &&
  (match workflow_sibling_of (snd e) with
   | Some w => Nat.ltb (rk (fst e)) (rk w)
   | None => true
   end).

Definition ranked (rk : string -> nat) (tasks : store) : bool :=
  forallb (edge_ranked rk) tasks.

(** Removal of a list of keys at once. *)
Definition remove_keys (D : list string) (tasks : store) : store :=
  filter (fun e => negb (existsb (String.eqb (fst e)) D)) tasks.

Local Open Scope Z_scope.

(** * Priority reordering ([main5.0.0.py], lines 580-615 and 669-717) *)

(** [t.get('priority') == target] *)
Definition has_priority (target : Z) (e : string * Task) : bool :=
  match priority (snd e) with
  | Some p => Z.eqb p target
  | None => false
  end.

(** [max(l)] and [min(l)] of a list that is not empty. *)
Definition py_max (x : Z) (l : list Z) : Z := fold_left Z.max l x.
Definition py_min (x : Z) (l : list Z) : Z := fold_left Z.min l x.

(** The two assignments of the swap, in the order of the source. *)
Definition swap_into (tasks : store) (tid : string) (p_tid : Z)
                     (task_id : string) (p_task : Z) : store :=
  dict_update (dict_update tasks tid (set_priority p_tid))
              task_id (set_priority p_task).

Definition move_priority_up (tasks : store) (task_id : string) : store :=
  match dict_get tasks task_id with
  | None => tasks
  | Some t =>
      let current_priority := priority_get_999 t in
      let lower_priorities :=
        map (fun e => priority_get_999 (snd e))
            (filter (fun e => Z.ltb (priority_get_999 (snd e)) current_priority
                              && negb (String.eqb (fst e) task_id)) tasks) in
      match lower_priorities with
      | [] => tasks
      | p :: ps =>
          let target_priority := py_max p ps in
          match find (has_priority target_priority) tasks with
          | Some (tid, _) =>
              swap_into tasks tid current_priority task_id target_priority
          | None => tasks
          end
      end
  end.

Definition move_priority_down (tasks : store) (task_id : string) : store :=
  match dict_get tasks task_id with
  | None => tasks
  | Some t =>
      let current_priority := priority_get_999 t in
      let higher_priorities :=
        map (fun e => priority_get_999 (snd e))
            (filter (fun e => Z.gtb (priority_get_999 (snd e)) current_priority
                              && negb (String.eqb (fst e) task_id)) tasks) in
      match higher_priorities with
      | [] => tasks
      | p :: ps =>
          let target_priority := py_min p ps in
          match find (has_priority target_priority) tasks with
          | Some (tid, _) =>
              swap_into tasks tid current_priority task_id target_priority
          | None => tasks
          end
      end
  end.

(** A card rectangle [(x, y, width, height)] and the dictionary
    [self.task_positions]. *)
Definition Rect : Type := (Z * Z * Z * Z)%type.
Definition positions : Type := list (string * Rect).

(** [tx <= x <= tx + tw and ty <= y <= ty + th] *)
Definition hits (x y : Z) (r : Rect) : bool :=
  let '(tx, ty, tw, th) := r in
  Z.leb tx x && Z.leb x (tx + tw) && Z.leb ty y && Z.leb y (ty + th).

(** Only root tasks are dragged and dropped on. *)
Definition is_root (t : Task) : bool :=
  is_None (parent_id t) && negb (truthy (workflow_sibling_of t)).

(** The search of [_on_canvas_release] for the card under the pointer:
    the first card hit decides; the [break] sits inside the root test. *)
Fixpoint dropped_on (tasks : store) (pos : positions) (x y : Z)
  : option string :=
  match pos with
  | [] => None
  | (task_id, r) :: pos' =>
      if hits x y r then
        match dict_get tasks task_id with
        | Some t => if is_root t then Some task_id
                    else dropped_on tasks pos' x y
        | None => dropped_on tasks pos' x y
        end
      else dropped_on tasks pos' x y
  end.

(** The swap of [_on_canvas_release], for the dragged task and the task it
    was dropped on.  [self.tasks[k]] raises [KeyError] for a missing key:
    that is [None]. *)
Definition swap_priorities (tasks : store) (drag_task_id dropped : string)
  : option store :=
  match dict_get tasks drag_task_id, dict_get tasks dropped with
  | Some td, Some tp =>
      let drag_priority := priority_or_999 td in
      let drop_priority := priority_or_999 tp in
      Some (dict_update
              (dict_update tasks drag_task_id (set_priority drop_priority))
              dropped (set_priority drag_priority))
  | _, _ => None
  end.

(** [_on_canvas_release], as far as the store goes: [dragging] and
    [drag_task_id] are the drag state, [(x, y)] the canvas point of the
    release.  An empty [dropped_on_task_id] is falsy. *)
Definition _on_canvas_release (tasks : store) (pos : positions)
                              (dragging : bool) (drag_task_id : option string)
                              (x y : Z) : option store :=
  if dragging && truthy drag_task_id then
    match drag_task_id, dropped_on tasks pos x y with
    | Some drag, Some dropped =>
        if negb (String.eqb dropped "") && negb (String.eqb dropped drag)
        then swap_priorities tasks drag dropped
        else Some tasks
    | _, _ => Some tasks
    end
  else Some tasks.

(** * Card layout ([main5.0.0.py], lines 786-858 and 990-1094) *)

(** The five lengths of the layout.  In the source each is
    [int(base * self.card_zoom_level)]; [dims_100] is zoom level 1.0. *)
Record Dims : Type := mkDims {
  card_width : Z;
  card_height : Z;
  card_spacing_h : Z;
  card_spacing_v : Z;
  level_indent : Z
}.

Definition dims_100 : Dims := mkDims 240 120 60 50 30.

(** An entry of [layout_queue]: [(task_id, x, y, level)]. *)
Definition QItem : Type := (string * Z * Z * Z)%type.

(** The body of [for idx, sub_id in enumerate(subtasks)]: every subtask is
    queued at the running [subtask_x], which then advances by one card and
    one spacing. *)
Fixpoint queue_subtasks (d : Dims) (subtasks : list string)
                        (subtask_x curr_y curr_level : Z) : list QItem :=
  match subtasks with
  | [] => []
  | sub_id :: rest =>
      (sub_id, subtask_x, curr_y, curr_level)
        :: queue_subtasks d rest (subtask_x + card_width d + card_spacing_h d)
                          curr_y curr_level
  end.

(** The body of [for wf_id in workflows]. *)
Fixpoint queue_workflows (d : Dims) (workflows : list string)
                         (workflow_x workflow_y curr_level : Z) : list QItem :=
  match workflows with
  | [] => []
  | wf_id :: rest =>
      (wf_id, workflow_x, workflow_y, curr_level + 1)
        :: queue_workflows d rest workflow_x
                           (workflow_y + card_height d + card_spacing_v d)
                           curr_level
  end.

(** [_draw_task_card]: stores the rectangle and returns the card height. *)
Definition _draw_task_card (d : Dims) (tasks : store) (pos : positions)
                           (task_id : string) (x y : Z) : positions * Z :=
  match dict_get tasks task_id with
  | None => (pos, 0)
  | Some _ =>
      (dict_set pos task_id (x, y, card_width d, card_height d), card_height d)
  end.

(** The [while layout_queue:] loop.  [fuel] bounds the number of
    iterations; [None] means the loop is still running when it is used
    up. *)
Fixpoint layout_loop (fuel : nat) (d : Dims) (tasks : store)
                     (layout_queue : list QItem) (pos : positions)
                     (max_y_used max_x_used : Z)
  : option (positions * Z * Z) :=
  match layout_queue with
  | [] => Some (pos, max_y_used, max_x_used)
  | (current_id, curr_x, curr_y, curr_level) :: queue =>
      match fuel with
      | O => None
      | S fuel' =>
          match dict_get tasks current_id with
          | None =>
              layout_loop fuel' d tasks queue pos max_y_used max_x_used
          | Some _ =>
              let '(pos1, ch) :=
                _draw_task_card d tasks pos current_id curr_x curr_y in
              let max_y1 := Z.max max_y_used (curr_y + ch) in
              let max_x1 := Z.max max_x_used (curr_x + card_width d) in
              let queue1 :=
                queue ++
                queue_subtasks d (get_subtasks tasks current_id)
                  (curr_x + card_width d + card_spacing_h d)
                  curr_y curr_level in
              let queue2 :=
                queue1 ++
                queue_workflows d (get_workflow_siblings tasks current_id)
                  (curr_x + level_indent d)
                  (curr_y + ch + card_spacing_v d) curr_level in
              layout_loop fuel' d tasks queue2 pos1 max_y1 max_x1
          end
      end
  end.

Definition _render_task_tree (fuel : nat) (d : Dims) (tasks : store)
                             (pos : positions) (task_id : string)
                             (x y level : Z) : option (positions * Z) :=
  match dict_get tasks task_id with
  | None => Some (pos, 0)
  | Some _ =>
      match layout_loop fuel d tasks [(task_id, x, y, level)] pos y x with
      | None => None
      | Some (pos', max_y_used, _) =>
          Some (pos', max_y_used - y + card_height d)
      end
  end.

(** ** [refresh_pipeline] *)

(** The part of the application object the layout reads and writes. *)
Record App : Type := mkApp {
  self_tasks : store;
  self_current_view : string;
  self_view_mode : string;
  self_sort_mode : string;
  self_dims : Dims;
  self_task_positions : positions
}.

Definition with_positions (app : App) (pos : positions) : App :=
  mkApp (self_tasks app) (self_current_view app) (self_view_mode app)
        (self_sort_mode app) (self_dims app) pos.

(** The three comprehensions that select the root tasks of a view. *)
Definition root_filter (current_view : string) (t : Task) : bool :=
  if String.eqb current_view "todo" then
    is_None (parent_id t) && negb (completed t) && negb (stashed t)
    && negb (truthy (workflow_sibling_of t))
  else if String.eqb current_view "done" then
    is_None (parent_id t) && completed t
    && negb (truthy (workflow_sibling_of t))
  else if String.eqb current_view "stash" then
    is_None (parent_id t) && stashed t
    && negb (truthy (workflow_sibling_of t))
  else false.

(** Order of the tuples [(priority, created)]. *)
Definition tuple_leb (a b : Z * string) : bool :=
  Z.ltb (fst a) (fst b) || (Z.eqb (fst a) (fst b) && String.leb (snd a) (snd b)).

Definition root_tasks (current_view sort_mode : string) (tasks : store)
  : list string :=
  let selected := keys (filter (fun e => root_filter current_view (snd e)) tasks) in
  if String.eqb sort_mode "priority"
  then sort_by tuple_leb
               (fun tid => (key_priority tasks tid, key_created tasks tid))
               selected
  else sort_by String.leb (key_created tasks) selected.

(** [for idx, task_id in enumerate(root_tasks)]: the trees are stacked,
    each one below the height the previous one reported.  (The text mode
    builds labels only and assigns no position; of [refresh_pipeline] it
    is the effect on [task_positions] that is described here.) *)
Fixpoint render_roots (fuel : nat) (d : Dims) (tasks : store)
                      (roots : list string) (pos : positions) (current_y : Z)
  : option positions :=
  match roots with
  | [] => Some pos
  | task_id :: rest =>
      match _render_task_tree fuel d tasks pos task_id 40 current_y 0 with
      | None => None
      | Some (pos', height) =>
          render_roots fuel d tasks rest pos' (current_y + height + 40)
      end
  end.

Definition refresh_pipeline (fuel : nat) (app : App) : option App :=
  let cleared : positions := [] in
  let roots := root_tasks (self_current_view app) (self_sort_mode app)
                          (self_tasks app) in
  match roots with
  | [] => Some (with_positions app cleared)
  | _ :: _ =>
      if String.eqb (self_view_mode app) "card" then
        match render_roots fuel (self_dims app) (self_tasks app) roots
                           cleared 40 with
        | None => None
        | Some pos => Some (with_positions app pos)
        end
      else Some (with_positions app cleared)
  end.

(** Two rectangles intersect when their interiors share a point. *)
Definition rect_overlap (a b : Rect) : bool :=
  let '(ax, ay, aw, ah) := a in
  let '(bx, by_, bw, bh) := b in
  Z.ltb ax (bx + bw) && Z.ltb bx (ax + aw)
  && Z.ltb ay (by_ + bh) && Z.ltb by_ (ay + ah).

(** * The accessors of the older generations *)

Module V1.
(** [main1.0.0.py], lines 436-444: no workflow field yet, and a priority
    of [None] only is replaced by 999. *)
Definition key_priority (tasks : store) (tid : string) : Z :=
  match dict_get tasks tid with
  | Some t => priority_get_999 t
  | None => 999
  end.

Definition get_subtasks (tasks : store) (parent : string) : list string :=
  sort_by Z.leb (key_priority tasks)
          (keys (filter (fun e => get_eqb (parent_id (snd e)) parent) tasks)).
End V1.

Module V2.
(** [main2.0.0.py], lines 964-980: the direct siblings, followed by the
    siblings of each of them, recursively. *)
Fixpoint extend_all (f : string -> option (list string))
                    (siblings : list string) (all_siblings : list string)
  : option (list string) :=
  match siblings with
  | [] => Some all_siblings
  | sibling_id :: rest =>
      match f sibling_id with
      | None => None
      | Some more => extend_all f rest (all_siblings ++ more)
      end
  end.

Fixpoint get_workflow_siblings (fuel : nat) (tasks : store)
                               (task_id : string) : option (list string) :=
  match fuel with
  | O => None
  | S fuel' =>
      let siblings :=
        sort_by String.leb (key_created tasks)
          (keys (filter (fun e => is_workflow_sibling task_id (snd e)) tasks)) in
      extend_all (get_workflow_siblings fuel' tasks) siblings siblings
  end.

(** [create_task], the callback of the dialog of [main2.0.0.py] (lines
    1052-1082): the priority is the number the user types.  [typed] is
    the result of [int(priority_entry.get().strip())], [None] when it
    raises [ValueError]. *)
Definition priority_val (typed : option Z) : Z :=
  match typed with
  | Some p => if Z.ltb p 0 then 0 else p
  | None => 999
  end.

Definition create_task (tasks : store) (task_id title description : string)
                       (parent_id : option string) (is_workflow : bool)
                       (workflow_sibling_of : option string) (now : string)
                       (typed : option Z) : option store :=
  if String.eqb title "" then None
  else
    let new_task :=
      mkTask task_id title description false false parent_id
             (if is_workflow && truthy workflow_sibling_of
              then workflow_sibling_of else None)
             now (Some (priority_val typed)) in
    Some (dict_set tasks task_id new_task).

(** [get_subtasks] of [main2.0.0.py] (lines 954-962) reads as the one of
    [main5.0.0.py]. *)
Definition get_subtasks (tasks : store) (parent_id : string) : list string :=
  sort_by Z.leb (key_priority tasks)
          (keys (filter (fun e => is_subtask parent_id (snd e)) tasks)).
End V2.

(** * Stores used as examples *)

(** A task as [create_task] builds it. *)
Definition new_task (task_id : string) (parent : option string)
                    (sibling_of : option string) (created_at : string)
                    (prio : Z) : Task :=
  mkTask task_id task_id "" false false parent sibling_of created_at (Some prio).

Definition entry (task_id : string) (parent : option string)
                 (sibling_of : option string) (created_at : string)
                 (prio : Z) : string * Task :=
  (task_id, new_task task_id parent sibling_of created_at prio).

(** The scenario of the specification: task A, its subtask B, and C, a
    workflow sibling of B (which shares B's parent). *)
Definition store_abc : store :=
  [ entry "A" None None "2024-01-01T10:00:00" 999;
    entry "B" (Some "A") None "2024-01-01T10:01:00" 999;
    entry "C" (Some "A") (Some "B") "2024-01-01T10:02:00" 999 ].

(** A task that is its own parent. *)
Definition store_self_parent : store :=
  [ entry "a" (Some "a") None "2024-01-01T10:00:00" 1 ].

(** Two tasks, each the workflow sibling of the other. *)
Definition store_sibling_cycle : store :=
  [ entry "a" None (Some "b") "2024-01-01T10:00:00" 1;
    entry "b" None (Some "a") "2024-01-01T10:01:00" 2 ].

(** A root with two subtasks, the first of which has a subtask. *)
Definition store_two_levels : store :=
  [ entry "A" None None "2024-01-01T10:00:00" 1;
    entry "B1" (Some "A") None "2024-01-01T10:01:00" 2;
    entry "B2" (Some "A") None "2024-01-01T10:02:00" 3;
    entry "C" (Some "B1") None "2024-01-01T10:03:00" 4 ].

(** A parent with a subtask of priority 0 and one of priority 5. *)
Definition store_priority_zero : store :=
  [ entry "P" None None "2024-01-01T10:00:00" 1;
    entry "X" (Some "P") None "2024-01-01T10:01:00" 0;
    entry "Y" (Some "P") None "2024-01-01T10:02:00" 5 ].

(** The scenario of the specification: root tasks X (priority 5) and Y
    (priority 2). *)
Definition store_xy : store :=
  [ entry "X" None None "2024-01-01T10:00:00" 5;
    entry "Y" None None "2024-01-01T10:01:00" 2 ].

(** Two root tasks, one of priority 0. *)
Definition store_drag_zero : store :=
  [ entry "A" None None "2024-01-01T10:00:00" 0;
    entry "B" None None "2024-01-01T10:01:00" 5 ].

(** A root and a task whose parent is not in the store. *)
Definition store_dangling : store :=
  [ entry "R" None None "2024-01-01T10:00:00" 1;
    entry "T" (Some "ghost") None "2024-01-01T10:01:00" 2 ].

(** A rank for [store_abc]: A above B above C. *)
Definition rank_abc (k : string) : nat :=
  if String.eqb k "A" then 2%nat
  else if String.eqb k "B" then 1%nat
  else 0%nat.

(** Decision of [NoDup] on lists of ids. *)
Fixpoint nodupb (l : list string) : bool :=
  match l with
  | [] => true
  | x :: l' => negb (existsb (String.eqb x) l') && nodupb l'
  end.

(** * Notions the properties are stated with *)

(** A set of ids that no edge leaves. *)
Definition closed (D : list string) (tasks : store) : Prop :=
  forall a b, In a D -> In b (children tasks a) -> In b D.

(** The same change applied to the tasks of a list of keys. *)
Definition update_keys (D : list string) (f : Task -> Task) (tasks : store)
  : store :=
  map (fun e => if existsb (String.eqb (fst e)) D
                then (fst e, f (snd e)) else e) tasks.

(** What the stash cascade does to one task. *)
Definition stash_effect (b : bool) (t : Task) : Task :=
  if b then set_completed false (set_stashed true t) else set_stashed false t.

(** A change of a task that leaves alone what the accessors read. *)
Definition preserves_graph (f : Task -> Task) : Prop :=
  forall t, parent_id (f t) = parent_id t
            /\ workflow_sibling_of (f t) = workflow_sibling_of t
            /\ created (f t) = created t
            /\ priority (f t) = priority t.

(** The shape [move_priority_up] and [move_priority_down] share:
    [beyond p current] selects the priorities on the side the task moves
    to, [nearest] picks the one next to the current priority. *)
Definition move_priority_by (beyond : Z -> Z -> bool)
                            (nearest : Z -> list Z -> Z)
                            (tasks : store) (task_id : string) : store :=
  match dict_get tasks task_id with
  | None => tasks
  | Some t =>
      let current_priority := priority_get_999 t in
      match map (fun e => priority_get_999 (snd e))
                (filter (fun e => beyond (priority_get_999 (snd e)) current_priority
                                  && negb (String.eqb (fst e) task_id)) tasks) with
      | [] => tasks
      | p :: ps =>
          match find (has_priority (nearest p ps)) tasks with
          | Some (tid, _) =>
              swap_into tasks tid current_priority task_id (nearest p ps)
          | None => tasks
          end
      end
  end.

(** [neighbour beyond tasks task_id cur k p]: [k] is another task, and its
    priority [p] lies strictly beyond [cur]. *)
Definition neighbour (beyond : Z -> Z -> bool) (tasks : store)
                     (task_id : string) (cur : Z) (k : string) (p : Z) : Prop :=
  exists t, In (k, t) tasks /\ k <> task_id
            /\ priority t = Some p /\ beyond p cur = true.

(** Every task carries a priority, as every task the program creates
    does. *)
Definition all_priorities_set (tasks : store) : Prop :=
  forall k t, In (k, t) tasks -> priority t <> None.

(** The application showing the "todo" view as cards, sorted by
    priority, at zoom level 1.0, before any layout. *)
Definition app_of (tasks : store) : App :=
  mkApp tasks "todo" "card" "priority" dims_100 [].

(** The priorities of a store, in the order of the store. *)
Definition priorities (tasks : store) : list (string * option Z) :=
  map (fun e => (fst e, priority (snd e))) tasks.

(** A task with a reference that leads nowhere: a [workflow_sibling_of]
    that names no task of the store or, without [workflow_sibling_of], a
    [parent_id] that names none. *)
Definition dangling (tasks : store) (t : Task) : bool :=
  match workflow_sibling_of t with
  | Some w => negb (String.eqb w "") && negb (dict_mem tasks w)
  | None =>
      match parent_id t with
      | Some p => negb (dict_mem tasks p)
      | None => false
      end
  end.

(** The assignments [self.task_positions[k] = r] of a layout, in order,
    and their effect on the dictionary. *)
Definition apply_writes (W : list (string * Rect)) (pos : positions)
  : positions :=
  fold_left (fun p w => dict_set p (fst w) (snd w)) W pos.

(** The layout loop with the assignments collected instead of performed. *)
Fixpoint layout_trace (fuel : nat) (d : Dims) (tasks : store)
                      (layout_queue : list QItem) (max_y_used max_x_used : Z)
  : option (list (string * Rect) * Z * Z) :=
  match layout_queue with
  | [] => Some ([], max_y_used, max_x_used)
  | (current_id, curr_x, curr_y, curr_level) :: queue =>
      match fuel with
      | O => None
      | S fuel' =>
          match dict_get tasks current_id with
          | None => layout_trace fuel' d tasks queue max_y_used max_x_used
          | Some _ =>
              let ch := card_height d in
              let queue2 :=
                (queue ++
                 queue_subtasks d (get_subtasks tasks current_id)
                   (curr_x + card_width d + card_spacing_h d)
                   curr_y curr_level) ++
                queue_workflows d (get_workflow_siblings tasks current_id)
                  (curr_x + level_indent d)
                  (curr_y + ch + card_spacing_v d) curr_level in
              match layout_trace fuel' d tasks queue2
                                 (Z.max max_y_used (curr_y + ch))
                                 (Z.max max_x_used (curr_x + card_width d)) with
              | None => None
              | Some (W, my, mx) =>
                  Some ((current_id, (curr_x, curr_y, card_width d, ch)) :: W,
                        my, mx)
              end
          end
      end
  end.

(** The task id of a queue entry. *)
Definition qid (q : QItem) : string := fst (fst (fst q)).

(** A bound on the iterations of the layout loop for a task of rank [r] in
    a store of [n] tasks: the task itself and, for each of its at most
    [2 * n] queued children, the bound of a smaller rank. *)
Fixpoint layout_cost (n r : nat) : nat :=
  match r with
  | O => 1
  | S r' => 1 + 2 * n * layout_cost n r'
  end.

Definition queue_cost (n : nat) (rk : string -> nat) (queue : list QItem)
  : nat :=
  list_sum (map (fun q => layout_cost n (rk (qid q))) queue).

(** A chain of workflow siblings: B continues A, C continues B. *)
Definition store_chain : store :=
  [ entry "A" None None "2024-01-01T10:00:00" 1;
    entry "B" None (Some "A") "2024-01-01T10:01:00" 2;
    entry "C" None (Some "B") "2024-01-01T10:02:00" 3 ].

(** * Creating and editing tasks ([main5.0.0.py], lines 1355-1517) *)

(** [t.get('priority', 0)] *)
Definition priority_get_0 (t : Task) : Z :=
  match priority t with
  | None => 0
  | Some p => p
  end.

(** The priority [create_task] assigns: one more than the greatest
    priority of the store, 1 in an empty store. *)
Definition next_priority (tasks : store) : Z :=
  match map (fun e => priority_get_0 (snd e)) tasks with
  | [] => 1
  | p :: ps => py_max p ps + 1
  end.

(** [create_task], the callback of the dialog's button.  [title] and
    [description] are the texts of the two fields after [strip()],
    [task_id] the fresh [uuid4] and [now] the ISO time stamp; [None] is
    the warning "Please enter a title": nothing is created. *)
Definition create_task (tasks : store) (task_id title description : string)
                       (parent : option string) (is_workflow : bool)
                       (sibling_of : option string) (now : string)
  : option store :=
  if String.eqb title "" then None
  else
    let new_task :=
      mkTask task_id title description false false parent
             (if is_workflow && truthy sibling_of then sibling_of else None)
             now (Some (next_priority tasks)) in
    Some (dict_set tasks task_id new_task).

(** [add_subtask] opens the dialog for a subtask of [parent]. *)
Definition add_subtask (tasks : store) (parent : string)
                       (task_id title description now : string) : option store :=
  create_task tasks task_id title description (Some parent) false None now.

(** [add_workflow_sibling] opens the dialog only when the anchor exists;
    the new task shares the anchor's parent. *)
Definition add_workflow_sibling (tasks : store) (sibling_of_id : string)
                                (task_id title description now : string)
  : option store :=
  match dict_get tasks sibling_of_id with
  | Some t =>
      create_task tasks task_id title description (parent_id t) true
                  (Some sibling_of_id) now
  | None => None
  end.



(** [delete_task]: the cascade runs when the user confirms. *)
Definition delete_task (fuel : nat) (tasks : store) (task_id : string)
                       (confirmed : bool) : option store :=
  if confirmed then _delete_recursive fuel tasks task_id else Some tasks.

(** * Starting a drag ([main5.0.0.py], lines 539-571) *)

(** An entry of [self.button_regions] as [_on_canvas_click] reads it:
    whether the canvas item [region_id] is among
    [self.canvas.find_all()], its [self.canvas.coords(region_id)], and the
    callback registered for it.  The callbacks that [_draw_task_card]
    registers (lines 1141-1286: [move_priority_up], [move_priority_down],
    [add_subtask], [add_workflow_sibling], [toggle_done_status],
    [toggle_stash_status], [delete_task], [edit_task]) act on the tasks
    and, through [refresh_pipeline], on the positions; none of them
    touches the drag state.  [None] is a callback that does not return. *)
Record ButtonRegion : Type := mkButtonRegion {
  region_on_canvas : bool;
  region_coords : list Z;
  region_callback : store * positions -> option (store * positions)
}.

(** [for region_id, callback in self.button_regions.items()], up to its
    [break]: the callback of the first region that is on the canvas, has
    four coordinates or more and holds the point. *)
Fixpoint clicked_button (button_regions : list ButtonRegion) (x y : Z)
  : option (store * positions -> option (store * positions)) :=
  match button_regions with
  | [] => None
  | region :: rest =>
      if region_on_canvas region then
        match region_coords region with
        | x1 :: y1 :: x2 :: y2 :: _ =>
            if Z.leb x1 x && Z.leb x x2 && Z.leb y1 y && Z.leb y y2
            then Some (region_callback region)
            else clicked_button rest x y
        | _ => clicked_button rest x y
        end
      else clicked_button rest x y
  end.

(** [_on_canvas_click]: a button under the pointer has its callback run
    and nothing else happens; otherwise the first root card hit starts a
    drag.  The drag state is the pair [(dragging, drag_task_id)]; the
    result is the tasks, the positions and the drag state after the
    click. *)
Definition _on_canvas_click (tasks : store) (pos : positions)
                            (button_regions : list ButtonRegion) (x y : Z)
                            (drag : bool * option string)
  : option (store * positions * (bool * option string)) :=
  match clicked_button button_regions x y with
  | Some callback =>
      match callback (tasks, pos) with
      | Some (tasks', pos') => Some (tasks', pos', drag)
      | None => None
      end
  | None =>
      Some (tasks, pos,
            match dropped_on tasks pos x y with
            | Some task_id => (true, Some task_id)
            | None => drag
            end)
  end.

(** * The tree view ([main5.0.0.py], lines 860-988) *)

Definition bytes (l : list nat) : string :=
  string_of_list_ascii (map ascii_of_nat l).

(** The box-drawing pieces and the two marks, byte for byte as in the
    source file. *)
Definition TREE_LAST : string :=
  String.append
    (bytes [226; 128; 154; 195; 174; 195; 174; 226; 128; 154; 195; 174;
            195; 132; 226; 128; 154; 195; 174; 195; 132]%nat) " ".
Definition TREE_MID : string :=
  String.append
    (bytes [226; 128; 154; 195; 174; 195; 186; 226; 128; 154; 195; 174;
            195; 132; 226; 128; 154; 195; 174; 195; 132]%nat) " ".
Definition TREE_BAR : string :=
  String.append (bytes [226; 128; 154; 195; 174; 195; 135]%nat) "   ".
Definition MARK_DONE : string :=
  String.append (bytes [226; 128; 154; 195; 186; 195; 172]%nat) " ".
Definition MARK_STASHED : string :=
  String.append (bytes [226; 128; 154; 195; 168; 226; 136; 143]%nat) " ".

(** One label of the tree view: the task it shows, its level and its
    text (fonts and colours are left out). *)
Record Row : Type := mkRow {
  row_task : string;
  row_level : Z;
  row_text : string
}.

(** The test on [current_view] at the head of [_render_tree_node]: a task
    that fails it is skipped together with everything below it.  An
    unknown view skips nothing. *)
Definition view_shows (current_view : string) (t : Task) : bool :=
  if String.eqb current_view "todo" then negb (completed t || stashed t)
  else if String.eqb current_view "done" then completed t
  else if String.eqb current_view "stash" then stashed t
  else true.

(** [for idx, sub_id in enumerate(subtasks)], with
    [is_last = (idx == len(subtasks) - 1)]. *)
Fixpoint rows_of_subtasks (rec : string -> bool -> option (list Row))
                          (subtasks : list string) : option (list Row) :=
  match subtasks with
  | [] => Some []
  | sub_id :: rest =>
      match rec sub_id (match rest with [] => true | _ :: _ => false end) with
      | None => None
      | Some rows =>
          match rows_of_subtasks rec rest with
          | None => None
          | Some more => Some (rows ++ more)
          end
      end
  end.

Fixpoint rows_of_workflows (rec : string -> option (list Row))
                           (workflows : list string) : option (list Row) :=
  match workflows with
  | [] => Some []
  | wf_id :: rest =>
      match rec wf_id with
      | None => None
      | Some rows =>
          match rows_of_workflows rec rest with
          | None => None
          | Some more => Some (rows ++ more)
          end
      end
  end.

(** [_render_tree_node]; the result is the list of labels it packs, in
    order.  [fuel] is the recursion depth that is left. *)
Fixpoint _render_tree_node (fuel : nat) (current_view : string) (tasks : store)
                           (task_id : string) (level : Z)
                           (is_last_child : bool) (prefix : string)
                           (show_subtasks : bool) : option (list Row) :=
  match fuel with
  | O => None
  | S fuel' =>
      match dict_get tasks task_id with
      | None => Some []
      | Some task =>
          if negb (view_shows current_view task) then Some []
          else
            let tree_chars :=
              if Z.eqb level 0 then ""
              else String.append prefix
                     (if is_last_child then TREE_LAST else TREE_MID) in
            let check_mark :=
              if completed task then MARK_DONE
              else if stashed task then MARK_STASHED else "" in
            let task_text :=
              String.append tree_chars (String.append check_mark (title task)) in
            let child_prefix :=
              if Z.eqb level 0 then ""
              else String.append prefix
                     (if is_last_child then "    " else TREE_BAR) in
            match rows_of_subtasks
                    (fun sub_id is_last =>
                       _render_tree_node fuel' current_view tasks sub_id
                                         (level + 1) is_last child_prefix true)
                    (get_subtasks tasks task_id) with
            | None => None
            | Some sub_rows =>
                if show_subtasks then
                  match rows_of_workflows
                          (fun wf_id =>
                             _render_tree_node fuel' current_view tasks wf_id
                                               level false prefix true)
                          (get_workflow_siblings tasks task_id) with
                  | None => None
                  | Some wf_rows =>
                      Some (mkRow task_id level task_text :: sub_rows ++ wf_rows)
                  end
                else Some (mkRow task_id level task_text :: sub_rows)
            end
      end
  end.

(** [_render_text_mode] for a list of roots that is not empty: each root
    at level 0 (the separator lines between the trees are left out). *)
Fixpoint _render_text_mode (fuel : nat) (current_view : string) (tasks : store)
                           (roots : list string) : option (list Row) :=
  match roots with
  | [] => Some []
  | task_id :: rest =>
      match _render_tree_node fuel current_view tasks task_id 0 true "" true with
      | None => None
      | Some rows =>
          match _render_text_mode fuel current_view tasks rest with
          | None => None
          | Some more => Some (rows ++ more)
          end
      end
  end.

(** [visible view tasks r k]: [k] is reached from [r] along tasks that all
    pass the view's test, [r] and [k] included. *)
Inductive visible (current_view : string) (tasks : store) (r : string)
  : string -> Prop :=
| visible_root : forall t,
    dict_get tasks r = Some t -> view_shows current_view t = true ->
    visible current_view tasks r r
| visible_step : forall k c t,
    visible current_view tasks r k ->
    In c (children tasks k) ->
    dict_get tasks c = Some t -> view_shows current_view t = true ->
    visible current_view tasks r c.

(** * Invariants of the store *)

(** No task is both completed and stashed. *)
Definition status_exclusive (tasks : store) : Prop :=
  forall k t, In (k, t) tasks -> completed t && stashed t = false.

(** The priorities are set, positive and pairwise different. *)
Definition priorities_distinct (tasks : store) : Prop :=
  all_priorities_set tasks
  /\ NoDup (map (fun e => priority (snd e)) tasks)
  /\ forall k t p, In (k, t) tasks -> priority t = Some p -> 0 < p.

(** [workflow_reachable tasks a k]: [k] is reached from [a] by one or more
    workflow edges. *)
Inductive workflow_reachable (tasks : store) (a : string) : string -> Prop :=
| wf_direct : forall k,
    In k (get_workflow_siblings tasks a) -> workflow_reachable tasks a k
| wf_further : forall k c,
    workflow_reachable tasks a k ->
    In c (get_workflow_siblings tasks k) -> workflow_reachable tasks a c.

(** The anchor of a queue entry. *)
Definition qx (q : QItem) : Z := snd (fst (fst q)).
Definition qy (q : QItem) : Z := snd (fst q).

(** The lengths of the layout are not negative (they are
    [int(base * zoom)] for positive bases and a zoom between 0.5 and 2). *)
Definition dims_nonneg (d : Dims) : Prop :=
  0 <= card_width d /\ 0 <= card_height d /\ 0 <= card_spacing_h d
  /\ 0 <= card_spacing_v d /\ 0 <= level_indent d.

(** A rectangle of the size of a card, right of [x0], below [y0] and
    ending above [bottom]. *)
Definition rect_within (d : Dims) (x0 y0 bottom : Z) (r : Rect) : Prop :=
  let '(cx, cy, w, h) := r in
  w = card_width d /\ h = card_height d /\ x0 <= cx /\ y0 <= cy
  /\ cy + h <= bottom.

(** The second rectangle starts at least the gap of [refresh_pipeline]
    (40) below the end of the first. *)
Definition stacked_below (r1 r2 : Rect) : Prop :=
  let '(_, y1, _, h1) := r1 in
  let '(_, y2, _, _) := r2 in
  y1 + h1 + 40 <= y2.

(** An anchor with three workflow siblings that are stored in another
    order than they were created. *)
Definition store_siblings_unordered : store :=
  [ entry "A" None None "2024-01-01T10:00:00" 1;
    entry "L" None (Some "A") "2024-01-01T10:03:00" 2;
    entry "E" None (Some "A") "2024-01-01T10:01:00" 3;
    entry "M" None (Some "A") "2024-01-01T10:02:00" 4 ].

(** A task [c] whose parent is [d] and that is the workflow sibling of a
    third task [w]. *)
Definition store_shared_child : store :=
  [ entry "d" None None "2024-01-01T10:00:00" 1;
    entry "w" None None "2024-01-01T10:01:00" 2;
    entry "c" (Some "d") (Some "w") "2024-01-01T10:02:00" 3 ].

(** * Properties *)

(** ** Strings and dictionaries *)

Lemma eqb_true_iff (a b : string) : String.eqb a b = true <-> a = b.
Proof. apply String.eqb_eq. Qed.

Lemma eqb_false_iff (a b : string) : String.eqb a b = false <-> a <> b.
Proof. apply String.eqb_neq. Qed.

Ltac str_cases a b :=
  let E := fresh "E" in
  destruct (String.eqb a b) eqn:E;
  [apply String.eqb_eq in E | apply String.eqb_neq in E].

Lemma existsb_eqb_In (k : string) (l : list string) :
  existsb (String.eqb k) l = true <-> In k l.
Proof.
  rewrite existsb_exists. split.
  - intros [x [Hx E]]. apply String.eqb_eq in E. now subst.
  - intros H. exists k. split; [assumption | apply String.eqb_refl].
Qed.

Lemma existsb_eqb_notIn (k : string) (l : list string) :
  existsb (String.eqb k) l = false <-> ~ In k l.
Proof.
  rewrite <- existsb_eqb_In. destruct (existsb (String.eqb k) l); intuition congruence.
Qed.

Lemma dict_mem_In {V : Type} (d : list (string * V)) (k : string) :
  dict_mem d k = true <-> In k (keys d).
Proof. apply existsb_eqb_In. Qed.

Lemma In_keys {V : Type} (d : list (string * V)) (k : string) :
  In k (keys d) <-> exists v, In (k, v) d.
Proof.
  unfold keys. rewrite in_map_iff. split.
  - intros [[k' v] [E H]]. simpl in E. subst. now exists v.
  - intros [v H]. now exists (k, v).
Qed.

Lemma dict_get_In {V : Type} (d : list (string * V)) (k : string) (v : V) :
  dict_get d k = Some v -> In (k, v) d.
Proof.
  induction d as [|[k' v'] d IH]; simpl; [discriminate|].
  str_cases k' k.
  - intros H. injection H as <-. left. now subst.
  - intros H. right. auto.
Qed.

Lemma In_dict_get {V : Type} (d : list (string * V)) (k : string) (v : V) :
  NoDup (keys d) -> In (k, v) d -> dict_get d k = Some v.
Proof.
  induction d as [|[k' v'] d IH]; simpl; [tauto|].
  intros ND [H|H].
  - injection H as -> ->. now rewrite String.eqb_refl.
  - inversion ND as [|? ? Hn ND']; subst.
    str_cases k' k.
    + subst. exfalso. apply Hn. apply In_keys. now exists v.
    + auto.
Qed.

Lemma dict_get_mem {V : Type} (d : list (string * V)) (k : string) :
  dict_mem d k = true <-> exists v, dict_get d k = Some v.
Proof.
  rewrite dict_mem_In. induction d as [|[k' v'] d IH]; simpl.
  - split; [tauto | intros [v H]; discriminate].
  - str_cases k' k.
    + split; [intros _; now exists v' | now left].
    + rewrite <- IH. intuition congruence.
Qed.

Lemma dict_get_None {V : Type} (d : list (string * V)) (k : string) :
  dict_mem d k = false <-> dict_get d k = None.
Proof.
  pose proof (dict_get_mem d k) as H.
  destruct (dict_mem d k).
  - destruct H as [H _]. destruct (H eq_refl) as [v ->]. split; discriminate.
  - destruct (dict_get d k) as [v|]; [|tauto].
    destruct H as [_ H].
    assert (false = true) by (apply H; now exists v). discriminate.
Qed.

(** ** The order on strings is a total preorder *)

Lemma ascii_compare_refl (a : ascii) : Ascii.compare a a = Eq.
Proof. unfold Ascii.compare. apply N.compare_refl. Qed.

Lemma string_compare_refl (s : string) : String.compare s s = Eq.
Proof.
  induction s as [|a s IH]; simpl; [reflexivity|].
  now rewrite ascii_compare_refl.
Qed.

Lemma string_compare_lt_trans (s1 s2 s3 : string) :
  String.compare s1 s2 = Lt -> String.compare s2 s3 = Lt ->
  String.compare s1 s3 = Lt.
Proof.
  revert s2 s3. induction s1 as [|a1 s1 IH]; intros [|a2 s2] [|a3 s3];
    simpl; try congruence.
  unfold Ascii.compare.
  destruct (N.compare_spec (N_of_ascii a1) (N_of_ascii a2)) as [E12|L12|G12];
    destruct (N.compare_spec (N_of_ascii a2) (N_of_ascii a3)) as [E23|L23|G23];
    try congruence; intros H1 H2.
  - rewrite E12, E23, N.compare_refl. eauto.
  - rewrite E12. now apply N.compare_lt_iff in L23 as ->.
  - rewrite <- E23. now apply N.compare_lt_iff in L12 as ->.
  - assert (L : (N_of_ascii a1 < N_of_ascii a3)%N) by lia.
    now apply N.compare_lt_iff in L as ->.
Qed.

Lemma string_leb_trans (s1 s2 s3 : string) :
  String.leb s1 s2 = true -> String.leb s2 s3 = true -> String.leb s1 s3 = true.
Proof.
  unfold String.leb.
  destruct (String.compare s1 s2) eqn:E12; try discriminate;
    destruct (String.compare s2 s3) eqn:E23; try discriminate; intros _ _.
  - apply String.compare_eq_iff in E12, E23. subst. now rewrite string_compare_refl.
  - apply String.compare_eq_iff in E12. subst. now rewrite E23.
  - apply String.compare_eq_iff in E23. subst. now rewrite E12.
  - now rewrite (string_compare_lt_trans _ _ _ E12 E23).
Qed.

(** ** The stable sort *)

Section SortByKeyFacts.
Context {A K : Type}.
Variable leb : K -> K -> bool.
Variable key : A -> K.
Hypothesis leb_total : forall a b, leb a b = true \/ leb b a = true.
Hypothesis leb_trans :
  forall a b c, leb a b = true -> leb b c = true -> leb a c = true.

Let le (x y : A) : Prop := leb (key x) (key y) = true.

Lemma insert_by_perm (x : A) (l : list A) :
  Permutation (x :: l) (insert_by leb key x l).
Proof.
  induction l as [|y l IH]; simpl; [reflexivity|].
  destruct (leb (key x) (key y)); [reflexivity|].
  rewrite perm_swap. now constructor.
Qed.

Lemma sort_by_perm (l : list A) : Permutation l (sort_by leb key l).
Proof.
  induction l as [|x l IH]; simpl; [reflexivity|].
  rewrite <- insert_by_perm. now constructor.
Qed.

Lemma sort_by_In (x : A) (l : list A) : In x (sort_by leb key l) <-> In x l.
Proof.
  split; apply Permutation_in; [symmetry|]; apply sort_by_perm.
Qed.

Lemma sort_by_NoDup (l : list A) : NoDup l -> NoDup (sort_by leb key l).
Proof. apply Permutation_NoDup, sort_by_perm. Qed.

Lemma sort_by_length (l : list A) : List.length (sort_by leb key l) = List.length l.
Proof. symmetry. apply Permutation_length, sort_by_perm. Qed.

Lemma insert_by_sorted (x : A) (l : list A) :
  StronglySorted le l -> StronglySorted le (insert_by leb key x l).
Proof.
  induction 1 as [|y l Hs IH Hall]; simpl.
  - repeat constructor.
  - destruct (leb (key x) (key y)) eqn:E.
    + constructor; [now constructor|].
      constructor; [exact E|].
      rewrite Forall_forall in *. intros z Hz.
      unfold le. eapply leb_trans; [exact E | now apply Hall].
    + constructor; [assumption|].
      rewrite Forall_forall in *. intros z Hz.
      apply (Permutation_in _ (Permutation_sym (insert_by_perm x l))) in Hz.
      destruct Hz as [<-|Hz]; [|now apply Hall].
      unfold le. destruct (leb_total (key x) (key y)); congruence.
Qed.

Lemma sort_by_sorted (l : list A) : StronglySorted le (sort_by leb key l).
Proof.
  induction l as [|x l IH]; simpl; [constructor | now apply insert_by_sorted].
Qed.

(** Stability: the elements that satisfy a predicate on keys which is
    closed downwards keep their order; in particular so do the elements
    of one key. *)
Lemma insert_by_filter_same (p : A -> bool) (x : A) (l : list A) :
  (forall y, In y l -> p x = true -> p y = true ->
             leb (key x) (key y) = true) ->
  filter p (insert_by leb key x l) = filter p (x :: l).
Proof.
  induction l as [|y l IH]; intros H; simpl; [reflexivity|].
  destruct (leb (key x) (key y)) eqn:E; simpl; [reflexivity|].
  rewrite IH by (intros; apply H; auto; now right). simpl.
  destruct (p x) eqn:Px, (p y) eqn:Py; try reflexivity.
  rewrite H in E; [discriminate | now left | reflexivity | exact Py].
Qed.
End SortByKeyFacts.

Lemma nodupb_NoDup (l : list string) : nodupb l = true -> NoDup l.
Proof.
  induction l as [|x l IH]; simpl; [constructor|].
  rewrite andb_true_iff, negb_true_iff, existsb_eqb_notIn.
  intros [H1 H2]. constructor; auto.
Qed.

Lemma NoDup_keys_filter {V : Type} (f : string * V -> bool)
      (d : list (string * V)) :
  NoDup (keys d) -> NoDup (keys (filter f d)).
Proof.
  induction d as [|e d IH]; simpl; [constructor|].
  intros ND. inversion ND as [|? ? Hn ND']; subst.
  destruct (f e); simpl; [|auto].
  constructor; [|auto].
  intros H. apply Hn. apply In_keys in H as [v H]. apply filter_In in H as [H _].
  apply In_keys. exists v. now destruct e.
Qed.

(** ** The accessors *)

Lemma Z_leb_total (a b : Z) : Z.leb a b = true \/ Z.leb b a = true.
Proof. rewrite !Z.leb_le. lia. Qed.

Lemma Z_leb_trans (a b c : Z) :
  Z.leb a b = true -> Z.leb b c = true -> Z.leb a c = true.
Proof. rewrite !Z.leb_le. lia. Qed.

Lemma get_subtasks_In (tasks : store) (parent c : string) :
  In c (get_subtasks tasks parent) <->
  exists t, In (c, t) tasks /\ is_subtask parent t = true.
Proof.
  unfold get_subtasks. rewrite sort_by_In, In_keys.
  split; intros [t H]; exists t; [apply filter_In in H | apply filter_In]; exact H.
Qed.

Lemma get_workflow_siblings_In (tasks : store) (task_id c : string) :
  In c (get_workflow_siblings tasks task_id) <->
  exists t, In (c, t) tasks /\ is_workflow_sibling task_id t = true.
Proof.
  unfold get_workflow_siblings. rewrite sort_by_In, In_keys.
  split; intros [t H]; exists t; [apply filter_In in H | apply filter_In]; exact H.
Qed.

Lemma get_eqb_true (x : option string) (y : string) :
  get_eqb x y = true <-> x = Some y.
Proof.
  destruct x as [s|]; simpl; [|split; discriminate].
  rewrite String.eqb_eq. split; congruence.
Qed.

Lemma StronglySorted_weaken_In {A : Type} (R R' : A -> A -> Prop) (l : list A) :
  (forall a b, In a l -> In b l -> R a b -> R' a b) ->
  StronglySorted R l -> StronglySorted R' l.
Proof.
  intros H HS. induction HS as [|a l HS IH Hall]; constructor.
  - apply IH. intros x y Hx Hy. apply H; now right.
  - rewrite Forall_forall in *. intros b Hb.
    apply H; [now left | now right | now apply Hall].
Qed.

(** C5: [get_workflow_siblings] returns exactly the tasks whose
    [workflow_sibling_of] is the given id, each once, in ascending order of
    their [created] fields; a task whose [workflow_sibling_of] names one of
    the returned tasks instead of the given id is not returned. *)
Theorem get_workflow_siblings_direct_sorted :
  forall (tasks : store) (task_id : string),
    NoDup (keys tasks) ->
    let result := get_workflow_siblings tasks task_id in
    (forall tid, In tid result <->
                 exists t, dict_get tasks tid = Some t
                           /\ workflow_sibling_of t = Some task_id)
    /\ NoDup result
    /\ StronglySorted
         (fun a b => exists ta tb,
                       dict_get tasks a = Some ta /\ dict_get tasks b = Some tb
                       /\ String.leb (created ta) (created tb) = true)
         result
    /\ (forall tid t anchor,
           dict_get tasks tid = Some t ->
           workflow_sibling_of t = Some anchor ->
           In anchor result -> anchor <> task_id ->
           ~ In tid result).
Proof.
  intros tasks task_id ND result.
  assert (Hin : forall tid, In tid result <->
                 exists t, dict_get tasks tid = Some t
                           /\ workflow_sibling_of t = Some task_id).
  { intros tid. unfold result. rewrite get_workflow_siblings_In.
    unfold is_workflow_sibling.
    split; intros [t [H1 H2]]; exists t; rewrite get_eqb_true in *; split; auto.
    - now apply In_dict_get.
    - now apply dict_get_In. }
  split; [exact Hin|]. split; [|split].
  - apply sort_by_NoDup. now apply NoDup_keys_filter.
  - apply StronglySorted_weaken_In
      with (R := fun a b => String.leb (key_created tasks a)
                                       (key_created tasks b) = true).
    + intros a b Ha Hb Hab.
      apply Hin in Ha as [ta [Hta _]]. apply Hin in Hb as [tb [Htb _]].
      exists ta, tb. unfold key_created in Hab. rewrite Hta, Htb in Hab. auto.
    + apply sort_by_sorted.
      * apply String.leb_total.
      * apply string_leb_trans.
  - intros tid t anchor Ht Hw _ Hne Hr.
    apply Hin in Hr as [t' [Ht' Hw']]. congruence.
Qed.

Lemma get_workflow_siblings_direct_sorted_witness :
  NoDup (keys store_siblings_unordered)
  /\ get_workflow_siblings store_siblings_unordered "A" = ["E"; "M"; "L"]
  /\ StronglySorted
       (fun a b => exists ta tb,
                     dict_get store_siblings_unordered a = Some ta
                     /\ dict_get store_siblings_unordered b = Some tb
                     /\ String.leb (created ta) (created tb) = true)
       (get_workflow_siblings store_siblings_unordered "A").
Proof.
  assert (ND : NoDup (keys store_siblings_unordered))
    by (apply nodupb_NoDup; reflexivity).
  split; [exact ND|]. split; [reflexivity|].
  exact (proj1 (proj2 (proj2 (get_workflow_siblings_direct_sorted
                                store_siblings_unordered "A" ND)))).
Defined.

(** ** The graph of the two relations *)

Lemma children_In (tasks : store) (k c : string) :
  In c (children tasks k) <->
  exists t, In (c, t) tasks
            /\ (is_subtask k t = true \/ is_workflow_sibling k t = true).
Proof.
  unfold children. rewrite in_app_iff, get_subtasks_In, get_workflow_siblings_In.
  split.
  - intros [[t [H1 H2]]|[t [H1 H2]]]; exists t; auto.
  - intros [t [H1 [H2|H2]]]; [left|right]; exists t; auto.
Qed.

Lemma children_in_store (tasks : store) (k c : string) :
  In c (children tasks k) -> In c (keys tasks).
Proof.
  rewrite children_In. intros [t [H _]]. apply In_keys. now exists t.
Qed.

Lemma filter_all {A : Type} (f : A -> bool) (l : list A) :
  (forall x, In x l -> f x = true) -> filter f l = l.
Proof.
  induction l as [|x l IH]; simpl; intros H; [reflexivity|].
  rewrite (H x) by now left. f_equal. apply IH. intros; apply H; now right.
Qed.

Lemma remove_keys_In (D : list string) (tasks : store) (c : string) (t : Task) :
  In (c, t) (remove_keys D tasks) <-> In (c, t) tasks /\ ~ In c D.
Proof.
  unfold remove_keys. rewrite filter_In. simpl.
  rewrite negb_true_iff, existsb_eqb_notIn. tauto.
Qed.

Lemma remove_keys_nil (tasks : store) : remove_keys [] tasks = tasks.
Proof. unfold remove_keys. now apply filter_all. Qed.

Lemma remove_keys_app (D1 D2 : list string) (tasks : store) :
  remove_keys D2 (remove_keys D1 tasks) = remove_keys (D1 ++ D2) tasks.
Proof.
  unfold remove_keys. induction tasks as [|e l IH]; simpl; [reflexivity|].
  rewrite existsb_app.
  destruct (existsb (String.eqb (fst e)) D1); simpl; [exact IH|].
  destruct (existsb (String.eqb (fst e)) D2); simpl; now rewrite IH.
Qed.

Lemma delete_self (tasks : store) (k : string) :
  (if dict_mem tasks k then dict_del tasks k else tasks) = remove_keys [k] tasks.
Proof.
  assert (E : dict_del tasks k = remove_keys [k] tasks).
  { unfold dict_del, remove_keys. apply filter_ext. intros e. simpl.
    now rewrite orb_false_r. }
  destruct (dict_mem tasks k) eqn:M; [exact E|].
  unfold remove_keys. symmetry. apply filter_all. intros [k' t] H. simpl.
  rewrite orb_false_r, negb_true_iff, String.eqb_neq. intros ->.
  assert (dict_mem tasks k = true); [|congruence].
  apply dict_mem_In, In_keys. now exists t.
Qed.

Lemma children_remove_keys (D : list string) (tasks : store) (k c : string) :
  In c (children (remove_keys D tasks) k) <->
  In c (children tasks k) /\ ~ In c D.
Proof.
  rewrite !children_In. split.
  - intros [t [H1 H2]]. apply remove_keys_In in H1 as [H1 H3].
    split; [exists t|]; auto.
  - intros [[t [H1 H2]] H3]. exists t. split; [|exact H2].
    apply remove_keys_In; auto.
Qed.

Lemma reachable_trans (tasks : store) (a b c : string) :
  reachable tasks a b -> reachable tasks b c -> reachable tasks a c.
Proof.
  intros Hab Hbc. induction Hbc; [assumption | eapply reach_step; eauto].
Qed.

Lemma reachable_child (tasks : store) (r c : string) :
  In c (children tasks r) -> reachable tasks r c.
Proof. intros H. eapply reach_step; [apply reach_root | exact H]. Qed.

Lemma reachable_first (tasks : store) (r k : string) :
  reachable tasks r k ->
  k = r \/ exists c, In c (children tasks r) /\ reachable tasks c k.
Proof.
  induction 1 as [|k c Hk IH Hc]; [now left|]. right.
  destruct IH as [->|[c0 [H1 H2]]].
  - exists c. split; [exact Hc | apply reach_root].
  - exists c0. split; [exact H1 | eapply reach_step; eauto].
Qed.

Lemma reachable_in_store (tasks : store) (r k : string) :
  reachable tasks r k -> k = r \/ In k (keys tasks).
Proof.
  induction 1 as [|k c Hk IH Hc]; [now left|].
  right. eapply children_in_store; eauto.
Qed.

Lemma reachable_remove_keys (D : list string) (tasks : store) (r k : string) :
  reachable (remove_keys D tasks) r k -> reachable tasks r k.
Proof.
  induction 1 as [|k c Hk IH Hc]; [apply reach_root|].
  apply children_remove_keys in Hc as [Hc _]. eapply reach_step; eauto.
Qed.

Lemma closed_reachable (D : list string) (tasks : store) (a b : string) :
  closed D tasks -> In a D -> reachable tasks a b -> In b D.
Proof.
  intros HC Ha H. induction H as [|k c Hk IH Hc]; [assumption|].
  eapply HC; eauto.
Qed.

(** What is reached in the whole store is either already removed or still
    reached in what is left. *)
Lemma reachable_split (D : list string) (tasks : store) (r k : string) :
  closed D tasks -> reachable tasks r k ->
  In k D \/ reachable (remove_keys D tasks) r k.
Proof.
  intros HC H. induction H as [|k c Hk IH Hc]; [right; apply reach_root|].
  destruct IH as [IH|IH]; [left; eapply HC; eauto|].
  destruct (in_dec string_dec c D) as [Hd|Hd]; [now left|].
  right. eapply reach_step; [exact IH|].
  apply children_remove_keys. auto.
Qed.

(** ** Recursive delete *)

Section DeleteLoop.
Variable fuel : nat.
Hypothesis IHfuel :
  forall s k s', _delete_recursive fuel s k = Some s' ->
                 exists D, s' = remove_keys D s
                           /\ forall x, In x D <-> reachable s k x.
Variable tasks : store.

Lemma delete_loop (l : list string) :
  forall A s_end,
    closed A tasks ->
    for_each (_delete_recursive fuel) l (remove_keys A tasks) = Some s_end ->
    exists B,
      s_end = remove_keys (A ++ B) tasks
      /\ closed (A ++ B) tasks
      /\ (forall x, In x B -> exists c, In c l /\ reachable tasks c x)
      /\ (forall c x, In c l -> reachable tasks c x -> In x (A ++ B)).
Proof.
  induction l as [|c l IHl]; intros A s_end HC H; simpl in H.
  - injection H as <-. exists []. rewrite app_nil_r.
    repeat split; auto; simpl; tauto.
  - destruct (_delete_recursive fuel (remove_keys A tasks) c) as [s1|] eqn:E;
      [|discriminate].
    apply IHfuel in E as [D1 [-> HD1]].
    rewrite remove_keys_app in H.
    assert (HC1 : closed (A ++ D1) tasks).
    { intros a b Ha Hb. apply in_app_iff. apply in_app_iff in Ha as [Ha|Ha].
      - left. eapply HC; eauto.
      - apply HD1 in Ha. apply reachable_remove_keys in Ha.
        assert (Hr : reachable tasks c b) by (eapply reach_step; eauto).
        destruct (reachable_split A tasks c b HC Hr) as [Hl|Hl]; [now left|].
        right. now apply HD1. }
    destruct (IHl (A ++ D1) s_end HC1 H) as [B [-> [HCB [HB1 HB2]]]].
    exists (D1 ++ B). rewrite app_assoc. repeat split; auto.
    + intros x Hx. apply in_app_iff in Hx as [Hx|Hx].
      * exists c. split; [now left|].
        apply HD1 in Hx. now apply reachable_remove_keys in Hx.
      * destruct (HB1 x Hx) as [c0 [Hc0 Hr]]. exists c0. split; [now right|auto].
    + intros c0 x [<-|Hc0] Hr; [|eapply HB2; eauto].
      apply in_app_iff. left. apply in_app_iff.
      destruct (reachable_split A tasks c x HC Hr) as [Hl|Hl]; [now left|].
      right. now apply HD1.
Qed.
End DeleteLoop.

Lemma closed_nil (tasks : store) : closed [] tasks.
Proof. intros a b []. Qed.

(** Whenever recursive delete returns, it has removed the tasks reached
    from its argument and nothing else. *)
Lemma delete_recursive_spec :
  forall fuel s k s',
    _delete_recursive fuel s k = Some s' ->
    exists D, s' = remove_keys D s /\ forall x, In x D <-> reachable s k x.
Proof.
  induction fuel as [|fuel IH]; intros s k s' H; simpl in H; [discriminate|].
  destruct (for_each (_delete_recursive fuel) (get_subtasks s k) s)
    as [s1|] eqn:E1; [|discriminate].
  destruct (for_each (_delete_recursive fuel) (get_workflow_siblings s1 k) s1)
    as [s2|] eqn:E2; [|discriminate].
  injection H as <-. rewrite delete_self.
  assert (E1' : for_each (_delete_recursive fuel) (get_subtasks s k)
                         (remove_keys [] s) = Some s1)
    by (now rewrite remove_keys_nil).
  destruct (delete_loop fuel IH s _ [] s1 (closed_nil s) E1')
    as [B1 [-> [HC1 [HB1 HB1']]]].
  simpl in *.
  destruct (delete_loop fuel IH s _ B1 s2 HC1 E2) as [B2 [-> [HC2 [HB2 HB2']]]].
  rewrite remove_keys_app. exists ((B1 ++ B2) ++ [k]). split; [reflexivity|].
  intros x. rewrite !in_app_iff. split.
  - intros [[Hx|Hx]|Hx].
    + destruct (HB1 x Hx) as [c [Hc Hr]].
      eapply reachable_trans; [|exact Hr].
      apply reachable_child. unfold children. apply in_app_iff. now left.
    + destruct (HB2 x Hx) as [c [Hc Hr]].
      eapply reachable_trans; [|exact Hr].
      apply reachable_child.
      assert (Hc' : In c (children (remove_keys B1 s) k))
        by (unfold children; apply in_app_iff; now right).
      now apply children_remove_keys in Hc' as [Hc' _].
    + destruct Hx as [<-|[]]. apply reach_root.
  - intros Hr. apply reachable_first in Hr as [->|[c [Hc Hr]]].
    + right. now left.
    + left. unfold children in Hc. apply in_app_iff in Hc as [Hc|Hc].
      * left. exact (HB1' c x Hc Hr).
      * destruct (in_dec string_dec c B1) as [Hd|Hd].
        { left. eapply closed_reachable; eauto. }
        apply in_app_iff. apply (HB2' c x); [|exact Hr].
        assert (Hc' : In c (children (remove_keys B1 s) k)).
        { apply children_remove_keys. split; [|exact Hd].
          unfold children. apply in_app_iff. now right. }
        unfold children in Hc'. apply in_app_iff in Hc' as [Hc'|Hc']; [|exact Hc'].
        (* a subtask of [k] that is left would have been visited *)
        exfalso. apply Hd.
        assert (Hs : In c (get_subtasks s k)).
        { apply get_subtasks_In in Hc' as [t [Ht Hs]].
          apply remove_keys_In in Ht as [Ht _].
          apply get_subtasks_In. now exists t. }
        exact (HB1' c c Hs (reach_root s c)).
Qed.

(** ** Stores without cycles *)

Lemma ranked_children (rk : string -> nat) (tasks : store) (k c : string) :
  ranked rk tasks = true -> In c (children tasks k) -> (rk c < rk k)%nat.
Proof.
  unfold ranked. rewrite forallb_forall, children_In.
  intros HR [t [Ht Hc]]. specialize (HR _ Ht).
  unfold edge_ranked in HR. simpl in HR.
  apply andb_true_iff in HR as [H1 H2].
  destruct Hc as [Hc|Hc].
  - unfold is_subtask in Hc. apply andb_true_iff in Hc as [Hp Hw].
    apply get_eqb_true in Hp. rewrite Hp in H1.
    apply negb_true_iff in Hw. rewrite Hw in H1. simpl in H1.
    now apply Nat.ltb_lt.
  - unfold is_workflow_sibling in Hc. apply get_eqb_true in Hc.
    rewrite Hc in H2. now apply Nat.ltb_lt.
Qed.

Lemma ranked_remove_keys (rk : string -> nat) (D : list string) (tasks : store) :
  ranked rk tasks = true -> ranked rk (remove_keys D tasks) = true.
Proof.
  unfold ranked, remove_keys. rewrite !forallb_forall.
  intros H e He. apply filter_In in He as [He _]. auto.
Qed.

Lemma delete_recursive_terminates (rk : string -> nat) :
  forall fuel s k,
    ranked rk s = true -> (rk k < fuel)%nat ->
    exists s', _delete_recursive fuel s k = Some s'.
Proof.
  induction fuel as [|fuel IH]; intros s k HR Hk; [lia|].
  assert (loop : forall l s0,
             ranked rk s0 = true ->
             (forall c, In c l -> (rk c < fuel)%nat) ->
             exists s1, for_each (_delete_recursive fuel) l s0 = Some s1
                        /\ ranked rk s1 = true).
  { induction l as [|c l IHl]; intros s0 HR0 Hl; simpl.
    - now exists s0.
    - destruct (IH s0 c HR0) as [s1 E]; [apply Hl; now left|].
      rewrite E. apply delete_recursive_spec in E as [D [-> _]].
      apply IHl; [now apply ranked_remove_keys | intros; apply Hl; now right]. }
  simpl.
  destruct (loop (get_subtasks s k) s HR) as [s1 [E1 HR1]].
  { intros c Hc.
    assert (rk c < rk k)%nat; [|lia].
    eapply ranked_children; eauto. unfold children. apply in_app_iff. now left. }
  rewrite E1.
  destruct (loop (get_workflow_siblings s1 k) s1 HR1) as [s2 [E2 HR2]].
  { intros c Hc.
    assert (rk c < rk k)%nat; [|lia].
    eapply ranked_children; eauto. unfold children. apply in_app_iff. now right. }
  rewrite E2. eauto.
Qed.

(** C1 (amended): on a store whose two relations have no cycle, recursive
    delete of a task that is present returns (as soon as the recursion may
    go deeper than the rank of the task), and it removes exactly the
    tasks reached from the root through [get_subtasks] and
    [get_workflow_siblings]: none of them is left, every other entry is
    kept as it was and in its place, and the number of tasks drops by the
    number of reached tasks. *)
Theorem delete_recursive_removes_reachable :
  forall (rk : string -> nat) (tasks : store) (root : string) (fuel : nat),
    NoDup (keys tasks) ->
    ranked rk tasks = true ->
    dict_mem tasks root = true ->
    (rk root < fuel)%nat ->
    exists tasks' R,
      _delete_recursive fuel tasks root = Some tasks'
      /\ NoDup R
      /\ (forall k, In k R <-> reachable tasks root k)
      /\ (forall k t, In (k, t) tasks' <->
                      In (k, t) tasks /\ ~ reachable tasks root k)
      /\ tasks' = remove_keys R tasks
      /\ List.length tasks' = (List.length tasks - List.length R)%nat
      /\ (List.length R <= List.length tasks)%nat.
Proof.
  intros rk tasks root fuel ND HR Hroot Hfuel.
  destruct (delete_recursive_terminates rk fuel tasks root HR Hfuel)
    as [tasks' E].
  destruct (delete_recursive_spec _ _ _ _ E) as [D [-> HD]].
  set (inD := fun e : string * Task => existsb (String.eqb (fst e)) D).
  exists (remove_keys D tasks), (keys (filter inD tasks)).
  assert (HinR : forall k, In k (keys (filter inD tasks)) <-> reachable tasks root k).
  { intros k. rewrite In_keys. split.
    - intros [t Ht]. apply filter_In in Ht as [_ Ht]. unfold inD in Ht. simpl in Ht.
      apply existsb_eqb_In in Ht. now apply HD.
    - intros Hr.
      assert (Hk : In k (keys tasks)).
      { destruct (reachable_in_store _ _ _ Hr) as [->|H]; [|exact H].
        now apply dict_mem_In. }
      apply In_keys in Hk as [t Ht]. exists t. apply filter_In. split; [exact Ht|].
      unfold inD. simpl. apply existsb_eqb_In. now apply HD. }
  assert (Heq : remove_keys D tasks = remove_keys (keys (filter inD tasks)) tasks).
  { unfold remove_keys. apply filter_ext_in. intros [k t] Hk. simpl. f_equal.
    destruct (existsb (String.eqb k) D) eqn:E1.
    - symmetry. apply existsb_eqb_In, HinR, HD. now apply existsb_eqb_In.
    - symmetry. apply existsb_eqb_notIn. intros H. apply HinR, HD in H.
      apply existsb_eqb_In in H. congruence. }
  assert (Hlen : (List.length (remove_keys D tasks)
                  + List.length (keys (filter inD tasks)) = List.length tasks)%nat).
  { unfold keys. rewrite length_map. unfold remove_keys.
    rewrite Nat.add_comm. apply (filter_length inD). }
  split; [exact E|]. split; [now apply NoDup_keys_filter|].
  split; [exact HinR|]. split; [|split; [exact Heq | lia]].
  intros k t. rewrite remove_keys_In. rewrite (HD k). tauto.
Qed.

Lemma delete_recursive_removes_reachable_witness :
  NoDup (keys store_abc)
  /\ ranked rank_abc store_abc = true
  /\ dict_mem store_abc "B" = true
  /\ (rank_abc "B" < 2)%nat
  /\ exists tasks' R,
      _delete_recursive 2 store_abc "B" = Some tasks'
      /\ NoDup R
      /\ (forall k, In k R <-> reachable store_abc "B" k)
      /\ (forall k t, In (k, t) tasks' <->
                      In (k, t) store_abc /\ ~ reachable store_abc "B" k)
      /\ tasks' = remove_keys R store_abc
      /\ List.length tasks' = (List.length store_abc - List.length R)%nat
      /\ (List.length R <= List.length store_abc)%nat.
Proof.
  assert (ND : NoDup (keys store_abc)) by (apply nodupb_NoDup; reflexivity).
  split; [exact ND|]. split; [reflexivity|]. split; [reflexivity|].
  split; [vm_compute; apply le_n|].
  exact (delete_recursive_removes_reachable rank_abc store_abc "B" 2
           ND eq_refl eq_refl (le_n 2)).
Defined.

(** C1 as stated fails on a store with a cycle: the task that is its own
    parent is present, and recursive delete of it never returns, whatever
    the recursion depth allowed. *)
Lemma delete_recursive_self_parent_never_returns :
  dict_mem store_self_parent "a" = true
  /\ forall fuel, _delete_recursive fuel store_self_parent "a" = None.
Proof.
  split; [reflexivity|].
  induction fuel as [|fuel IH]; [reflexivity|].
  cbn [_delete_recursive].
  change (get_subtasks store_self_parent "a") with ["a"].
  cbn [for_each]. now rewrite IH.
Qed.

(** ** Changes of tasks in place *)

Lemma update_keys_keys (D : list string) (f : Task -> Task) (tasks : store) :
  keys (update_keys D f tasks) = keys tasks.
Proof.
  unfold keys, update_keys. rewrite map_map. apply map_ext.
  intros e. now destruct (existsb (String.eqb (fst e)) D).
Qed.

Lemma update_keys_nil (f : Task -> Task) (tasks : store) :
  update_keys [] f tasks = tasks.
Proof. unfold update_keys. simpl. apply map_id. Qed.

Lemma dict_update_update_keys (tasks : store) (k : string) (f : Task -> Task) :
  dict_update tasks k f = update_keys [k] f tasks.
Proof.
  unfold dict_update, update_keys. apply map_ext. intros e. simpl.
  now rewrite orb_false_r.
Qed.

Lemma dict_update_twice (tasks : store) (k : string) (f g : Task -> Task) :
  dict_update (dict_update tasks k f) k g = dict_update tasks k (fun t => g (f t)).
Proof.
  unfold dict_update. rewrite map_map. apply map_ext. intros e.
  destruct (String.eqb (fst e) k) eqn:E; simpl; now rewrite E.
Qed.

Lemma update_keys_app (D1 D2 : list string) (f : Task -> Task) (tasks : store) :
  (forall t, f (f t) = f t) ->
  update_keys D2 f (update_keys D1 f tasks) = update_keys (D1 ++ D2) f tasks.
Proof.
  intros Hf. unfold update_keys. rewrite map_map. apply map_ext. intros e.
  rewrite existsb_app.
  destruct (existsb (String.eqb (fst e)) D1) eqn:E1; simpl.
  - destruct (existsb (String.eqb (fst e)) D2); [now rewrite Hf | reflexivity].
  - reflexivity.
Qed.

Lemma update_keys_In (D : list string) (f : Task -> Task) (tasks : store)
      (k : string) (t' : Task) :
  In (k, t') (update_keys D f tasks) <->
  exists t, In (k, t) tasks /\ t' = (if existsb (String.eqb k) D then f t else t).
Proof.
  unfold update_keys. rewrite in_map_iff. split.
  - intros [[k0 t] [E H]]. simpl in E.
    destruct (existsb (String.eqb k0) D) eqn:ED; injection E as <- <-;
      exists t; rewrite ED; auto.
  - intros [t [H ->]]. exists (k, t). simpl. split; [|exact H].
    now destruct (existsb (String.eqb k) D).
Qed.

Lemma stash_effect_idem (b : bool) (t : Task) :
  stash_effect b (stash_effect b t) = stash_effect b t.
Proof. now destruct b. Qed.

Lemma stash_effect_preserves (b : bool) : preserves_graph (stash_effect b).
Proof. intros t. now destruct b. Qed.

Lemma sort_by_ext {A K : Type} (leb : K -> K -> bool) (key1 key2 : A -> K)
      (l : list A) :
  (forall x, key1 x = key2 x) -> sort_by leb key1 l = sort_by leb key2 l.
Proof.
  intros H. induction l as [|x l IH]; simpl; [reflexivity|].
  rewrite IH. generalize (sort_by leb key2 l). intros m.
  induction m as [|y m IHm]; simpl; [reflexivity|].
  now rewrite !H, IHm.
Qed.

Section PreservedAccessors.
Variable f : Task -> Task.
Hypothesis Hf : preserves_graph f.
Variable D : list string.

Lemma update_keys_get (tasks : store) (k : string) :
  dict_get (update_keys D f tasks) k =
  option_map (fun t => if existsb (String.eqb k) D then f t else t)
             (dict_get tasks k).
Proof.
  induction tasks as [|[k0 t0] tasks IH]; simpl; [reflexivity|].
  destruct (existsb (String.eqb k0) D) eqn:E0; simpl;
    (str_cases k0 k; [subst; simpl; now rewrite E0 | exact IH]).
Qed.

Lemma update_keys_filter_keys (p : Task -> bool) (tasks : store) :
  (forall t, p (f t) = p t) ->
  keys (filter (fun e => p (snd e)) (update_keys D f tasks)) =
  keys (filter (fun e => p (snd e)) tasks).
Proof.
  intros Hp. induction tasks as [|[k0 t0] tasks IH]; simpl; [reflexivity|].
  destruct (existsb (String.eqb k0) D); simpl; rewrite ?Hp;
    destruct (p t0); simpl; now rewrite IH.
Qed.

Lemma update_keys_get_subtasks (tasks : store) (k : string) :
  get_subtasks (update_keys D f tasks) k = get_subtasks tasks k.
Proof.
  unfold get_subtasks.
  rewrite (update_keys_filter_keys (is_subtask k)).
  - apply sort_by_ext. intros x. unfold key_priority.
    rewrite update_keys_get. destruct (dict_get tasks x) as [t|]; simpl; auto.
    destruct (existsb (String.eqb x) D); auto.
    unfold priority_or_999. now destruct (Hf t) as [_ [_ [_ ->]]].
  - intros t. unfold is_subtask. now destruct (Hf t) as [-> [-> _]].
Qed.

Lemma update_keys_get_workflow_siblings (tasks : store) (k : string) :
  get_workflow_siblings (update_keys D f tasks) k = get_workflow_siblings tasks k.
Proof.
  unfold get_workflow_siblings.
  rewrite (update_keys_filter_keys (is_workflow_sibling k)).
  - apply sort_by_ext. intros x. unfold key_created.
    rewrite update_keys_get. destruct (dict_get tasks x) as [t|]; simpl; auto.
    destruct (existsb (String.eqb x) D); auto.
    now destruct (Hf t) as [_ [_ [-> _]]].
  - intros t. unfold is_workflow_sibling. now destruct (Hf t) as [_ [-> _]].
Qed.

Lemma update_keys_children (tasks : store) (k : string) :
  children (update_keys D f tasks) k = children tasks k.
Proof.
  unfold children.
  now rewrite update_keys_get_subtasks, update_keys_get_workflow_siblings.
Qed.

Lemma update_keys_reachable (tasks : store) (r k : string) :
  reachable (update_keys D f tasks) r k <-> reachable tasks r k.
Proof.
  split; induction 1 as [|x c Hx IH Hc]; try apply reach_root;
    eapply reach_step; eauto.
  - now rewrite update_keys_children in Hc.
  - now rewrite update_keys_children.
Qed.

Lemma update_keys_ranked (rk : string -> nat) (tasks : store) :
  ranked rk (update_keys D f tasks) = ranked rk tasks.
Proof.
  unfold ranked, update_keys.
  induction tasks as [|e tasks IH]; simpl; [reflexivity|].
  rewrite IH. f_equal.
  destruct (existsb (String.eqb (fst e)) D); [|reflexivity].
  unfold edge_ranked. simpl. now destruct (Hf (snd e)) as [-> [-> _]].
Qed.

Lemma update_keys_mem (tasks : store) (k : string) :
  dict_mem (update_keys D f tasks) k = dict_mem tasks k.
Proof. unfold dict_mem. now rewrite update_keys_keys. Qed.
End PreservedAccessors.

(** ** Recursive stash *)

Lemma stash_first_step (tasks : store) (k : string) (b : bool) :
  (if b
   then dict_update (dict_update tasks k (set_stashed b)) k (set_completed false)
   else dict_update tasks k (set_stashed b))
  = update_keys [k] (stash_effect b) tasks.
Proof.
  destruct b.
  - now rewrite dict_update_twice, dict_update_update_keys.
  - now rewrite dict_update_update_keys.
Qed.

Section StashLoop.
Variable fuel : nat.
Variable b : bool.
Hypothesis IHfuel :
  forall s k s',
    dict_mem s k = true ->
    _set_stash_recursive fuel s k b = Some s' ->
    exists D, s' = update_keys D (stash_effect b) s
              /\ forall x, In x D <-> reachable s k x.
Variable tasks : store.

Lemma stash_loop (l : list string) :
  forall A s_end,
    (forall c, In c l -> dict_mem tasks c = true) ->
    for_each (fun s c => _set_stash_recursive fuel s c b) l
             (update_keys A (stash_effect b) tasks) = Some s_end ->
    exists B,
      s_end = update_keys (A ++ B) (stash_effect b) tasks
      /\ forall x, In x B <-> exists c, In c l /\ reachable tasks c x.
Proof.
  induction l as [|c l IHl]; intros A s_end Hl H; simpl in H.
  - injection H as <-. exists []. rewrite app_nil_r. split; [reflexivity|].
    intros x. split; [intros [] | intros [c [[] _]]].
  - destruct (_set_stash_recursive fuel
                (update_keys A (stash_effect b) tasks) c b) as [s1|] eqn:E;
      [|discriminate].
    apply IHfuel in E as [D1 [-> HD1]].
    2:{ rewrite update_keys_mem. apply Hl. now left. }
    rewrite update_keys_app in H by apply stash_effect_idem.
    destruct (IHl (A ++ D1) s_end) as [B [-> HB]]; [intros; apply Hl; now right | exact H |].
    exists (D1 ++ B). rewrite app_assoc. split; [reflexivity|].
    intros x. rewrite in_app_iff, HB, HD1.
    rewrite (update_keys_reachable _ (stash_effect_preserves b)).
    split.
    + intros [Hx|[c0 [Hc0 Hx]]]; [exists c | exists c0]; simpl; auto.
    + intros [c0 [[<-|Hc0] Hx]]; [now left | right; now exists c0].
Qed.
End StashLoop.

(** Whenever the stash cascade returns, it has changed the tasks reached
    from its argument, each in the same way, and nothing else. *)
Lemma set_stash_recursive_spec (b : bool) :
  forall fuel s k s',
    dict_mem s k = true ->
    _set_stash_recursive fuel s k b = Some s' ->
    exists D, s' = update_keys D (stash_effect b) s
              /\ forall x, In x D <-> reachable s k x.
Proof.
  induction fuel as [|fuel IH]; intros s k s' Hk H; simpl in H; [discriminate|].
  rewrite Hk in H. simpl in H. rewrite stash_first_step in H.
  rewrite (update_keys_get_subtasks _ (stash_effect_preserves b)) in H.
  destruct (for_each (fun s0 c => _set_stash_recursive fuel s0 c b)
                     (get_subtasks s k) (update_keys [k] (stash_effect b) s))
    as [s3|] eqn:E1; [|discriminate].
  destruct (stash_loop fuel b IH s (get_subtasks s k) [k] s3)
    as [B1 [-> HB1]]; [|exact E1|].
  { intros c Hc. apply dict_mem_In. apply (children_in_store s k).
    unfold children. apply in_app_iff. now left. }
  rewrite (update_keys_get_workflow_siblings _ (stash_effect_preserves b)) in H.
  destruct (stash_loop fuel b IH s (get_workflow_siblings s k) ([k] ++ B1) s')
    as [B2 [-> HB2]]; [|exact H|].
  { intros c Hc. apply dict_mem_In. apply (children_in_store s k).
    unfold children. apply in_app_iff. now right. }
  exists (([k] ++ B1) ++ B2). split; [reflexivity|].
  intros x. rewrite !in_app_iff, HB1, HB2. simpl. split.
  - intros [[[<-|[]]|[c [Hc Hx]]]|[c [Hc Hx]]]; [apply reach_root| |];
      (eapply reachable_trans; [apply reachable_child | exact Hx]);
      unfold children; apply in_app_iff; auto.
  - intros Hx. apply reachable_first in Hx as [->|[c [Hc Hx]]]; [now left; left; left|].
    unfold children in Hc. apply in_app_iff in Hc as [Hc|Hc].
    + left. right. now exists c.
    + right. now exists c.
Qed.

Lemma set_stash_recursive_terminates (rk : string -> nat) (b : bool) :
  forall fuel s k,
    ranked rk s = true -> (rk k < fuel)%nat ->
    exists s', _set_stash_recursive fuel s k b = Some s'.
Proof.
  induction fuel as [|fuel IH]; intros s k HR Hk; [lia|].
  assert (loop : forall l s0,
             ranked rk s0 = true ->
             (forall c, In c l -> (rk c < fuel)%nat) ->
             exists s1, for_each (fun s c => _set_stash_recursive fuel s c b) l s0
                        = Some s1
                        /\ ranked rk s1 = true
                        /\ forall p, children s1 p = children s0 p).
  { induction l as [|c l IHl]; intros s0 HR0 Hl; simpl.
    - now exists s0.
    - destruct (IH s0 c HR0) as [s1 E]; [apply Hl; now left|].
      rewrite E.
      assert (H1 : ranked rk s1 = true /\ forall p, children s1 p = children s0 p).
      { destruct (dict_mem s0 c) eqn:M.
        - apply set_stash_recursive_spec in E as [D [-> _]]; [|exact M].
          split; [now rewrite (update_keys_ranked _ (stash_effect_preserves b))|].
          intros p. apply (update_keys_children _ (stash_effect_preserves b)).
        - destruct fuel; simpl in E; [discriminate|].
          rewrite M in E. simpl in E. injection E as <-. auto. }
      destruct H1 as [HR1 HC1].
      destruct (IHl s1 HR1) as [s2 [E2 [HR2 HC2]]]; [intros; apply Hl; now right|].
      exists s2. repeat split; auto. intros p. now rewrite HC2. }
  simpl. destruct (dict_mem s k) eqn:M; simpl; [|eauto].
  rewrite stash_first_step.
  set (s2 := update_keys [k] (stash_effect b) s).
  assert (HR2 : ranked rk s2 = true)
    by (unfold s2; now rewrite (update_keys_ranked _ (stash_effect_preserves b))).
  destruct (loop (get_subtasks s2 k) s2 HR2) as [s3 [E1 [HR3 HC3]]].
  { intros c Hc.
    assert (rk c < rk k)%nat; [|lia].
    eapply ranked_children; eauto. unfold children. apply in_app_iff. now left. }
  rewrite E1.
  destruct (loop (get_workflow_siblings s3 k) s3 HR3) as [s4 [E2 _]].
  { intros c Hc.
    assert (rk c < rk k)%nat; [|lia].
    eapply ranked_children; eauto. unfold children. apply in_app_iff. now right. }
  rewrite E2. eauto.
Qed.

(** ** The done toggle *)

Lemma dict_update_get (tasks : store) (k : string) (f : Task -> Task) :
  dict_get (dict_update tasks k f) k = option_map f (dict_get tasks k).
Proof.
  induction tasks as [|[k0 t0] tasks IH]; simpl; [reflexivity|].
  str_cases k0 k; simpl.
  - subst. now rewrite String.eqb_refl.
  - apply String.eqb_neq in E. now rewrite E.
Qed.

Lemma dict_update_absent (tasks : store) (k : string) (f : Task -> Task) :
  dict_mem tasks k = false -> dict_update tasks k f = tasks.
Proof.
  intros M. unfold dict_update. rewrite <- (map_id tasks) at 2.
  apply map_ext_in. intros [k0 t0] H. simpl.
  str_cases k0 k; [|reflexivity]. subst.
  assert (dict_mem tasks k = true); [|congruence].
  apply dict_mem_In, In_keys. now exists t0.
Qed.

Lemma dict_update_other (tasks : store) (k k0 : string) (f : Task -> Task)
      (t : Task) :
  k0 <> k -> (In (k0, t) (dict_update tasks k f) <-> In (k0, t) tasks).
Proof.
  intros Hne. unfold dict_update. rewrite in_map_iff. split.
  - intros [[k1 t1] [E H]]. simpl in E.
    str_cases k1 k; injection E as <- <-; [congruence | exact H].
  - intros H. exists (k0, t). simpl. split; [|exact H].
    apply String.eqb_neq in Hne. now rewrite Hne.
Qed.

Lemma toggle_done_status_done (tasks : store) (task_id : string) :
  toggle_done_status tasks task_id DONE_LABEL =
  dict_update tasks task_id (fun t => set_stashed false (set_completed true t)).
Proof.
  unfold toggle_done_status. rewrite String.eqb_refl.
  destruct (dict_mem tasks task_id) eqn:M.
  - rewrite dict_update_get.
    apply dict_get_mem in M as [t Ht]. rewrite Ht. simpl.
    apply dict_update_twice.
  - symmetry. now apply dict_update_absent.
Qed.

Lemma toggle_done_status_other (tasks : store) (task_id status k : string)
      (t : Task) :
  k <> task_id ->
  (In (k, t) (toggle_done_status tasks task_id status) <-> In (k, t) tasks).
Proof.
  intros Hne. unfold toggle_done_status.
  destruct (dict_mem tasks task_id); [|tauto].
  destruct (dict_get _ task_id) as [t1|]; [destruct (completed t1)|];
    rewrite ?dict_update_other by assumption; tauto.
Qed.

(** C2 (amended): on a store without a cycle the stash cascade, started
    on a task of the store, returns; it has then set [stashed] to the new
    value on the root and on every task reached from it through
    [get_subtasks] and [get_workflow_siblings], has cleared [completed] on
    each of them when the new value is true, and has left every other task
    alone.  Marking a task done sets [completed] and clears [stashed] on
    that one task and changes no other task, on every store. *)
Theorem stash_cascades_done_does_not :
  (forall (rk : string -> nat) (fuel : nat) (tasks : store) (root : string)
          (new_stashed : bool),
      ranked rk tasks = true ->
      (rk root < fuel)%nat ->
      dict_mem tasks root = true ->
      exists tasks' R,
        _set_stash_recursive fuel tasks root new_stashed = Some tasks'
        /\ (forall k, In k R <-> reachable tasks root k)
        /\ tasks' = update_keys R (stash_effect new_stashed) tasks
        /\ (forall k t', In (k, t') tasks' -> reachable tasks root k ->
                         stashed t' = new_stashed
                         /\ (new_stashed = true -> completed t' = false))
        /\ (forall k t, ~ reachable tasks root k ->
                        (In (k, t) tasks' <-> In (k, t) tasks)))
  /\ (forall (tasks : store) (task_id : string),
         toggle_done_status tasks task_id DONE_LABEL =
         dict_update tasks task_id
                     (fun t => set_stashed false (set_completed true t))
         /\ (forall t', In (task_id, t')
                           (toggle_done_status tasks task_id DONE_LABEL) ->
                        completed t' = true /\ stashed t' = false)
         /\ (forall status k t,
                k <> task_id ->
                (In (k, t) (toggle_done_status tasks task_id status) <->
                 In (k, t) tasks))).
Proof.
  split.
  - intros rk fuel tasks root b HR Hf Hroot.
    destruct (set_stash_recursive_terminates rk b fuel tasks root HR Hf)
      as [tasks' E].
    destruct (set_stash_recursive_spec b _ _ _ _ Hroot E) as [R [-> HRch]].
    exists (update_keys R (stash_effect b) tasks), R.
    split; [exact E|]. split; [exact HRch|]. split; [reflexivity|]. split.
    + intros k t' Hin Hr. apply update_keys_In in Hin as [t [_ ->]].
      apply HRch, existsb_eqb_In in Hr. rewrite Hr.
      destruct b; simpl; auto. split; [reflexivity | discriminate].
    + intros k t Hr. rewrite update_keys_In.
      assert (Hn : existsb (String.eqb k) R = false).
      { apply existsb_eqb_notIn. now rewrite HRch. }
      rewrite Hn. split; [intros [t0 [H ->]]; exact H | intros H; now exists t].
  - intros tasks task_id. split; [apply toggle_done_status_done|]. split.
    + intros t'. rewrite toggle_done_status_done. unfold dict_update.
      rewrite in_map_iff. intros [[k0 t0] [E _]]. simpl in E.
      str_cases k0 task_id; injection E as <- <-; [now split | congruence].
    + intros status k t. apply toggle_done_status_other.
Qed.

Lemma stash_cascades_done_does_not_witness :
  ranked rank_abc store_abc = true
  /\ (rank_abc "A" < 3)%nat
  /\ dict_mem store_abc "A" = true
  /\ exists tasks' R,
      _set_stash_recursive 3 store_abc "A" true = Some tasks'
      /\ (forall k, In k R <-> reachable store_abc "A" k)
      /\ tasks' = update_keys R (stash_effect true) store_abc
      /\ (forall k t', In (k, t') tasks' -> reachable store_abc "A" k ->
                       stashed t' = true /\ (true = true -> completed t' = false))
      /\ (forall k t, ~ reachable store_abc "A" k ->
                      (In (k, t) tasks' <-> In (k, t) store_abc)).
Proof.
  assert (H : (rank_abc "A" < 3)%nat) by (vm_compute; apply le_n).
  split; [reflexivity|]. split; [exact H|]. split; [reflexivity|].
  exact (proj1 stash_cascades_done_does_not rank_abc 3%nat store_abc "A" true
               eq_refl H eq_refl).
Defined.

Lemma set_stash_recursive_self_parent_none :
  forall fuel b s,
    s = store_self_parent
    \/ s = update_keys ["a"] (stash_effect b) store_self_parent ->
    _set_stash_recursive fuel s "a" b = None.
Proof.
  induction fuel as [|fuel IH]; intros b s Hs; [reflexivity|].
  assert (Hm : dict_mem s "a" = true)
    by (destruct Hs; subst s; destruct b; reflexivity).
  assert (E : update_keys ["a"] (stash_effect b) s
              = update_keys ["a"] (stash_effect b) store_self_parent)
    by (destruct Hs; subst s; destruct b; reflexivity).
  assert (G : get_subtasks
                (update_keys ["a"] (stash_effect b) store_self_parent) "a"
              = ["a"]) by (destruct b; reflexivity).
  simpl. rewrite Hm. simpl. rewrite stash_first_step, E, G.
  cbn [for_each]. rewrite IH by (now right). reflexivity.
Qed.

(** C2 as stated fails on a store with a cycle: the task that is its own
    parent is present, and the stash cascade started on it never returns,
    whatever the new value and the recursion depth allowed; no flag is
    ever handed back. *)
Lemma set_stash_recursive_self_parent_never_returns :
  dict_mem store_self_parent "a" = true
  /\ reachable store_self_parent "a" "a"
  /\ ~ (exists fuel new_stashed tasks',
          _set_stash_recursive fuel store_self_parent "a" new_stashed
          = Some tasks').
Proof.
  split; [reflexivity|]. split; [apply reach_root|].
  intros [fuel [b [tasks' H]]].
  rewrite (set_stash_recursive_self_parent_none fuel b store_self_parent) in H
    by (now left).
  discriminate.
Qed.

(** C3 (amended): neither cascade keeps a visited set; what makes them
    return is the absence of cycles.  On a store whose two relations are
    ranked, recursive delete and the stash cascade return from any task as
    soon as the recursion may go deeper than the rank of that task. *)
Theorem cascades_return_without_cycle :
  forall (rk : string -> nat) (tasks : store) (task_id : string) (fuel : nat),
    ranked rk tasks = true ->
    (rk task_id < fuel)%nat ->
    (exists tasks', _delete_recursive fuel tasks task_id = Some tasks')
    /\ (forall b, exists tasks',
           _set_stash_recursive fuel tasks task_id b = Some tasks').
Proof.
  intros rk tasks task_id fuel HR Hf. split.
  - now apply (delete_recursive_terminates rk).
  - intros b. now apply (set_stash_recursive_terminates rk).
Qed.

Lemma cascades_return_without_cycle_witness :
  ranked rank_abc store_abc = true
  /\ (rank_abc "A" < 3)%nat
  /\ (exists tasks', _delete_recursive 3 store_abc "A" = Some tasks')
  /\ (forall b, exists tasks',
         _set_stash_recursive 3 store_abc "A" b = Some tasks').
Proof.
  split; [reflexivity|]. split; [vm_compute; apply le_n|].
  exact (cascades_return_without_cycle rank_abc store_abc "A" 3 eq_refl
           (le_n 3)).
Defined.

Lemma delete_recursive_sibling_cycle_none :
  forall fuel,
    _delete_recursive fuel store_sibling_cycle "a" = None
    /\ _delete_recursive fuel store_sibling_cycle "b" = None.
Proof.
  induction fuel as [|fuel [IHa IHb]]; [split; reflexivity|].
  split; cbn [_delete_recursive].
  - change (get_subtasks store_sibling_cycle "a") with (@nil string).
    cbn [for_each].
    change (get_workflow_siblings store_sibling_cycle "a") with ["b"].
    cbn [for_each]. now rewrite IHb.
  - change (get_subtasks store_sibling_cycle "b") with (@nil string).
    cbn [for_each].
    change (get_workflow_siblings store_sibling_cycle "b") with ["a"].
    cbn [for_each]. now rewrite IHa.
Qed.

(** C3 as stated fails: on two tasks that are each other's workflow
    sibling, recursive delete revisits the same two tasks for ever; no
    depth of recursion lets it return. *)
Lemma delete_recursive_sibling_cycle_never_returns :
  dict_mem store_sibling_cycle "a" = true
  /\ ~ (exists fuel tasks',
          _delete_recursive fuel store_sibling_cycle "a" = Some tasks').
Proof.
  split; [reflexivity|].
  intros [fuel [tasks' H]].
  destruct (delete_recursive_sibling_cycle_none fuel) as [Ha _]. congruence.
Qed.

(** ** [get_subtasks] *)

Lemma sort_by_stable {A K : Type} (leb : K -> K -> bool) (key : A -> K)
      (p : A -> bool) (l : list A) :
  (forall x y, p x = true -> p y = true -> leb (key x) (key y) = true) ->
  filter p (sort_by leb key l) = filter p l.
Proof.
  intros H. induction l as [|x l IH]; simpl; [reflexivity|].
  rewrite insert_by_filter_same by (intros; now apply H).
  simpl. now rewrite IH.
Qed.

(** What [get_subtasks] does on every store: it returns the tasks of the
    given parent whose [workflow_sibling_of] is falsy, each once, in
    ascending order of [priority or 999], tasks of one such key in the
    order of the store. *)
Lemma get_subtasks_members_sorted (tasks : store) (parent : string) :
  NoDup (keys tasks) ->
  let result := get_subtasks tasks parent in
  (forall tid, In tid result <->
               exists t, dict_get tasks tid = Some t
                         /\ parent_id t = Some parent
                         /\ truthy (workflow_sibling_of t) = false)
  /\ NoDup result
  /\ StronglySorted
       (fun a b => key_priority tasks a <= key_priority tasks b) result
  /\ (forall p,
         filter (fun tid => Z.eqb (key_priority tasks tid) p) result =
         filter (fun tid => Z.eqb (key_priority tasks tid) p)
                (keys (filter (fun e => is_subtask parent (snd e)) tasks))).
Proof.
  intros ND result. split; [|split; [|split]].
  - intros tid. unfold result. rewrite get_subtasks_In. unfold is_subtask.
    split; intros [t [H1 H2]]; exists t.
    + apply andb_true_iff in H2 as [H2 H3].
      apply get_eqb_true in H2. apply negb_true_iff in H3.
      split; [now apply In_dict_get | auto].
    + destruct H2 as [H2 H3]. split; [now apply dict_get_In|].
      apply andb_true_iff. rewrite get_eqb_true, negb_true_iff. auto.
  - apply sort_by_NoDup. now apply NoDup_keys_filter.
  - pose proof (sort_by_sorted Z.leb (key_priority tasks) Z_leb_total Z_leb_trans
                  (keys (filter (fun e => is_subtask parent (snd e)) tasks))) as H.
    unfold result, get_subtasks.
    eapply StronglySorted_ind with (P := StronglySorted _); [constructor| |exact H].
    intros a l _ IH Hall. constructor; [exact IH|].
    eapply Forall_impl; [|exact Hall]. intros b. cbv beta. apply Z.leb_le.
  - intros p. apply sort_by_stable. intros x y Hx Hy.
    apply Z.eqb_eq in Hx, Hy. apply Z.leb_le. lia.
Qed.

(** C6 (failing input): under parent P, X has priority 0 and Y priority 5.
    [get_subtasks] of [main5.0.0.py] sorts by [priority or 999], which
    turns the 0 into 999, and returns Y before X; the accessor of
    [main1.0.0.py], which replaces only a missing priority, returns X
    before Y. *)
Theorem get_subtasks_priority_zero_sorted_last :
  option_map priority (dict_get store_priority_zero "X") = Some (Some 0)
  /\ option_map priority (dict_get store_priority_zero "Y") = Some (Some 5)
  /\ get_subtasks store_priority_zero "P" = ["Y"; "X"]
  /\ V1.get_subtasks store_priority_zero "P" = ["X"; "Y"].
Proof. repeat split. Qed.

(** ** Relative moves *)

Lemma move_priority_up_by :
  move_priority_up = move_priority_by Z.ltb py_max.
Proof. reflexivity. Qed.

Lemma move_priority_down_by :
  move_priority_down = move_priority_by Z.gtb py_min.
Proof. reflexivity. Qed.

Lemma py_max_spec (p : Z) (ps : list Z) :
  In (py_max p ps) (p :: ps) /\ forall q, In q (p :: ps) -> q <= py_max p ps.
Proof.
  unfold py_max. revert p. induction ps as [|x ps IH]; intros p; simpl.
  - split; [now left | intros q [<-|[]]; lia].
  - destruct (IH (Z.max p x)) as [H1 H2]. split.
    + destruct H1 as [H1|H1]; [|now right; right].
      rewrite <- H1. destruct (Z.max_spec p x) as [[_ ->]|[_ ->]]; auto.
    + intros q [Hq|[Hq|Hq]]; [| |apply H2; now right];
        specialize (H2 (Z.max p x) (or_introl eq_refl)); lia.
Qed.

Lemma py_min_spec (p : Z) (ps : list Z) :
  In (py_min p ps) (p :: ps) /\ forall q, In q (p :: ps) -> py_min p ps <= q.
Proof.
  unfold py_min. revert p. induction ps as [|x ps IH]; intros p; simpl.
  - split; [now left | intros q [<-|[]]; lia].
  - destruct (IH (Z.min p x)) as [H1 H2]. split.
    + destruct H1 as [H1|H1]; [|now right; right].
      rewrite <- H1. destruct (Z.min_spec p x) as [[_ ->]|[_ ->]]; auto.
    + intros q [Hq|[Hq|Hq]]; [| |apply H2; now right];
        specialize (H2 (Z.min p x) (or_introl eq_refl)); lia.
Qed.

Lemma filter_none {A : Type} (f : A -> bool) (l : list A) :
  (forall x, In x l -> f x = false) -> filter f l = [].
Proof.
  induction l as [|x l IH]; simpl; intros H; [reflexivity|].
  rewrite (H x) by now left. apply IH. intros; apply H; now right.
Qed.

Lemma dict_update_get_other (tasks : store) (k k0 : string) (f : Task -> Task) :
  k0 <> k -> dict_get (dict_update tasks k f) k0 = dict_get tasks k0.
Proof.
  intros Hne. induction tasks as [|[k1 t1] tasks IH]; simpl; [reflexivity|].
  str_cases k1 k; simpl.
  - subst. apply not_eq_sym, String.eqb_neq in Hne. now rewrite Hne.
  - now rewrite IH.
Qed.

Section MoveBy.
Variable beyond : Z -> Z -> bool.
Variable nearest : Z -> list Z -> Z.
Variable closer : Z -> Z -> Prop.
Hypothesis beyond_neq : forall a b, beyond a b = true -> a <> b.
Hypothesis nearest_in : forall p ps, In (nearest p ps) (p :: ps).
Hypothesis nearest_best : forall p ps q, In q (p :: ps) -> closer q (nearest p ps).

Variable tasks : store.
Variable task_id : string.
Variable t : Task.
Variable cur : Z.
Hypothesis ND : NoDup (keys tasks).
Hypothesis Hset : all_priorities_set tasks.
Hypothesis Ht : dict_get tasks task_id = Some t.
Hypothesis Hcur : priority t = Some cur.

Let candidates : list Z :=
  map (fun e => priority_get_999 (snd e))
      (filter (fun e => beyond (priority_get_999 (snd e)) cur
                        && negb (String.eqb (fst e) task_id)) tasks).

Lemma candidates_In (q : Z) :
  In q candidates <-> exists k, neighbour beyond tasks task_id cur k q.
Proof.
  unfold candidates. rewrite in_map_iff. split.
  - intros [[k t0] [E H]]. simpl in E. apply filter_In in H as [H1 H2].
    simpl in H2. apply andb_true_iff in H2 as [H2 H3].
    apply negb_true_iff, String.eqb_neq in H3.
    exists k, t0. repeat split; auto.
    + unfold priority_get_999 in E.
      destruct (priority t0) eqn:P; [congruence|]. now apply Hset in H1.
    + now rewrite E in H2.
  - intros [k [t0 [H1 [H2 [H3 H4]]]]]. exists (k, t0). simpl.
    assert (E : priority_get_999 t0 = q) by (unfold priority_get_999; now rewrite H3).
    split; [exact E|]. apply filter_In. split; [exact H1|]. simpl.
    rewrite E, H4. simpl. now apply negb_true_iff, String.eqb_neq.
Qed.

Lemma move_priority_by_extreme :
  (forall k q, ~ neighbour beyond tasks task_id cur k q) ->
  move_priority_by beyond nearest tasks task_id = tasks.
Proof.
  intros Hno. unfold move_priority_by. rewrite Ht.
  assert (E : priority_get_999 t = cur) by (unfold priority_get_999; now rewrite Hcur).
  rewrite E. fold candidates.
  destruct candidates as [|p ps] eqn:C; [reflexivity|].
  exfalso. assert (H : In p candidates) by (rewrite C; now left).
  apply candidates_In in H as [k H]. exact (Hno k p H).
Qed.

Lemma move_priority_by_swaps :
  (exists k q, neighbour beyond tasks task_id cur k q) ->
  exists tid target,
    neighbour beyond tasks task_id cur tid target
    /\ (forall k q, neighbour beyond tasks task_id cur k q -> closer q target)
    /\ move_priority_by beyond nearest tasks task_id =
       swap_into tasks tid cur task_id target.
Proof.
  intros [k0 [q0 H0]]. unfold move_priority_by. rewrite Ht.
  assert (E : priority_get_999 t = cur) by (unfold priority_get_999; now rewrite Hcur).
  rewrite E. fold candidates.
  destruct candidates as [|p ps] eqn:C.
  { assert (H : In q0 candidates) by (apply candidates_In; now exists k0).
    rewrite C in H. destruct H. }
  assert (Hin : In (nearest p ps) candidates) by (rewrite C; apply nearest_in).
  apply candidates_In in Hin as [k1 [t1 [H1 [H2 [H3 H4]]]]].
  destruct (find (has_priority (nearest p ps)) tasks) as [[tid tt]|] eqn:F.
  - apply find_some in F as [F1 F2]. unfold has_priority in F2. simpl in F2.
    destruct (priority tt) as [pt|] eqn:P; [|discriminate].
    apply Z.eqb_eq in F2. subst pt.
    exists tid, (nearest p ps). split; [|split; [|reflexivity]].
    + exists tt. repeat split; auto. intros ->.
      apply (In_dict_get _ _ _ ND) in F1. rewrite Ht in F1. injection F1 as <-.
      rewrite Hcur in P. injection P as P.
      exact (beyond_neq _ _ H4 (eq_sym P)).
    + intros k q Hq. apply nearest_best. rewrite <- C.
      apply candidates_In. now exists k.
  - exfalso. apply (find_none _ _ F) in H1.
    unfold has_priority in H1. simpl in H1. rewrite H3, Z.eqb_refl in H1.
    discriminate.
Qed.
End MoveBy.

Lemma swap_into_get (tasks : store) (tid task_id : string) (a b : Z) (k : string) :
  tid <> task_id ->
  dict_get (swap_into tasks tid a task_id b) k =
  if String.eqb k task_id then option_map (set_priority b) (dict_get tasks k)
  else if String.eqb k tid then option_map (set_priority a) (dict_get tasks k)
  else dict_get tasks k.
Proof.
  intros Hne. unfold swap_into.
  str_cases k task_id.
  - subst. rewrite dict_update_get. f_equal.
    apply dict_update_get_other. auto.
  - rewrite dict_update_get_other by assumption.
    str_cases k tid.
    + subst. apply dict_update_get.
    + now apply dict_update_get_other.
Qed.

Lemma move_priority_by_result
      (beyond : Z -> Z -> bool) (nearest : Z -> list Z -> Z)
      (closer : Z -> Z -> Prop) :
  (forall a b, beyond a b = true -> a <> b) ->
  (forall p ps, In (nearest p ps) (p :: ps)) ->
  (forall p ps q, In q (p :: ps) -> closer q (nearest p ps)) ->
  forall (tasks : store) (task_id : string) (t : Task) (cur : Z),
    NoDup (keys tasks) ->
    all_priorities_set tasks ->
    dict_get tasks task_id = Some t ->
    priority t = Some cur ->
    ((forall k q, ~ neighbour beyond tasks task_id cur k q) ->
     move_priority_by beyond nearest tasks task_id = tasks)
    /\ ((exists k q, neighbour beyond tasks task_id cur k q) ->
        exists tid tt target,
          neighbour beyond tasks task_id cur tid target
          /\ (forall k q, neighbour beyond tasks task_id cur k q -> closer q target)
          /\ dict_get tasks tid = Some tt
          /\ dict_get (move_priority_by beyond nearest tasks task_id) task_id
             = Some (set_priority target t)
          /\ dict_get (move_priority_by beyond nearest tasks task_id) tid
             = Some (set_priority cur tt)
          /\ forall k, k <> task_id -> k <> tid ->
                       dict_get (move_priority_by beyond nearest tasks task_id) k
                       = dict_get tasks k).
Proof.
  intros H1 H2 H3 tasks task_id t cur ND Hset Ht Hcur. split.
  - now apply (move_priority_by_extreme beyond nearest tasks task_id t cur).
  - intros Hex.
    destruct (move_priority_by_swaps beyond nearest closer H1 H2 H3
                tasks task_id t cur ND Hset Ht Hcur Hex)
      as [tid [target [Hn [Hbest ->]]]].
    pose proof Hn as [tt [Hin [Hne [Hp Hb]]]].
    apply (In_dict_get _ _ _ ND) in Hin.
    exists tid, tt, target. repeat split; auto.
    + rewrite swap_into_get by assumption. now rewrite String.eqb_refl, Ht.
    + rewrite swap_into_get by assumption.
      apply String.eqb_neq in Hne. now rewrite Hne, String.eqb_refl, Hin.
    + intros k Hk1 Hk2. rewrite swap_into_get by assumption.
      apply String.eqb_neq in Hk1, Hk2. now rewrite Hk1, Hk2.
Qed.



(** ** What the reordering operations keep *)

Lemma dict_update_keys (tasks : store) (k : string) (f : Task -> Task) :
  keys (dict_update tasks k f) = keys tasks.
Proof. rewrite dict_update_update_keys. apply update_keys_keys. Qed.

(** One assignment of a priority replaces one value of the list of
    priorities. *)
Lemma set_priority_replaces (tasks : store) (k : string) (t0 : Task) (v : Z) :
  NoDup (keys tasks) ->
  dict_get tasks k = Some t0 ->
  Permutation
    (Some v :: map (fun e => priority (snd e)) tasks)
    (priority t0
       :: map (fun e => priority (snd e)) (dict_update tasks k (set_priority v))).
Proof.
  induction tasks as [|[k1 t1] tasks IH]; simpl; [discriminate|].
  intros ND H. inversion ND as [|? ? Hn ND']; subst.
  str_cases k1 k.
  - injection H as <-. subst k1.
    fold (dict_update tasks k (set_priority v)).
    rewrite dict_update_absent; [apply perm_swap|].
    now apply existsb_eqb_notIn.
  - fold (dict_update tasks k (set_priority v)).
    eapply perm_trans; [apply perm_swap|].
    eapply perm_trans; [|apply perm_swap].
    constructor. now apply IH.
Qed.

(** The two assignments of a swap permute the priorities. *)
Lemma swap_into_permutes (tasks : store) (tid task_id : string)
      (tt t : Task) (a b : Z) :
  NoDup (keys tasks) ->
  tid <> task_id ->
  dict_get tasks tid = Some tt -> priority tt = Some b ->
  dict_get tasks task_id = Some t -> priority t = Some a ->
  Permutation (map (fun e => priority (snd e)) tasks)
              (map (fun e => priority (snd e))
                   (swap_into tasks tid a task_id b)).
Proof.
  intros ND Hne Htt Hb Ht Ha. unfold swap_into.
  pose proof (set_priority_replaces tasks tid tt a ND Htt) as P1.
  assert (ND1 : NoDup (keys (dict_update tasks tid (set_priority a))))
    by now rewrite dict_update_keys.
  assert (Ht1 : dict_get (dict_update tasks tid (set_priority a)) task_id = Some t)
    by (rewrite dict_update_get_other; auto).
  pose proof (set_priority_replaces _ task_id t b ND1 Ht1) as P2.
  rewrite Hb in P1. rewrite Ha in P2.
  eapply Permutation_cons_inv. etransitivity; [exact P1 | exact P2].
Qed.

(** A swap touches no field but [priority]. *)
Lemma swap_into_other_fields (tasks : store) (tid task_id : string) (a b : Z)
      (k : string) (t' : Task) :
  In (k, t') (swap_into tasks tid a task_id b) ->
  exists t, In (k, t) tasks /\ set_priority 0 t' = set_priority 0 t.
Proof.
  unfold swap_into, dict_update. rewrite map_map, in_map_iff.
  intros [[k0 t0] [E H]]. simpl in E. exists t0.
  destruct (String.eqb k0 tid); simpl in E;
    destruct (String.eqb k0 task_id); injection E as <- <-; auto.
Qed.

(** The relative moves permute the priorities of the store. *)
Lemma move_priority_permutes (tasks : store) (task_id : string) :
  NoDup (keys tasks) ->
  all_priorities_set tasks ->
  Permutation (map (fun e => priority (snd e)) tasks)
              (map (fun e => priority (snd e)) (move_priority_up tasks task_id))
  /\ Permutation (map (fun e => priority (snd e)) tasks)
                 (map (fun e => priority (snd e))
                      (move_priority_down tasks task_id)).
Proof.
  intros ND Hset.
  assert (G : forall beyond nearest,
             (forall a b, beyond a b = true -> a <> b) ->
             (forall p ps, In (nearest p ps) (p :: ps)) ->
             Permutation (map (fun e => priority (snd e)) tasks)
                         (map (fun e => priority (snd e))
                              (move_priority_by beyond nearest tasks task_id))).
  { intros beyond nearest H1 H2.
    destruct (dict_get tasks task_id) as [t|] eqn:Ht;
      [|unfold move_priority_by; now rewrite Ht].
    destruct (priority t) as [cur|] eqn:Hcur;
      [|exfalso; eapply Hset; [apply dict_get_In; exact Ht | exact Hcur]].
    destruct (move_priority_by_result beyond nearest (fun _ _ => True) H1 H2
                (fun _ _ _ _ => I) tasks task_id t cur ND Hset Ht Hcur)
      as [N S].
    unfold move_priority_by in *. rewrite Ht in *.
    destruct (map _ (filter _ tasks)) as [|p ps] eqn:C; [reflexivity|].
    destruct (find (has_priority (nearest p ps)) tasks) as [[tid tt]|] eqn:F;
      [|reflexivity].
    apply find_some in F as [F1 F2]. unfold has_priority in F2. simpl in F2.
    destruct (priority tt) as [pt|] eqn:P; [|discriminate].
    apply Z.eqb_eq in F2. subst pt.
    assert (E : priority_get_999 t = cur)
      by (unfold priority_get_999; now rewrite Hcur).
    rewrite E in *.
    assert (Hin : In (nearest p ps) (p :: ps)) by apply H2.
    rewrite <- C in Hin. apply in_map_iff in Hin as [[k1 t1] [E1 Hin]].
    apply filter_In in Hin as [_ Hin]. simpl in Hin, E1.
    apply andb_true_iff in Hin as [Hb _]. rewrite E1 in Hb.
    apply (swap_into_permutes tasks tid task_id tt t); auto.
    - intros ->. apply (In_dict_get _ _ _ ND) in F1.
      rewrite Ht in F1. injection F1 as <-.
      rewrite Hcur in P. injection P as P. exact (H1 _ _ Hb (eq_sym P)).
    - now apply In_dict_get. }
  split.
  - rewrite move_priority_up_by. apply G.
    + intros a b H. apply Z.ltb_lt in H. lia.
    + intros p ps. apply py_max_spec.
  - rewrite move_priority_down_by. apply G.
    + intros a b H. rewrite Z.gtb_ltb in H. apply Z.ltb_lt in H. lia.
    + intros p ps. apply py_min_spec.
Qed.

(** The drag-and-drop swap exchanges the two priorities when neither is
    0 or missing. *)
Lemma swap_priorities_permutes (tasks : store) (drag dropped : string)
      (td tp : Task) (a b : Z) :
  NoDup (keys tasks) ->
  drag <> dropped ->
  dict_get tasks drag = Some td -> priority td = Some a -> a <> 0 ->
  dict_get tasks dropped = Some tp -> priority tp = Some b -> b <> 0 ->
  swap_priorities tasks drag dropped = Some (swap_into tasks drag b dropped a)
  /\ Permutation (map (fun e => priority (snd e)) tasks)
                 (map (fun e => priority (snd e))
                      (swap_into tasks drag b dropped a)).
Proof.
  intros ND Hne Hd Ha Ha0 Hp Hb Hb0. split.
  - unfold swap_priorities, swap_into, priority_or_999.
    rewrite Hd, Hp, Ha, Hb.
    apply Z.eqb_neq in Ha0, Hb0. now rewrite Ha0, Hb0.
  - now apply (swap_into_permutes tasks drag dropped td tp).
Qed.

(** The accessor of [main2.0.0.py] appends the siblings of siblings; that
    of [main5.0.0.py] stops at the direct ones. *)
Example older_get_workflow_siblings_flattens :
  get_workflow_siblings store_chain "A" = ["B"]
  /\ V2.get_workflow_siblings 3 store_chain "A" = Some ["B"; "C"].
Proof. split; reflexivity. Qed.

(** ** Drag and drop *)

(** C10 (failing input): root tasks A (priority 0) and B (priority 5),
    laid out by [refresh_pipeline]; A is dragged and released over B.  The
    handler reads both priorities through [or 999], so B receives 999
    instead of A's 0: the priorities [0; 5] become [5; 999], which is no
    permutation of them. *)
Theorem drag_drop_priority_zero_is_lost :
  priorities store_drag_zero = [("A", Some 0); ("B", Some 5)]
  /\ option_map self_task_positions (refresh_pipeline 1 (app_of store_drag_zero))
     = Some [("B", (40, 40, 240, 120)); ("A", (40, 320, 240, 120))]
  /\ option_map priorities
       (_on_canvas_release store_drag_zero
          [("B", (40, 40, 240, 120)); ("A", (40, 320, 240, 120))]
          true (Some "A") 50 50)
     = Some [("A", Some 5); ("B", Some 999)]
  /\ ~ Permutation [Some 0; Some 5] [Some 5; Some 999].
Proof.
  repeat split.
  intros H. apply (Permutation_in (Some 0)) in H; [|now left].
  destruct H as [H|[H|[]]]; discriminate.
Qed.

(** ** Card layout *)

(** C4 (failing input): root A with subtasks B1 and B2, and C a subtask of
    B1.  The subtasks of A are queued one card and one spacing apart, and
    so is C after B1, whatever B1's subtree needs: C receives the very
    rectangle of B2. *)
Theorem render_task_tree_places_two_cards_on_each_other :
  _render_task_tree 4 dims_100 store_two_levels [] "A" 40 40 0
  = Some ([("A", (40, 40, 240, 120)); ("B1", (340, 40, 240, 120));
           ("B2", (640, 40, 240, 120)); ("C", (640, 40, 240, 120))], 240)
  /\ rect_overlap (640, 40, 240, 120) (640, 40, 240, 120) = true.
Proof. split; reflexivity. Qed.

Lemma layout_loop_trace :
  forall fuel d tasks queue pos my mx,
    layout_loop fuel d tasks queue pos my mx =
    match layout_trace fuel d tasks queue my mx with
    | Some (W, my', mx') => Some (apply_writes W pos, my', mx')
    | None => None
    end.
Proof.
  induction fuel as [|fuel IH]; intros d tasks queue pos my mx;
    destruct queue as [|[[[cid cx] cy] cl] queue]; simpl; try reflexivity.
  destruct (dict_get tasks cid) as [t|] eqn:E; [|apply IH].
  unfold _draw_task_card. rewrite E. rewrite IH.
  destruct (layout_trace fuel d tasks _ _ _) as [[[W my'] mx']|]; reflexivity.
Qed.

Lemma dict_set_get {V : Type} (p : list (string * V)) (k k0 : string) (v : V) :
  dict_get (dict_set p k v) k0 = if String.eqb k k0 then Some v else dict_get p k0.
Proof.
  induction p as [|[k1 v1] p IH]; simpl.
  - reflexivity.
  - str_cases k1 k; simpl.
    + subst. now destruct (String.eqb k k0).
    + rewrite IH. str_cases k1 k0; [|reflexivity].
      subst. apply String.eqb_neq in E. rewrite String.eqb_sym in E. now rewrite E.
Qed.

Lemma dict_set_keys_present {V : Type} (p : list (string * V)) (k : string) (v : V) :
  In k (keys p) -> keys (dict_set p k v) = keys p.
Proof.
  induction p as [|[k1 v1] p IH]; simpl; [tauto|].
  str_cases k1 k; simpl; [reflexivity|].
  intros [H|H]; [congruence | now rewrite IH].
Qed.

Lemma dict_set_keys_grow {V : Type} (p : list (string * V)) (k k0 : string) (v : V) :
  In k0 (keys p) \/ k0 = k -> In k0 (keys (dict_set p k v)).
Proof.
  induction p as [|[k1 v1] p IH]; simpl.
  - intros [[] | ->]. now left.
  - str_cases k1 k; simpl.
    + subst. intros [[H|H]|H]; auto.
    + intros [[H|H]|H]; auto.
Qed.

(** The value a sequence of assignments leaves under a key. *)
Lemma apply_writes_get (W : list (string * Rect)) :
  forall (p q : positions) (k : string),
    dict_get (apply_writes W p) k = dict_get (apply_writes W q) k
    \/ (dict_get (apply_writes W p) k = dict_get p k
        /\ dict_get (apply_writes W q) k = dict_get q k).
Proof.
  unfold apply_writes.
  induction W as [|[k1 r1] W IH]; intros p q k; simpl; [now right|].
  destruct (IH (dict_set p k1 r1) (dict_set q k1 r1) k) as [H|[H1 H2]];
    [now left|].
  rewrite H1, H2, !dict_set_get.
  destruct (String.eqb k1 k); [now left | now right].
Qed.

Lemma apply_writes_keys_grow (W : list (string * Rect)) :
  forall (p : positions) (k : string),
    In k (keys p) \/ In k (keys W) -> In k (keys (apply_writes W p)).
Proof.
  unfold apply_writes.
  induction W as [|[k1 r1] W IH]; intros p k; simpl; [tauto|].
  intros H. apply IH.
  destruct H as [H|[H|H]]; auto; left; apply dict_set_keys_grow; auto.
Qed.

Lemma apply_writes_keys_present (W : list (string * Rect)) :
  forall (p : positions),
    (forall k, In k (keys W) -> In k (keys p)) ->
    keys (apply_writes W p) = keys p.
Proof.
  unfold apply_writes.
  induction W as [|[k1 r1] W IH]; intros p H; simpl; [reflexivity|].
  assert (E : keys (dict_set p k1 r1) = keys p)
    by (apply dict_set_keys_present, H; now left).
  rewrite IH; [exact E|].
  intros k Hk. rewrite E. apply H. now right.
Qed.

(** Performing the same assignments a second time changes nothing. *)
Lemma apply_writes_twice (W : list (string * Rect)) (p : positions) :
  keys (apply_writes W (apply_writes W p)) = keys (apply_writes W p)
  /\ forall k, dict_get (apply_writes W (apply_writes W p)) k
               = dict_get (apply_writes W p) k.
Proof.
  split.
  - apply apply_writes_keys_present. intros k Hk.
    apply apply_writes_keys_grow. now right.
  - intros k.
    destruct (apply_writes_get W (apply_writes W p) p k) as [H|[H _]]; exact H.
Qed.

Lemma with_positions_refresh (fuel : nat) (app : App) (pos : positions) :
  refresh_pipeline fuel (with_positions app pos) =
  refresh_pipeline fuel app.
Proof. reflexivity. Qed.

Lemma refresh_pipeline_result (fuel : nat) (app app1 : App) :
  refresh_pipeline fuel app = Some app1 ->
  exists pos, app1 = with_positions app pos.
Proof.
  unfold refresh_pipeline. intros H.
  destruct (root_tasks _ _ _); [injection H as <-; eauto|].
  destruct (String.eqb _ "card"); [|injection H as <-; eauto].
  destruct (render_roots _ _ _ _ _ _); [injection H as <-; eauto | discriminate].
Qed.

(** ** The layout returns on stores without cycles *)

Lemma queue_subtasks_ids (d : Dims) (l : list string) (x y lv : Z) :
  map qid (queue_subtasks d l x y lv) = l.
Proof.
  revert x. induction l as [|c l IH]; intros x; simpl; [reflexivity|].
  now rewrite IH.
Qed.

Lemma queue_workflows_ids (d : Dims) (l : list string) (x y lv : Z) :
  map qid (queue_workflows d l x y lv) = l.
Proof.
  revert y. induction l as [|c l IH]; intros y; simpl; [reflexivity|].
  now rewrite IH.
Qed.


Lemma layout_cost_mono (n r r' : nat) :
  (r <= r')%nat -> (layout_cost n r <= layout_cost n r')%nat.
Proof.
  assert (step : forall r0, (layout_cost n r0 <= layout_cost n (S r0))%nat).
  { induction r0 as [|r0 IH]; [simpl; lia|].
    change (layout_cost n (S (S r0)))
      with (1 + 2 * n * layout_cost n (S r0))%nat.
    change (layout_cost n (S r0)) with (1 + 2 * n * layout_cost n r0)%nat at 1.
    nia. }
  induction 1 as [|r' _ IH]; [lia|].
  specialize (step r'). lia.
Qed.

Lemma queue_cost_app (n : nat) (rk : string -> nat) (a b : list QItem) :
  queue_cost n rk (a ++ b) = (queue_cost n rk a + queue_cost n rk b)%nat.
Proof. unfold queue_cost. now rewrite map_app, list_sum_app. Qed.

Lemma queue_cost_children (n : nat) (rk : string -> nat) (r : nat)
      (items : list QItem) :
  (forall q, In q items -> (rk (qid q) < r)%nat) ->
  (List.length items <= n)%nat ->
  (queue_cost n rk items
   <= match r with O => 0 | S r' => n * layout_cost n r' end)%nat.
Proof.
  intros Hr Hn. destruct r as [|r'].
  - destruct items as [|q items]; [unfold queue_cost; simpl; lia|].
    specialize (Hr q (or_introl eq_refl)). lia.
  - assert (H : (queue_cost n rk items
                 <= List.length items * layout_cost n r')%nat).
    { clear Hn. induction items as [|q items IH]; [unfold queue_cost; simpl; lia|].
      unfold queue_cost in *. simpl.
      assert (layout_cost n (rk (qid q)) <= layout_cost n r')%nat.
      { apply layout_cost_mono. specialize (Hr q (or_introl eq_refl)). lia. }
      assert (list_sum (map (fun q0 => layout_cost n (rk (qid q0))) items)
              <= List.length items * layout_cost n r')%nat
        by (apply IH; intros; apply Hr; now right).
      lia. }
    nia.
Qed.

Lemma accessor_length (tasks : store) (f : string * Task -> bool) :
  (List.length (keys (filter f tasks)) <= List.length tasks)%nat.
Proof. unfold keys. rewrite length_map. apply filter_length_le. Qed.

Lemma layout_loop_returns (rk : string -> nat) (d : Dims) (tasks : store) :
  ranked rk tasks = true ->
  forall fuel queue pos my mx,
    (queue_cost (List.length tasks) rk queue <= fuel)%nat ->
    exists res, layout_loop fuel d tasks queue pos my mx = Some res.
Proof.
  intros HR. induction fuel as [|fuel IH]; intros queue pos my mx Hc;
    destruct queue as [|[[[cid cx] cy] cl] queue]; simpl; eauto.
  - unfold queue_cost in Hc. simpl in Hc. unfold qid in Hc. simpl in Hc.
    destruct (rk cid); simpl in Hc; lia.
  - change (layout_cost (List.length tasks) (rk cid)
            + queue_cost (List.length tasks) rk queue <= S fuel)%nat in Hc.
    destruct (dict_get tasks cid) as [t|] eqn:E.
    + unfold _draw_task_card. rewrite E. apply IH.
      rewrite !queue_cost_app.
      pose proof (queue_cost_children (List.length tasks) rk (rk cid)
                    (queue_subtasks d (get_subtasks tasks cid)
                       (cx + card_width d + card_spacing_h d) cy cl)) as H1.
      pose proof (queue_cost_children (List.length tasks) rk (rk cid)
                    (queue_workflows d (get_workflow_siblings tasks cid)
                       (cx + level_indent d)
                       (cy + card_height d + card_spacing_v d) cl)) as H2.
      assert (H1' : (queue_cost (List.length tasks) rk
                       (queue_subtasks d (get_subtasks tasks cid)
                          (cx + card_width d + card_spacing_h d) cy cl)
                     <= match rk cid with
                        | O => 0
                        | S r' => List.length tasks
                                  * layout_cost (List.length tasks) r'
                        end)%nat).
      { apply H1.
        - intros q Hin. apply (in_map qid) in Hin.
          rewrite queue_subtasks_ids in Hin.
          eapply ranked_children; eauto. unfold children.
          apply in_app_iff. now left.
        - rewrite <- (length_map qid), queue_subtasks_ids.
          unfold get_subtasks. rewrite sort_by_length. apply accessor_length. }
      assert (H2' : (queue_cost (List.length tasks) rk
                       (queue_workflows d (get_workflow_siblings tasks cid)
                          (cx + level_indent d)
                          (cy + card_height d + card_spacing_v d) cl)
                     <= match rk cid with
                        | O => 0
                        | S r' => List.length tasks
                                  * layout_cost (List.length tasks) r'
                        end)%nat).
      { apply H2.
        - intros q Hin. apply (in_map qid) in Hin.
          rewrite queue_workflows_ids in Hin.
          eapply ranked_children; eauto. unfold children.
          apply in_app_iff. now right.
        - rewrite <- (length_map qid), queue_workflows_ids.
          unfold get_workflow_siblings. rewrite sort_by_length.
          apply accessor_length. }
      clear H1 H2. destruct (rk cid) as [|r']; simpl in Hc; lia.
    + apply IH. assert (1 <= layout_cost (List.length tasks) (rk cid))%nat
        by (destruct (rk cid); simpl; lia).
      lia.
Qed.

Lemma render_task_tree_returns (rk : string -> nat) (d : Dims) (tasks : store)
      (fuel : nat) (pos : positions) (root : string) (x y level : Z) :
  ranked rk tasks = true ->
  (layout_cost (List.length tasks) (rk root) <= fuel)%nat ->
  exists res, _render_task_tree fuel d tasks pos root x y level = Some res.
Proof.
  intros HR Hf. unfold _render_task_tree.
  destruct (dict_get tasks root); [|eauto].
  destruct (layout_loop_returns rk d tasks HR fuel [(root, x, y, level)] pos y x)
    as [[[pos' my] mx] E].
  - unfold queue_cost, qid. simpl. lia.
  - rewrite E. eauto.
Qed.

Lemma refresh_pipeline_returns (rk : string -> nat) (rmax fuel : nat) (app : App) :
  ranked rk (self_tasks app) = true ->
  (forall k, (rk k <= rmax)%nat) ->
  (layout_cost (List.length (self_tasks app)) rmax <= fuel)%nat ->
  exists app1, refresh_pipeline fuel app = Some app1.
Proof.
  intros HR Hmax Hf. unfold refresh_pipeline.
  destruct (root_tasks _ _ _) as [|r roots]; [eauto|].
  destruct (String.eqb _ "card"); [|eauto].
  assert (H : forall l pos y,
             exists pos', render_roots fuel (self_dims app) (self_tasks app)
                                       l pos y = Some pos').
  { induction l as [|k l IH]; intros pos y; simpl; [eauto|].
    destruct (render_task_tree_returns rk (self_dims app) (self_tasks app)
                fuel pos k 40 y 0 HR) as [[pos1 h] E].
    - pose proof (layout_cost_mono (List.length (self_tasks app)) _ _ (Hmax k)).
      lia.
    - rewrite E. apply IH. }
  destruct (H (r :: roots) [] 40) as [pos' E]. rewrite E. eauto.
Qed.

(** C8: laying out a root twice from the same anchor, the store and the
    dimensions being the same, gives every task the same rectangle and
    reports the same height, whatever [task_positions] held before; and
    [refresh_pipeline], run again on its own result, returns that very
    result.  On a store without cycles both runs do return. *)
Theorem layout_idempotent :
  (forall fuel d tasks pos root x y level pos1 h1,
      _render_task_tree fuel d tasks pos root x y level = Some (pos1, h1) ->
      exists pos2,
        _render_task_tree fuel d tasks pos1 root x y level = Some (pos2, h1)
        /\ keys pos2 = keys pos1
        /\ forall k, dict_get pos2 k = dict_get pos1 k)
  /\ (forall fuel app app1,
         refresh_pipeline fuel app = Some app1 ->
         refresh_pipeline fuel app1 = Some app1)
  /\ (forall (rk : string -> nat) (rmax fuel : nat) (app : App),
         ranked rk (self_tasks app) = true ->
         (forall k, (rk k <= rmax)%nat) ->
         (layout_cost (List.length (self_tasks app)) rmax <= fuel)%nat ->
         exists app1,
           refresh_pipeline fuel app = Some app1
           /\ refresh_pipeline fuel app1 = Some app1).
Proof.
  assert (again : forall fuel app app1,
             refresh_pipeline fuel app = Some app1 ->
             refresh_pipeline fuel app1 = Some app1).
  { intros fuel app app1 H.
    destruct (refresh_pipeline_result _ _ _ H) as [pos ->].
    now rewrite with_positions_refresh. }
  split; [|split; [exact again|]].
  2:{ intros rk rmax fuel app HR Hmax Hf.
      destruct (refresh_pipeline_returns rk rmax fuel app HR Hmax Hf) as [app1 E].
      exists app1. split; [exact E | exact (again _ _ _ E)]. }
  intros fuel d tasks pos root x y level pos1 h1. unfold _render_task_tree.
  destruct (dict_get tasks root) as [t|].
  - rewrite !layout_loop_trace.
    destruct (layout_trace fuel d tasks [(root, x, y, level)] y x)
      as [[[W my] mx]|]; [|discriminate].
    intros H. injection H as <- <-.
    exists (apply_writes W (apply_writes W pos)).
    split; [reflexivity|]. apply apply_writes_twice.
  - intros H. injection H as <- <-. exists pos. auto.
Qed.

Lemma layout_idempotent_witness :
  _render_task_tree 3 dims_100 store_abc [] "A" 40 40 0
  = Some ([("A", (40, 40, 240, 120)); ("B", (340, 40, 240, 120));
           ("C", (370, 210, 240, 120))], 410)
  /\ exists pos2,
      _render_task_tree 3 dims_100 store_abc
        [("A", (40, 40, 240, 120)); ("B", (340, 40, 240, 120));
         ("C", (370, 210, 240, 120))] "A" 40 40 0 = Some (pos2, 410)
      /\ keys pos2 = ["A"; "B"; "C"]
      /\ forall k, dict_get pos2 k
                   = dict_get [("A", (40, 40, 240, 120)); ("B", (340, 40, 240, 120));
                               ("C", (370, 210, 240, 120))] k.
Proof.
  split; [reflexivity|].
  exact (proj1 layout_idempotent 3%nat dims_100 store_abc [] "A" 40 40 0
               _ 410 eq_refl).
Defined.

(** ** Dangling references *)

Lemma dict_set_keys_inv {V : Type} (p : list (string * V)) (k k0 : string) (v : V) :
  In k0 (keys (dict_set p k v)) -> In k0 (keys p) \/ k0 = k.
Proof.
  induction p as [|[k1 v1] p IH]; simpl.
  - intros [H|[]]. now right.
  - str_cases k1 k; simpl; [tauto|].
    intros [H|H]; [now left; left|]. destruct (IH H); auto.
Qed.

Lemma apply_writes_keys_inv (W : list (string * Rect)) :
  forall (p : positions) (k : string),
    In k (keys (apply_writes W p)) -> In k (keys p) \/ In k (keys W).
Proof.
  unfold apply_writes.
  induction W as [|[k1 r1] W IH]; intros p k; simpl; [tauto|].
  intros H. apply IH in H as [H|H]; [|now right; right].
  apply dict_set_keys_inv in H as [H|H]; auto.
Qed.

Section Dangling.
Variable tasks : store.
Variable k : string.
Variable t : Task.
Hypothesis ND : NoDup (keys tasks).
Hypothesis Hk : dict_get tasks k = Some t.
Hypothesis Hd : dangling tasks t = true.

Lemma dangling_not_root (view sort_mode : string) :
  ~ In k (root_tasks view sort_mode tasks).
Proof.
  intros H.
  assert (H' : In k (keys (filter (fun e => root_filter view (snd e)) tasks))).
  { unfold root_tasks in H.
    destruct (String.eqb sort_mode "priority"); now apply sort_by_In in H. }
  apply In_keys in H' as [t' H']. apply filter_In in H' as [H1 H2].
  apply (In_dict_get _ _ _ ND) in H1. rewrite Hk in H1. injection H1 as <-.
  simpl in H2. unfold dangling in Hd. unfold root_filter in H2.
  destruct (workflow_sibling_of t) as [w|] eqn:W.
  - apply andb_true_iff in Hd as [Hd1 _]. simpl in H2. rewrite Hd1 in H2.
    repeat (destruct (String.eqb view _); [now rewrite andb_false_r in H2|]).
    discriminate.
  - destruct (parent_id t) as [p|]; [|discriminate]. simpl in H2.
    repeat (destruct (String.eqb view _); [discriminate|]). discriminate.
Qed.

(** No task of the store lists the dangling task among its subtasks or
    workflow siblings. *)
Lemma dangling_not_child (p : string) :
  dict_mem tasks p = true -> ~ In k (children tasks p).
Proof.
  intros Hp H. apply children_In in H as [t' [H1 H2]].
  apply (In_dict_get _ _ _ ND) in H1. rewrite Hk in H1. injection H1 as <-.
  unfold dangling in Hd. unfold is_subtask, is_workflow_sibling in H2.
  destruct (workflow_sibling_of t) as [w|] eqn:W; simpl in *.
  - apply andb_true_iff in Hd as [Hd1 Hd2].
    rewrite Hd1 in H2. rewrite andb_false_r in H2.
    destruct H2 as [H2|H2]; [discriminate|].
    apply String.eqb_eq in H2. subst w. rewrite Hp in Hd2. discriminate.
  - destruct (parent_id t) as [q|]; [|discriminate]. simpl in H2.
    destruct H2 as [H2|H2]; [|discriminate].
    rewrite andb_true_r in H2. apply String.eqb_eq in H2. subst q.
    rewrite Hp in Hd. discriminate.
Qed.

Lemma layout_trace_skips_dangling (d : Dims) :
  forall fuel queue my mx W my' mx',
    (forall q, In q queue -> qid q <> k) ->
    layout_trace fuel d tasks queue my mx = Some (W, my', mx') ->
    ~ In k (keys W).
Proof.
  induction fuel as [|fuel IH]; intros queue my mx W my' mx' Hq H;
    destruct queue as [|[[[cid cx] cy] cl] queue]; simpl in H;
    try discriminate; try (injection H as <- _ _; now simpl).
  destruct (dict_get tasks cid) as [tc|] eqn:E.
  - destruct (layout_trace fuel d tasks _ _ _) as [[[W1 my1] mx1]|] eqn:T;
      [|discriminate].
    injection H as <- _ _. simpl. intros [Hc|Hc].
    + apply (Hq (cid, cx, cy, cl)); [now left | exact Hc].
    + revert Hc. eapply IH; [|exact T].
      assert (Hm : dict_mem tasks cid = true) by (apply dict_get_mem; eauto).
      intros q Hin Hqk. rewrite !in_app_iff in Hin.
      destruct Hin as [[Hin|Hin]|Hin].
      * apply (Hq q); [now right | exact Hqk].
      * apply (in_map qid) in Hin. rewrite queue_subtasks_ids, Hqk in Hin.
        apply (dangling_not_child cid Hm). unfold children.
        apply in_app_iff. now left.
      * apply (in_map qid) in Hin. rewrite queue_workflows_ids, Hqk in Hin.
        apply (dangling_not_child cid Hm). unfold children.
        apply in_app_iff. now right.
  - eapply IH; [|exact H]. intros q Hin. apply Hq. now right.
Qed.

Lemma render_roots_skips_dangling (fuel : nat) (d : Dims) :
  forall roots pos y pos',
    ~ In k roots ->
    ~ In k (keys pos) ->
    render_roots fuel d tasks roots pos y = Some pos' ->
    ~ In k (keys pos').
Proof.
  induction roots as [|r roots IH]; intros pos y pos' Hr Hp H; simpl in H.
  - now injection H as <-.
  - destruct (_render_task_tree fuel d tasks pos r 40 y 0) as [[pos1 h]|] eqn:R;
      [|discriminate].
    eapply IH; [| |exact H]; [intros Hin; apply Hr; now right|].
    unfold _render_task_tree in R.
    destruct (dict_get tasks r); [|now injection R as <- _].
    rewrite layout_loop_trace in R.
    destruct (layout_trace fuel d tasks [(r, 40, y, 0)] y 40)
      as [[[W my] mx]|] eqn:T; [|discriminate].
    injection R as <- _. intros Hin.
    apply apply_writes_keys_inv in Hin as [Hin|Hin]; [now apply Hp|].
    revert Hin. eapply layout_trace_skips_dangling; [|exact T].
    intros q [<-|[]]. unfold qid. simpl. intros ->. apply Hr. now left.
Qed.
End Dangling.

(** C9 (amended): a task whose [workflow_sibling_of] or, without it, whose
    [parent_id] names an id that is not in the store raises no error, but
    it is not treated as a root either: it is in the root list of no view,
    no task of the store lists it as subtask or workflow sibling, and a
    completed [refresh_pipeline] gives it no card.  Laying out an id that
    is not in the store returns height 0 and touches nothing. *)
Theorem dangling_reference_hides_task :
  forall (tasks : store) (k : string) (t : Task),
    NoDup (keys tasks) ->
    dict_get tasks k = Some t ->
    dangling tasks t = true ->
    (forall view sort_mode, ~ In k (root_tasks view sort_mode tasks))
    /\ (forall p, dict_mem tasks p = true -> ~ In k (children tasks p))
    /\ (forall fuel app app',
           self_tasks app = tasks ->
           refresh_pipeline fuel app = Some app' ->
           ~ In k (keys (self_task_positions app')))
    /\ (forall fuel d pos p x y level,
           dict_mem tasks p = false ->
           _render_task_tree fuel d tasks pos p x y level = Some (pos, 0)).
Proof.
  intros tasks k t ND Hk Hd. split; [|split; [|split]].
  - intros view sort_mode. now apply (dangling_not_root tasks k t).
  - intros p. now apply (dangling_not_child tasks k t).
  - intros fuel app app' <- H. unfold refresh_pipeline in H.
    destruct (root_tasks _ _ _) as [|r roots] eqn:R;
      [injection H as <-; simpl; tauto|].
    destruct (String.eqb _ "card"); [|injection H as <-; simpl; tauto].
    destruct (render_roots _ _ _ _ _ _) as [pos|] eqn:RR; [|discriminate].
    injection H as <-. simpl.
    eapply (render_roots_skips_dangling (self_tasks app) k t ND Hk Hd);
      [| |exact RR]; [|simpl; tauto].
    rewrite <- R. now apply (dangling_not_root (self_tasks app) k t).
  - intros fuel d pos p x y level Hp. unfold _render_task_tree.
    apply dict_get_None in Hp. now rewrite Hp.
Qed.

Lemma dangling_reference_hides_task_witness :
  NoDup (keys store_dangling)
  /\ dict_get store_dangling "T"
     = Some (new_task "T" (Some "ghost") None "2024-01-01T10:01:00" 2)
  /\ dangling store_dangling
       (new_task "T" (Some "ghost") None "2024-01-01T10:01:00" 2) = true
  /\ (forall view sort_mode, ~ In "T" (root_tasks view sort_mode store_dangling))
  /\ (forall p, dict_mem store_dangling p = true ->
                ~ In "T" (children store_dangling p))
  /\ (forall fuel app app',
         self_tasks app = store_dangling ->
         refresh_pipeline fuel app = Some app' ->
         ~ In "T" (keys (self_task_positions app')))
  /\ (forall fuel d pos p x y level,
         dict_mem store_dangling p = false ->
         _render_task_tree fuel d store_dangling pos p x y level = Some (pos, 0)).
Proof.
  assert (ND : NoDup (keys store_dangling)) by (apply nodupb_NoDup; reflexivity).
  split; [exact ND|]. split; [reflexivity|]. split; [reflexivity|].
  exact (dangling_reference_hides_task store_dangling "T" _ ND eq_refl eq_refl).
Defined.

(** C9 as stated fails: T's parent is not in the store, and T is not among
    the root tasks; [refresh_pipeline] lays out R alone. *)
Lemma dangling_parent_is_not_rendered_as_root :
  dict_mem store_dangling "ghost" = false
  /\ option_map parent_id (dict_get store_dangling "T") = Some (Some "ghost")
  /\ ~ In "T" (root_tasks "todo" "priority" store_dangling)
  /\ option_map self_task_positions (refresh_pipeline 1 (app_of store_dangling))
     = Some [("R", (40, 40, 240, 120))].
Proof.
  repeat split. intros [H|[]]. discriminate.
Qed.

(** ** Creating tasks *)

Lemma dict_set_fresh {V : Type} (d : list (string * V)) (k : string) (v : V) :
  dict_mem d k = false -> dict_set d k v = d ++ [(k, v)].
Proof.
  unfold dict_mem. induction d as [|[k1 v1] d IH]; simpl; [reflexivity|].
  rewrite orb_false_iff. intros [H1 H2].
  rewrite String.eqb_sym in H1. rewrite H1. now rewrite IH.
Qed.

Lemma dict_get_app_old {V : Type} (d : list (string * V)) (k k0 : string) (v : V) :
  k0 <> k -> dict_get (d ++ [(k, v)]) k0 = dict_get d k0.
Proof.
  intros Hne. induction d as [|[k1 v1] d IH]; simpl.
  - apply not_eq_sym, String.eqb_neq in Hne. now rewrite Hne.
  - now rewrite IH.
Qed.

Lemma dict_get_app_new {V : Type} (d : list (string * V)) (k : string) (v : V) :
  dict_mem d k = false -> dict_get (d ++ [(k, v)]) k = Some v.
Proof.
  unfold dict_mem. induction d as [|[k1 v1] d IH]; simpl.
  - now rewrite String.eqb_refl.
  - rewrite orb_false_iff. intros [H1 H2].
    rewrite String.eqb_sym in H1. rewrite H1. auto.
Qed.

Lemma next_priority_above (tasks : store) (k : string) (t : Task) :
  In (k, t) tasks -> priority_get_0 t < next_priority tasks.
Proof.
  intros H. unfold next_priority.
  assert (Hin : In (priority_get_0 t) (map (fun e => priority_get_0 (snd e)) tasks))
    by (apply in_map_iff; now exists (k, t)).
  destruct (map (fun e => priority_get_0 (snd e)) tasks) as [|p ps]; [destruct Hin|].
  destruct (py_max_spec p ps) as [_ Hmax]. specialize (Hmax _ Hin). lia.
Qed.

(** X1: creating a task with a title and a fresh id appends one task to
    the store and changes no other; the new task is neither completed nor
    stashed and its priority is greater than every priority in the store
    (1 in an empty store).  With an empty title nothing is created. *)
Theorem create_task_appends_with_top_priority :
  forall (tasks : store) (task_id title description : string)
         (parent : option string) (is_workflow : bool)
         (sibling_of : option string) (now : string),
    (create_task tasks task_id "" description parent is_workflow sibling_of now
     = None)
    /\ (NoDup (keys tasks) ->
        dict_mem tasks task_id = false ->
        title <> "" ->
        exists t',
          create_task tasks task_id title description parent is_workflow
                      sibling_of now = Some (tasks ++ [(task_id, t')])
          /\ NoDup (keys (tasks ++ [(task_id, t')]))
          /\ completed t' = false /\ stashed t' = false
          /\ parent_id t' = parent
          /\ priority t' = Some (next_priority tasks)
          /\ (tasks = [] -> next_priority tasks = 1)
          /\ (forall k t q, In (k, t) tasks -> priority t = Some q ->
                            q < next_priority tasks)).
Proof.
  intros tasks task_id title description parent is_workflow sibling_of now.
  split; [reflexivity|].
  intros ND Hfresh Htitle. unfold create_task.
  apply String.eqb_neq in Htitle. rewrite Htitle.
  rewrite dict_set_fresh by assumption.
  eexists. split; [reflexivity|]. simpl.
  split.
  { unfold keys. rewrite map_app. simpl.
    apply NoDup_app; [exact ND | repeat constructor; simpl; tauto |].
    intros a Ha [<-|[]]. apply dict_mem_In in Ha. congruence. }
  repeat split; auto.
  - now intros ->.
  - intros k t q Hin Hq. pose proof (next_priority_above tasks k t Hin) as H.
    unfold priority_get_0 in H. now rewrite Hq in H.
Qed.

Lemma create_task_appends_with_top_priority_witness :
  NoDup (keys store_xy)
  /\ dict_mem store_xy "Z" = false
  /\ "new" <> ""
  /\ exists t',
      create_task store_xy "Z" "new" "" None false None "2024-01-02T09:00:00"
      = Some (store_xy ++ [("Z", t')])
      /\ NoDup (keys (store_xy ++ [("Z", t')]))
      /\ completed t' = false /\ stashed t' = false
      /\ parent_id t' = None
      /\ priority t' = Some (next_priority store_xy)
      /\ (store_xy = [] -> next_priority store_xy = 1)
      /\ (forall k t q, In (k, t) store_xy -> priority t = Some q ->
                        q < next_priority store_xy).
Proof.
  assert (ND : NoDup (keys store_xy)) by (apply nodupb_NoDup; reflexivity).
  assert (Hne : "new" <> "") by discriminate.
  split; [exact ND|]. split; [reflexivity|]. split; [exact Hne|].
  exact (proj2 (create_task_appends_with_top_priority store_xy "Z" "new" ""
                  None false None "2024-01-02T09:00:00") ND eq_refl Hne).
Defined.

(** ** Accessors after a task was added *)

Lemma insert_by_ext_in {A K : Type} (leb : K -> K -> bool) (key1 key2 : A -> K)
      (x : A) (m : list A) :
  key1 x = key2 x -> (forall y, In y m -> key1 y = key2 y) ->
  insert_by leb key1 x m = insert_by leb key2 x m.
Proof.
  intros Hx. induction m as [|y m IH]; intros H; simpl; [reflexivity|].
  rewrite Hx, (H y) by now left.
  destruct (leb (key2 x) (key2 y)); [reflexivity|].
  f_equal. apply IH. intros; apply H; now right.
Qed.

Lemma sort_by_ext_in {A K : Type} (leb : K -> K -> bool) (key1 key2 : A -> K)
      (l : list A) :
  (forall x, In x l -> key1 x = key2 x) ->
  sort_by leb key1 l = sort_by leb key2 l.
Proof.
  induction l as [|x l IH]; intros H; simpl; [reflexivity|].
  rewrite IH by (intros; apply H; now right).
  apply insert_by_ext_in; [apply H; now left|].
  intros y Hy. apply H. right.
  exact (proj1 (sort_by_In leb key2 y l) Hy).
Qed.

Lemma insert_by_snoc {A K : Type} (leb : K -> K -> bool) (key : A -> K)
      (a x : A) (m : list A) :
  leb (key a) (key x) = true ->
  insert_by leb key a (m ++ [x]) = insert_by leb key a m ++ [x].
Proof.
  intros H. induction m as [|y m IH]; simpl; [now rewrite H|].
  destruct (leb (key a) (key y)); [reflexivity | now rewrite IH].
Qed.

Lemma sort_by_snoc {A K : Type} (leb : K -> K -> bool) (key : A -> K)
      (x : A) (l : list A) :
  (forall a, In a l -> leb (key a) (key x) = true) ->
  sort_by leb key (l ++ [x]) = sort_by leb key l ++ [x].
Proof.
  induction l as [|a l IH]; intros H; simpl; [reflexivity|].
  rewrite IH by (intros; apply H; now right).
  apply insert_by_snoc. apply H. now left.
Qed.

Lemma keys_filter_snoc (f : string * Task -> bool) (d : store) (e : string * Task) :
  keys (filter f (d ++ [e])) = keys (filter f d) ++ (if f e then [fst e] else []).
Proof.
  unfold keys. rewrite filter_app, map_app. simpl. now destruct (f e).
Qed.

Lemma key_priority_snoc (tasks : store) (k task_id : string) (t : Task) :
  k <> task_id ->
  key_priority (tasks ++ [(task_id, t)]) k = key_priority tasks k.
Proof. intros H. unfold key_priority. now rewrite dict_get_app_old. Qed.

Lemma key_created_snoc (tasks : store) (k task_id : string) (t : Task) :
  k <> task_id ->
  key_created (tasks ++ [(task_id, t)]) k = key_created tasks k.
Proof. intros H. unfold key_created. now rewrite dict_get_app_old. Qed.

Lemma filtered_key_old (f : string * Task -> bool) (tasks : store)
      (task_id k : string) :
  dict_mem tasks task_id = false -> In k (keys (filter f tasks)) -> k <> task_id.
Proof.
  intros Hf Hk ->. apply In_keys in Hk as [t Hk]. apply filter_In in Hk as [Hk _].
  assert (dict_mem tasks task_id = true) by (apply dict_mem_In, In_keys; eauto).
  congruence.
Qed.

(** The accessors on a store with one more task at its end. *)
Lemma get_subtasks_snoc (tasks : store) (task_id : string) (t : Task)
      (parent : string) :
  dict_mem tasks task_id = false ->
  (is_subtask parent t = false ->
   get_subtasks (tasks ++ [(task_id, t)]) parent = get_subtasks tasks parent)
  /\ (is_subtask parent t = true ->
      (forall a, In a (get_subtasks tasks parent) ->
                 key_priority tasks a <= priority_or_999 t) ->
      get_subtasks (tasks ++ [(task_id, t)]) parent
      = get_subtasks tasks parent ++ [task_id]).
Proof.
  intros Hf. unfold get_subtasks.
  rewrite keys_filter_snoc. simpl.
  assert (Hold : sort_by Z.leb (key_priority (tasks ++ [(task_id, t)]))
                   (keys (filter (fun e => is_subtask parent (snd e)) tasks))
                 = sort_by Z.leb (key_priority tasks)
                     (keys (filter (fun e => is_subtask parent (snd e)) tasks))).
  { apply sort_by_ext_in. intros x Hx. apply key_priority_snoc.
    eapply filtered_key_old; eauto. }
  split; intros Hs; rewrite Hs.
  - now rewrite app_nil_r.
  - intros Hle. rewrite sort_by_snoc; [now rewrite Hold|].
    intros a Ha. apply Z.leb_le.
    assert (Hne : a <> task_id) by (eapply filtered_key_old; eauto).
    rewrite key_priority_snoc by assumption.
    unfold key_priority at 2. rewrite dict_get_app_new by assumption.
    apply Hle. apply sort_by_In. exact Ha.
Qed.

Lemma get_workflow_siblings_snoc (tasks : store) (task_id : string) (t : Task)
      (anchor : string) :
  dict_mem tasks task_id = false ->
  (is_workflow_sibling anchor t = false ->
   get_workflow_siblings (tasks ++ [(task_id, t)]) anchor
   = get_workflow_siblings tasks anchor)
  /\ (is_workflow_sibling anchor t = true ->
      (forall a, In a (get_workflow_siblings tasks anchor) ->
                 String.leb (key_created tasks a) (created t) = true) ->
      get_workflow_siblings (tasks ++ [(task_id, t)]) anchor
      = get_workflow_siblings tasks anchor ++ [task_id]).
Proof.
  intros Hf. unfold get_workflow_siblings.
  rewrite keys_filter_snoc. simpl.
  assert (Hold : sort_by String.leb (key_created (tasks ++ [(task_id, t)]))
                   (keys (filter (fun e => is_workflow_sibling anchor (snd e)) tasks))
                 = sort_by String.leb (key_created tasks)
                     (keys (filter (fun e => is_workflow_sibling anchor (snd e)) tasks))).
  { apply sort_by_ext_in. intros x Hx. apply key_created_snoc.
    eapply filtered_key_old; eauto. }
  split; intros Hs; rewrite Hs.
  - now rewrite app_nil_r.
  - intros Hle. rewrite sort_by_snoc; [now rewrite Hold|].
    intros a Ha.
    assert (Hne : a <> task_id) by (eapply filtered_key_old; eauto).
    rewrite key_created_snoc by assumption.
    unfold key_created at 2. rewrite dict_get_app_new by assumption.
    apply Hle. apply sort_by_In. exact Ha.
Qed.

Lemma root_tasks_In (view sort_mode : string) (tasks : store) (k : string) :
  In k (root_tasks view sort_mode tasks) <->
  exists t, In (k, t) tasks /\ root_filter view t = true.
Proof.
  unfold root_tasks.
  assert (H : In k (keys (filter (fun e => root_filter view (snd e)) tasks)) <->
              exists t, In (k, t) tasks /\ root_filter view t = true).
  { rewrite In_keys. split; intros [t Ht]; exists t;
      [apply filter_In in Ht | apply filter_In]; exact Ht. }
  destruct (String.eqb sort_mode "priority"); now rewrite sort_by_In.
Qed.

Lemma root_filter_is_root (view : string) (t : Task) :
  root_filter view t = true -> is_root t = true.
Proof.
  unfold root_filter, is_root.
  repeat (destruct (String.eqb view _); [|]); try discriminate;
    destruct (is_None (parent_id t)), (truthy (workflow_sibling_of t));
    simpl; rewrite ?andb_false_r; auto.
Qed.

(** X2: a subtask added under [parent] (fresh id, title given) in a store
    whose priorities are all set and positive is listed by
    [get_subtasks parent] after the subtasks that were there; no other
    subtask list and no workflow list changes. *)
Theorem add_subtask_is_listed_last :
  forall (tasks : store) (parent task_id title description now : string),
    NoDup (keys tasks) ->
    dict_mem tasks task_id = false ->
    title <> "" ->
    (forall k t, In (k, t) tasks -> exists q, priority t = Some q /\ 0 < q) ->
    exists tasks',
      add_subtask tasks parent task_id title description now = Some tasks'
      /\ get_subtasks tasks' parent = get_subtasks tasks parent ++ [task_id]
      /\ (forall k, k <> parent -> get_subtasks tasks' k = get_subtasks tasks k)
      /\ (forall k, get_workflow_siblings tasks' k = get_workflow_siblings tasks k).
Proof.
  intros tasks parent task_id title description now ND Hf Ht Hpos.
  unfold add_subtask, create_task.
  apply String.eqb_neq in Ht. rewrite Ht. rewrite dict_set_fresh by assumption.
  simpl. eexists. split; [reflexivity|].
  set (t := mkTask task_id title description false false (Some parent) None now
                   (Some (next_priority tasks))).
  split; [|split].
  - apply (proj2 (get_subtasks_snoc tasks task_id t parent Hf)).
    + unfold is_subtask. simpl. now rewrite String.eqb_refl.
    + intros a Ha. apply get_subtasks_In in Ha as [ta [Hin _]].
      unfold key_priority. rewrite (In_dict_get _ _ _ ND Hin).
      destruct (Hpos _ _ Hin) as [q [Hq Hq0]].
      pose proof (next_priority_above tasks a ta Hin) as Hlt.
      unfold priority_get_0 in Hlt. rewrite Hq in Hlt.
      unfold priority_or_999. simpl. rewrite Hq.
      destruct (Z.eqb_spec q 0); [lia|].
      destruct (Z.eqb_spec (next_priority tasks) 0); lia.
  - intros k Hk. apply (proj1 (get_subtasks_snoc tasks task_id t k Hf)).
    unfold is_subtask. simpl. apply not_eq_sym, String.eqb_neq in Hk.
    now rewrite Hk.
  - intros k. apply (proj1 (get_workflow_siblings_snoc tasks task_id t k Hf)).
    reflexivity.
Qed.

Lemma add_subtask_is_listed_last_witness :
  NoDup (keys store_xy)
  /\ dict_mem store_xy "Z" = false
  /\ "new" <> ""
  /\ (forall k t, In (k, t) store_xy -> exists q, priority t = Some q /\ 0 < q)
  /\ exists tasks',
      add_subtask store_xy "X" "Z" "new" "" "2024-01-02T09:00:00" = Some tasks'
      /\ get_subtasks tasks' "X" = get_subtasks store_xy "X" ++ ["Z"]
      /\ (forall k, k <> "X" -> get_subtasks tasks' k = get_subtasks store_xy k)
      /\ (forall k, get_workflow_siblings tasks' k
                    = get_workflow_siblings store_xy k).
Proof.
  assert (ND : NoDup (keys store_xy)) by (apply nodupb_NoDup; reflexivity).
  assert (Hne : "new" <> "") by discriminate.
  assert (Hpos : forall k t, In (k, t) store_xy ->
                             exists q, priority t = Some q /\ 0 < q).
  { intros k t [H|[H|[]]]; injection H as <- <-; eexists; split;
      try reflexivity; lia. }
  split; [exact ND|]. split; [reflexivity|]. split; [exact Hne|].
  split; [exact Hpos|].
  exact (add_subtask_is_listed_last store_xy "X" "Z" "new" ""
           "2024-01-02T09:00:00" ND eq_refl Hne Hpos).
Defined.

(** X3: a workflow sibling added to an existing anchor (whose id is not
    empty) shares the anchor's parent, is listed by
    [get_workflow_siblings anchor] - last, when no sibling there was
    created later than it -, is a subtask of nothing and a root of no
    view; no other list changes.  For a missing anchor nothing is
    created. *)
Theorem add_workflow_sibling_is_listed :
  forall (tasks : store) (anchor task_id title description now : string),
    (dict_mem tasks anchor = false ->
     add_workflow_sibling tasks anchor task_id title description now = None)
    /\ (forall ta,
           NoDup (keys tasks) ->
           dict_get tasks anchor = Some ta ->
           anchor <> "" ->
           dict_mem tasks task_id = false ->
           title <> "" ->
           exists tasks' t',
             add_workflow_sibling tasks anchor task_id title description now
             = Some tasks'
             /\ dict_get tasks' task_id = Some t'
             /\ parent_id t' = parent_id ta
             /\ workflow_sibling_of t' = Some anchor
             /\ In task_id (get_workflow_siblings tasks' anchor)
             /\ (forall k, get_subtasks tasks' k = get_subtasks tasks k)
             /\ (forall k, k <> anchor ->
                           get_workflow_siblings tasks' k
                           = get_workflow_siblings tasks k)
             /\ (forall view sort_mode,
                    ~ In task_id (root_tasks view sort_mode tasks'))
             /\ ((forall k t, In (k, t) tasks ->
                              workflow_sibling_of t = Some anchor ->
                              String.leb (created t) now = true) ->
                 get_workflow_siblings tasks' anchor
                 = get_workflow_siblings tasks anchor ++ [task_id])).
Proof.
  intros tasks anchor task_id title description now. split.
  - intros H. unfold add_workflow_sibling.
    apply dict_get_None in H. now rewrite H.
  - intros ta ND Ha Hne Hf Ht. unfold add_workflow_sibling, create_task.
    rewrite Ha. apply String.eqb_neq in Ht. rewrite Ht.
    rewrite dict_set_fresh by assumption. simpl.
    assert (Hw : negb (String.eqb anchor "") = true)
      by (apply negb_true_iff, String.eqb_neq; exact Hne).
    rewrite Hw.
    set (t := mkTask task_id title description false false (parent_id ta)
                     (Some anchor) now (Some (next_priority tasks))).
    assert (ND' : NoDup (keys (tasks ++ [(task_id, t)]))).
    { unfold keys. rewrite map_app. simpl.
      apply NoDup_app; [exact ND | repeat constructor; simpl; tauto |].
      intros a Hin [<-|[]]. apply dict_mem_In in Hin. congruence. }
    assert (Hsib : is_workflow_sibling anchor t = true)
      by (unfold is_workflow_sibling; simpl; apply String.eqb_refl).
    exists (tasks ++ [(task_id, t)]), t.
    split; [reflexivity|]. split; [now apply dict_get_app_new|].
    split; [reflexivity|]. split; [reflexivity|].
    split; [|split; [|split; [|split]]].
    + apply get_workflow_siblings_In. exists t. split; [|exact Hsib].
      apply in_or_app. right. now left.
    + intros k. apply (proj1 (get_subtasks_snoc tasks task_id t k Hf)).
      unfold is_subtask. simpl. rewrite Hw. apply andb_false_r.
    + intros k Hk. apply (proj1 (get_workflow_siblings_snoc tasks task_id t k Hf)).
      unfold is_workflow_sibling. simpl. now apply String.eqb_neq.
    + intros view sort_mode H. apply root_tasks_In in H as [t0 [Hin Hr]].
      apply (In_dict_get _ _ _ ND') in Hin.
      rewrite dict_get_app_new in Hin by assumption. injection Hin as <-.
      apply root_filter_is_root in Hr. unfold is_root in Hr. simpl in Hr.
      rewrite Hw in Hr. now rewrite andb_false_r in Hr.
    + intros Hle.
      apply (proj2 (get_workflow_siblings_snoc tasks task_id t anchor Hf) Hsib).
      intros a Hin. apply get_workflow_siblings_In in Hin as [t0 [Hin Hs]].
      unfold key_created. rewrite (In_dict_get _ _ _ ND Hin). simpl.
      apply (Hle a t0 Hin). now apply get_eqb_true.
Qed.

Lemma add_workflow_sibling_is_listed_witness :
  NoDup (keys store_abc)
  /\ dict_get store_abc "B"
     = Some (new_task "B" (Some "A") None "2024-01-01T10:01:00" 999)
  /\ "B" <> ""
  /\ dict_mem store_abc "D" = false
  /\ "next step" <> ""
  /\ exists tasks' t',
      add_workflow_sibling store_abc "B" "D" "next step" "" "2024-01-02T09:00:00"
      = Some tasks'
      /\ dict_get tasks' "D" = Some t'
      /\ parent_id t' = Some "A"
      /\ workflow_sibling_of t' = Some "B"
      /\ In "D" (get_workflow_siblings tasks' "B").
Proof.
  assert (ND : NoDup (keys store_abc)) by (apply nodupb_NoDup; reflexivity).
  assert (Hb : "B" <> "") by discriminate.
  assert (Ht : "next step" <> "") by discriminate.
  split; [exact ND|]. split; [reflexivity|]. split; [exact Hb|].
  split; [reflexivity|]. split; [exact Ht|].
  destruct (proj2 (add_workflow_sibling_is_listed store_abc "B" "D" "next step"
                     "" "2024-01-02T09:00:00") _ ND eq_refl Hb eq_refl Ht)
    as [tasks' [t' [H1 [H2 [H3 [H4 [H5 _]]]]]]].
  exists tasks', t'. repeat split; assumption.
Defined.

(** ** Status flags and views *)

Lemma toggle_done_status_as_update (tasks : store) (task_id status : string) :
  toggle_done_status tasks task_id status =
  dict_update tasks task_id
    (fun t => if String.eqb status DONE_LABEL
              then set_stashed false (set_completed true t)
              else set_completed false t).
Proof.
  unfold toggle_done_status.
  destruct (dict_mem tasks task_id) eqn:M.
  - rewrite dict_update_get.
    apply dict_get_mem in M as [t Ht]. rewrite Ht. simpl.
    destruct (String.eqb status DONE_LABEL); [apply dict_update_twice | reflexivity].
  - symmetry. now apply dict_update_absent.
Qed.

Lemma dict_update_In_inv (tasks : store) (k k0 : string) (f : Task -> Task)
      (t' : Task) :
  In (k0, t') (dict_update tasks k f) ->
  In (k0, t') tasks \/ exists t, In (k0, t) tasks /\ k0 = k /\ t' = f t.
Proof.
  unfold dict_update. rewrite in_map_iff. intros [[k1 t1] [E H]]. simpl in E.
  str_cases k1 k; injection E as <- <-; [right; eauto | now left].
Qed.

Lemma update_keys_In_inv (D : list string) (f : Task -> Task) (tasks : store)
      (k : string) (t' : Task) :
  In (k, t') (update_keys D f tasks) ->
  In (k, t') tasks \/ exists t, In (k, t) tasks /\ t' = f t.
Proof.
  intros H. apply update_keys_In in H as [t [H ->]].
  destruct (existsb (String.eqb k) D); [right; eauto | now left].
Qed.

Lemma dict_set_In_inv {V : Type} (d : list (string * V)) (k k0 : string) (v v0 : V) :
  In (k0, v0) (dict_set d k v) -> In (k0, v0) d \/ (k0 = k /\ v0 = v).
Proof.
  induction d as [|[k1 v1] d IH]; simpl.
  - intros [H|[]]. injection H as <- <-. now right.
  - str_cases k1 k; simpl.
    + intros [H|H]; [injection H as <- <-; now right | now left; right].
    + intros [H|H]; [now left; left|]. destruct (IH H); auto.
Qed.

(** X4: when no task of the store is both completed and stashed, none is
    after the done toggle, after the stash cascade or the stash toggle
    (whenever they return), or after a task was created: the transitions
    keep the two flags exclusive. *)
Theorem status_exclusive_is_kept :
  forall (tasks : store),
    status_exclusive tasks ->
    (forall task_id status,
        status_exclusive (toggle_done_status tasks task_id status))
    /\ (forall fuel task_id b tasks',
           _set_stash_recursive fuel tasks task_id b = Some tasks' ->
           status_exclusive tasks')
    /\ (forall fuel task_id tasks',
           toggle_stash_status fuel tasks task_id = Some tasks' ->
           status_exclusive tasks')
    /\ (forall task_id title description parent is_workflow sibling_of now tasks',
           create_task tasks task_id title description parent is_workflow
                       sibling_of now = Some tasks' ->
           status_exclusive tasks').
Proof.
  intros tasks Hex.
  assert (Hstash : forall fuel task_id b tasks',
             _set_stash_recursive fuel tasks task_id b = Some tasks' ->
             status_exclusive tasks').
  { intros fuel task_id b tasks' E.
    destruct (dict_mem tasks task_id) eqn:M.
    - apply (set_stash_recursive_spec b _ _ _ _ M) in E as [D [-> _]].
      intros k t' Hin. apply update_keys_In_inv in Hin as [Hin|[t [Hin ->]]].
      + eapply Hex; eauto.
      + destruct b; simpl; [reflexivity | apply andb_false_r].
    - destruct fuel; simpl in E; [discriminate|]. rewrite M in E. simpl in E.
      now injection E as <-. }
  split; [|split; [exact Hstash|split]].
  - intros task_id status. rewrite toggle_done_status_as_update.
    intros k t' Hin. apply dict_update_In_inv in Hin as [Hin|[t [Hin [_ ->]]]].
    + eapply Hex; eauto.
    + destruct (String.eqb status DONE_LABEL); reflexivity.
  - intros fuel task_id tasks'. unfold toggle_stash_status.
    destruct (dict_get tasks task_id); [apply Hstash|].
    intros E. now injection E as <-.
  - intros task_id title description parent is_workflow sibling_of now tasks'.
    unfold create_task. destruct (String.eqb title ""); [discriminate|].
    intros E. injection E as <-. intros k t' Hin.
    apply dict_set_In_inv in Hin as [Hin|[_ ->]]; [eapply Hex; eauto | reflexivity].
Qed.

Lemma status_exclusive_is_kept_witness :
  status_exclusive store_abc
  /\ (forall task_id status,
         status_exclusive (toggle_done_status store_abc task_id status)).
Proof.
  assert (H : status_exclusive store_abc).
  { intros k t [E|[E|[E|[]]]]; injection E as <- <-; reflexivity. }
  split; [exact H|].
  exact (proj1 (status_exclusive_is_kept store_abc H)).
Defined.

(** X5: in a store where no task is both completed and stashed, every
    root task is listed by exactly one of the three views (by "done" when
    completed, by "stash" when stashed, by "todo" otherwise), and a task
    that is not a root is listed by none. *)
Theorem each_root_is_in_one_view :
  forall (tasks : store) (k : string) (t : Task) (sort_mode : string),
    NoDup (keys tasks) ->
    status_exclusive tasks ->
    dict_get tasks k = Some t ->
    let todo := In k (root_tasks "todo" sort_mode tasks) in
    let done := In k (root_tasks "done" sort_mode tasks) in
    let stash := In k (root_tasks "stash" sort_mode tasks) in
    (is_root t = true ->
     (todo <-> completed t = false /\ stashed t = false)
     /\ (done <-> completed t = true)
     /\ (stash <-> stashed t = true)
     /\ ((todo /\ ~ done /\ ~ stash) \/ (~ todo /\ done /\ ~ stash)
         \/ (~ todo /\ ~ done /\ stash)))
    /\ (is_root t = false -> ~ todo /\ ~ done /\ ~ stash).
Proof.
  intros tasks k t sort_mode ND Hex Hk todo done stash.
  assert (Hin : forall view, In k (root_tasks view sort_mode tasks) <->
                             root_filter view t = true).
  { intros view. rewrite root_tasks_In. split.
    - intros [t0 [H1 H2]]. apply (In_dict_get _ _ _ ND) in H1. congruence.
    - intros H. exists t. split; [now apply dict_get_In | exact H]. }
  pose proof (Hex k t (dict_get_In _ _ _ Hk)) as Hx.
  unfold todo, done, stash. rewrite !Hin. unfold root_filter, is_root. simpl.
  destruct (is_None (parent_id t)), (truthy (workflow_sibling_of t)),
    (completed t), (stashed t); simpl in *; try discriminate;
    split; intros Hr; try discriminate; intuition discriminate.
Qed.

Lemma each_root_is_in_one_view_witness :
  NoDup (keys store_abc)
  /\ status_exclusive store_abc
  /\ dict_get store_abc "A" = Some (new_task "A" None None "2024-01-01T10:00:00" 999)
  /\ (In "A" (root_tasks "todo" "priority" store_abc)
      <-> completed (new_task "A" None None "2024-01-01T10:00:00" 999) = false
          /\ stashed (new_task "A" None None "2024-01-01T10:00:00" 999) = false).
Proof.
  assert (ND : NoDup (keys store_abc)) by (apply nodupb_NoDup; reflexivity).
  assert (H : status_exclusive store_abc).
  { intros k t [E|[E|[E|[]]]]; injection E as <- <-; reflexivity. }
  split; [exact ND|]. split; [exact H|]. split; [reflexivity|].
  exact (proj1 (proj1 (each_root_is_in_one_view store_abc "A" _ "priority"
                         ND H eq_refl) eq_refl)).
Defined.

(** ** Editing *)






(** ** After a delete *)

(** X7: when a confirmed delete returns, every task that was reached from
    the deleted one is gone, and [get_subtasks] and [get_workflow_siblings]
    of each of them are empty; the lists of the other tasks lose exactly
    the tasks that were reached.  No task that is left names a deleted
    task in [workflow_sibling_of]; one that names a deleted task in
    [parent_id] carries a workflow link, so that it was not a subtask of
    it.  Without confirmation the store is left alone. *)
Theorem delete_task_leaves_lists_consistent :
  forall (fuel : nat) (tasks : store) (task_id : string),
    delete_task fuel tasks task_id false = Some tasks
    /\ (forall tasks',
           delete_task fuel tasks task_id true = Some tasks' ->
           (forall d, reachable tasks task_id d ->
                      dict_mem tasks' d = false
                      /\ get_subtasks tasks' d = []
                      /\ get_workflow_siblings tasks' d = [])
           /\ (forall k c, In c (children tasks' k) <->
                           In c (children tasks k)
                           /\ ~ reachable tasks task_id c)
           /\ (forall k t d,
                  In (k, t) tasks' -> reachable tasks task_id d ->
                  workflow_sibling_of t <> Some d
                  /\ (parent_id t = Some d ->
                      truthy (workflow_sibling_of t) = true))).
Proof.
  intros fuel tasks task_id. split; [reflexivity|].
  intros tasks' E. simpl in E.
  apply delete_recursive_spec in E as [D [-> HD]].
  assert (HC : closed D tasks).
  { intros a b Ha Hb. apply HD. apply HD in Ha. eapply reach_step; eauto. }
  split; [|split].
  - intros d Hd. apply HD in Hd. split.
    + apply existsb_eqb_notIn. intros H. apply In_keys in H as [t H].
      apply remove_keys_In in H as [_ H]. contradiction.
    + apply app_eq_nil.
      change (children (remove_keys D tasks) d = []).
      destruct (children (remove_keys D tasks) d) as [|c l] eqn:C; [reflexivity|].
      assert (Hc : In c (children (remove_keys D tasks) d)) by (rewrite C; now left).
      apply children_remove_keys in Hc as [Hc Hn].
      exfalso. apply Hn. eapply HC; eauto.
  - intros k c. rewrite children_remove_keys, HD. tauto.
  - intros k t d Hin Hd. apply remove_keys_In in Hin as [Hin Hk].
    assert (Hnot : ~ In k (children tasks d)).
    { intros Hc. apply Hk. apply HD. eapply reach_step; eauto. }
    rewrite children_In in Hnot. split.
    + intros Hw. apply Hnot. exists t. split; [exact Hin|]. right.
      unfold is_workflow_sibling. now apply get_eqb_true.
    + intros Hp. destruct (truthy (workflow_sibling_of t)) eqn:Et; [reflexivity|].
      exfalso. apply Hnot. exists t. split; [exact Hin|]. left.
      unfold is_subtask. rewrite Et.
      rewrite (proj2 (get_eqb_true (parent_id t) d) Hp). reflexivity.
Qed.

Lemma delete_task_leaves_lists_consistent_witness :
  delete_task 3 store_abc "B" true
  = Some [entry "A" None None "2024-01-01T10:00:00" 999]
  /\ (forall d, reachable store_abc "B" d ->
                dict_mem [entry "A" None None "2024-01-01T10:00:00" 999] d = false
                /\ get_subtasks [entry "A" None None "2024-01-01T10:00:00" 999] d
                   = []
                /\ get_workflow_siblings
                     [entry "A" None None "2024-01-01T10:00:00" 999] d = []).
Proof.
  split; [reflexivity|].
  exact (proj1 (proj2 (delete_task_leaves_lists_consistent 3 store_abc "B")
                      _ eq_refl)).
Defined.

(** A reference can be left dangling: [c] is listed as the workflow
    sibling of [w], not as a subtask of its parent [d]; deleting [d]
    leaves [c] in the store, its [parent_id] still naming [d]. *)
Example delete_task_can_leave_a_parent_reference :
  delete_task 1 store_shared_child "d" true
  = Some [ entry "w" None None "2024-01-01T10:01:00" 2;
           entry "c" (Some "d") (Some "w") "2024-01-01T10:02:00" 3 ].
Proof. reflexivity. Qed.

(** ** Stashing and taking back *)

Lemma stash_then_unstash (t : Task) :
  completed t = false -> stashed t = false ->
  stash_effect false (stash_effect true t) = t.
Proof. destruct t. simpl. now intros -> ->. Qed.

(** X8: on a store without cycles, toggling the stash of a task whose
    whole subtree is neither stashed nor completed, and toggling it again,
    gives back the store as it was. *)
Theorem toggle_stash_twice_restores :
  forall (rk : string -> nat) (fuel : nat) (tasks : store) (root : string),
    ranked rk tasks = true ->
    (rk root < fuel)%nat ->
    dict_mem tasks root = true ->
    (forall k t, In (k, t) tasks -> reachable tasks root k ->
                 completed t = false /\ stashed t = false) ->
    exists tasks1,
      toggle_stash_status fuel tasks root = Some tasks1
      /\ (forall k t, In (k, t) tasks1 -> reachable tasks root k ->
                      stashed t = true)
      /\ toggle_stash_status fuel tasks1 root = Some tasks.
Proof.
  intros rk fuel tasks root HR Hf Hroot Hclean.
  pose proof Hroot as Hget. apply dict_get_mem in Hget as [t0 Ht0].
  assert (Hs0 : stashed t0 = false).
  { eapply Hclean; [eapply dict_get_In; eauto | apply reach_root]. }
  unfold toggle_stash_status at 1. rewrite Ht0, Hs0. simpl.
  destruct (set_stash_recursive_terminates rk true fuel tasks root HR Hf)
    as [tasks1 E1].
  destruct (set_stash_recursive_spec true _ _ _ _ Hroot E1) as [R1 [-> HR1]].
  exists (update_keys R1 (stash_effect true) tasks).
  split; [exact E1|]. split.
  { intros k t Hin Hr. apply update_keys_In in Hin as [t1 [_ ->]].
    apply HR1, existsb_eqb_In in Hr. now rewrite Hr. }
  unfold toggle_stash_status.
  rewrite update_keys_get, Ht0. simpl.
  assert (Hin1 : existsb (String.eqb root) R1 = true)
    by (apply existsb_eqb_In, HR1, reach_root).
  rewrite Hin1. simpl.
  assert (HR' : ranked rk (update_keys R1 (stash_effect true) tasks) = true)
    by now rewrite (update_keys_ranked _ (stash_effect_preserves true)).
  destruct (set_stash_recursive_terminates rk false fuel _ root HR' Hf)
    as [tasks2 E2].
  rewrite E2. f_equal.
  assert (Hroot' : dict_mem (update_keys R1 (stash_effect true) tasks) root = true)
    by now rewrite update_keys_mem.
  destruct (set_stash_recursive_spec false _ _ _ _ Hroot' E2) as [R2 [-> HR2]].
  unfold update_keys. rewrite map_map. rewrite <- (map_id tasks) at 2.
  apply map_ext_in. intros [k t] Hin. simpl.
  destruct (existsb (String.eqb k) R1) eqn:M1; simpl.
  - assert (Hr : reachable tasks root k) by (apply HR1, existsb_eqb_In; exact M1).
    assert (M2 : existsb (String.eqb k) R2 = true).
    { apply existsb_eqb_In, HR2.
      now apply (update_keys_reachable _ (stash_effect_preserves true)). }
    rewrite M2. f_equal.
    destruct (Hclean k t Hin Hr). now apply stash_then_unstash.
  - assert (M2 : existsb (String.eqb k) R2 = false).
    { apply existsb_eqb_notIn. intros H. apply HR2 in H.
      apply (update_keys_reachable _ (stash_effect_preserves true)) in H.
      apply HR1, existsb_eqb_In in H. congruence. }
    now rewrite M2.
Qed.

Lemma toggle_stash_twice_restores_witness :
  ranked rank_abc store_abc = true
  /\ (rank_abc "A" < 3)%nat
  /\ dict_mem store_abc "A" = true
  /\ exists tasks1,
      toggle_stash_status 3 store_abc "A" = Some tasks1
      /\ (forall k t, In (k, t) tasks1 -> reachable store_abc "A" k ->
                      stashed t = true)
      /\ toggle_stash_status 3 tasks1 "A" = Some store_abc.
Proof.
  split; [reflexivity|]. split; [vm_compute; apply le_n|].
  split; [reflexivity|].
  apply (toggle_stash_twice_restores rank_abc 3 store_abc "A" eq_refl (le_n 3)
           eq_refl).
  intros k t [E|[E|[E|[]]]] _; injection E as <- <-; split; reflexivity.
Defined.

(** ** Priorities that are set, positive and different *)

Lemma priorities_distinct_perm (tasks tasks' : store) :
  Permutation (map (fun e => priority (snd e)) tasks)
              (map (fun e => priority (snd e)) tasks') ->
  priorities_distinct tasks -> priorities_distinct tasks'.
Proof.
  intros P [Hset [Hnd Hpos]].
  assert (Hback : forall k t, In (k, t) tasks' ->
                              exists k0 t0, In (k0, t0) tasks
                                            /\ priority t0 = priority t).
  { intros k t Hin.
    assert (H : In (priority t) (map (fun e => priority (snd e)) tasks')).
    { apply in_map_iff. now exists (k, t). }
    apply (Permutation_in _ (Permutation_sym P)) in H.
    apply in_map_iff in H as [[k0 t0] [E H]]. eauto. }
  split; [|split].
  - intros k t Hin Hn. destruct (Hback k t Hin) as [k0 [t0 [H0 E]]].
    apply (Hset k0 t0 H0). congruence.
  - eapply Permutation_NoDup; eauto.
  - intros k t p Hin Hp. destruct (Hback k t Hin) as [k0 [t0 [H0 E]]].
    apply (Hpos k0 t0 p H0). congruence.
Qed.

Lemma priorities_distinct_nonzero (tasks : store) (k : string) (t : Task) :
  priorities_distinct tasks -> In (k, t) tasks ->
  exists p, priority t = Some p /\ 0 < p.
Proof.
  intros [Hset [_ Hpos]] Hin.
  destruct (priority t) as [p|] eqn:P; [|now apply Hset in Hin].
  exists p. split; [reflexivity | eapply Hpos; eauto].
Qed.

(** X9: in a store whose priorities are set, positive and pairwise
    different, they stay so when a task is created and when a task is
    moved up or down; a drag-and-drop swap of two tasks exchanges exactly
    their two priorities and keeps the property as well.  (These are the
    stores the program builds by itself; in them no priority is 0, so the
    [or 999] of the swap does not interfere.) *)
Theorem priorities_distinct_is_kept :
  forall (tasks : store),
    NoDup (keys tasks) ->
    priorities_distinct tasks ->
    (forall task_id title description parent is_workflow sibling_of now tasks',
        dict_mem tasks task_id = false ->
        create_task tasks task_id title description parent is_workflow
                    sibling_of now = Some tasks' ->
        priorities_distinct tasks')
    /\ (forall task_id, priorities_distinct (move_priority_up tasks task_id))
    /\ (forall task_id, priorities_distinct (move_priority_down tasks task_id))
    /\ (forall drag dropped td tp,
           drag <> dropped ->
           dict_get tasks drag = Some td ->
           dict_get tasks dropped = Some tp ->
           exists tasks',
             swap_priorities tasks drag dropped = Some tasks'
             /\ priorities_distinct tasks'
             /\ keys tasks' = keys tasks
             /\ option_map priority (dict_get tasks' drag) = Some (priority tp)
             /\ option_map priority (dict_get tasks' dropped) = Some (priority td)
             /\ (forall k, k <> drag -> k <> dropped ->
                           dict_get tasks' k = dict_get tasks k)).
Proof.
  intros tasks ND HP.
  split; [|split; [|split]].
  - intros task_id title description parent is_workflow sibling_of now tasks' Hf.
    unfold create_task. destruct (String.eqb title ""); [discriminate|].
    intros E. injection E as <-. rewrite dict_set_fresh by assumption.
    destruct HP as [Hset [Hnd Hpos]]. split; [|split].
    + intros k t Hin. apply in_app_iff in Hin as [Hin|[Hin|[]]];
        [now apply (Hset k t) | injection Hin as <- <-; discriminate].
    + rewrite map_app. simpl. apply NoDup_app; [exact Hnd | repeat constructor; simpl; tauto |].
      intros a Ha [<-|[]]. apply in_map_iff in Ha as [[k t] [E Hin]]. simpl in E.
      pose proof (next_priority_above tasks k t Hin) as Hlt.
      unfold priority_get_0 in Hlt. rewrite E in Hlt. lia.
    + intros k t p Hin Hp. apply in_app_iff in Hin as [Hin|[Hin|[]]];
        [now apply (Hpos k t) |].
      injection Hin as <- <-. simpl in Hp. injection Hp as <-.
      destruct tasks as [|[k0 t0] tasks0]; [reflexivity|].
      destruct (priorities_distinct_nonzero _ k0 t0 (conj Hset (conj Hnd Hpos))
                  (or_introl eq_refl)) as [q [Hq Hq0]].
      pose proof (next_priority_above ((k0, t0) :: tasks0) k0 t0 (or_introl eq_refl))
        as Hlt.
      unfold priority_get_0 in Hlt. rewrite Hq in Hlt. lia.
  - intros task_id. eapply priorities_distinct_perm; [|exact HP].
    apply (move_priority_permutes tasks task_id ND (proj1 HP)).
  - intros task_id. eapply priorities_distinct_perm; [|exact HP].
    apply (move_priority_permutes tasks task_id ND (proj1 HP)).
  - intros drag dropped td tp Hne Hd Hp.
    destruct (priorities_distinct_nonzero _ drag td HP (dict_get_In _ _ _ Hd))
      as [a [Ha Ha0]].
    destruct (priorities_distinct_nonzero _ dropped tp HP (dict_get_In _ _ _ Hp))
      as [b [Hb Hb0]].
    destruct (swap_priorities_permutes tasks drag dropped td tp a b ND Hne
                Hd Ha ltac:(lia) Hp Hb ltac:(lia)) as [E P].
    exists (swap_into tasks drag b dropped a).
    split; [exact E|]. split; [eapply priorities_distinct_perm; eauto|].
    split; [unfold swap_into; now rewrite !dict_update_keys|].
    split; [|split].
    + rewrite swap_into_get by assumption.
      apply String.eqb_neq in Hne. rewrite Hne, String.eqb_refl, Hd. simpl.
      now rewrite Hb.
    + rewrite swap_into_get by assumption.
      rewrite String.eqb_refl, Hp. simpl. now rewrite Ha.
    + intros k H1 H2. rewrite swap_into_get by assumption.
      apply String.eqb_neq in H1, H2. now rewrite H2, H1.
Qed.

Lemma priorities_distinct_is_kept_witness :
  NoDup (keys store_xy)
  /\ priorities_distinct store_xy
  /\ priorities_distinct (move_priority_up store_xy "X").
Proof.
  assert (ND : NoDup (keys store_xy)) by (apply nodupb_NoDup; reflexivity).
  assert (HP : priorities_distinct store_xy).
  { split; [|split].
    - intros k t [H|[H|[]]]; injection H as <- <-; discriminate.
    - simpl. repeat constructor; simpl; intuition discriminate.
    - intros k t p [H|[H|[]]]; injection H as <- <-; simpl; intros E;
        injection E as <-; lia. }
  split; [exact ND|]. split; [exact HP|].
  exact (proj1 (proj2 (priorities_distinct_is_kept store_xy ND HP)) "X").
Defined.

(** ** Moving up and back down *)

Lemma NoDup_map_inj {A B : Type} (f : A -> B) (l : list A) (a b : A) :
  NoDup (map f l) -> In a l -> In b l -> f a = f b -> a = b.
Proof.
  induction l as [|x l IH]; simpl; [tauto|].
  intros ND Ha Hb E. inversion ND as [|? ? Hn ND']; subst.
  destruct Ha as [<-|Ha], Hb as [<-|Hb]; auto.
  - exfalso. apply Hn. rewrite E. now apply in_map.
  - exfalso. apply Hn. rewrite <- E. now apply in_map.
Qed.

Lemma set_priority_same (t : Task) (p q : Z) :
  priority t = Some p -> set_priority p (set_priority q t) = t.
Proof. destruct t. simpl. now intros ->. Qed.

Lemma swap_into_back (tasks : store) (tid k : string) (tt t : Task)
      (cur target : Z) :
  NoDup (keys tasks) ->
  tid <> k ->
  dict_get tasks tid = Some tt -> priority tt = Some target ->
  dict_get tasks k = Some t -> priority t = Some cur ->
  swap_into (swap_into tasks tid cur k target) tid target k cur = tasks.
Proof.
  intros ND Hne Htt Hpt Ht Hp. unfold swap_into, dict_update.
  rewrite !map_map. rewrite <- (map_id tasks) at 2.
  apply map_ext_in. intros [k0 t0] Hin. simpl.
  apply (In_dict_get _ _ _ ND) in Hin.
  str_cases k0 tid; simpl.
  - subst k0. apply String.eqb_neq in Hne. rewrite Hne. simpl.
    rewrite String.eqb_refl. simpl. rewrite Hne. f_equal.
    rewrite Htt in Hin. injection Hin as <-. now apply set_priority_same.
  - str_cases k0 k; simpl.
    + subst k0. apply not_eq_sym, String.eqb_neq in Hne. rewrite Hne. simpl.
      rewrite String.eqb_refl. f_equal.
      rewrite Ht in Hin. injection Hin as <-. now apply set_priority_same.
    + apply String.eqb_neq in E, E0. rewrite E. simpl. now rewrite E0.
Qed.

Section ThereAndBack.
Variables beyond1 beyond2 : Z -> Z -> bool.
Variables nearest1 nearest2 : Z -> list Z -> Z.
Variables closer1 closer2 : Z -> Z -> Prop.
Hypothesis neq1 : forall a b, beyond1 a b = true -> a <> b.
Hypothesis in1 : forall p ps, In (nearest1 p ps) (p :: ps).
Hypothesis best1 : forall p ps q, In q (p :: ps) -> closer1 q (nearest1 p ps).
Hypothesis neq2 : forall a b, beyond2 a b = true -> a <> b.
Hypothesis in2 : forall p ps, In (nearest2 p ps) (p :: ps).
Hypothesis best2 : forall p ps q, In q (p :: ps) -> closer2 q (nearest2 p ps).
Hypothesis flip : forall a b, beyond1 a b = true -> beyond2 b a = true.
Hypothesis between :
  forall cur target q,
    beyond2 q target = true -> closer2 cur q -> q <> cur ->
    beyond1 q cur = true /\ ~ closer1 q target.

Lemma move_priority_there_and_back (tasks : store) (k : string) (t : Task)
      (cur : Z) :
  NoDup (keys tasks) ->
  all_priorities_set tasks ->
  NoDup (map (fun e => priority (snd e)) tasks) ->
  dict_get tasks k = Some t ->
  priority t = Some cur ->
  (exists k0 q, neighbour beyond1 tasks k cur k0 q) ->
  move_priority_by beyond2 nearest2
    (move_priority_by beyond1 nearest1 tasks k) k = tasks.
Proof.
  intros ND Hset Hnd Ht Hcur Hex.
  destruct (move_priority_by_swaps beyond1 nearest1 closer1 neq1 in1 best1
              tasks k t cur ND Hset Ht Hcur Hex)
    as [tid [target [Hn [Hbest1 ->]]]].
  pose proof Hn as [tt [Hin [Hne [Hpt Hb]]]].
  pose proof (In_dict_get _ _ _ ND Hin) as Htt.
  set (tasks1 := swap_into tasks tid cur k target).
  assert (P : Permutation (map (fun e => priority (snd e)) tasks)
                          (map (fun e => priority (snd e)) tasks1))
    by (apply (swap_into_permutes tasks tid k tt t); auto).
  assert (ND1 : NoDup (keys tasks1))
    by (unfold tasks1, swap_into; now rewrite !dict_update_keys).
  assert (Hnd1 : NoDup (map (fun e => priority (snd e)) tasks1))
    by (eapply Permutation_NoDup; eauto).
  assert (Hset1 : all_priorities_set tasks1).
  { intros k0 t0 H0 Hnone.
    assert (H : In (priority t0) (map (fun e => priority (snd e)) tasks1))
      by (apply in_map_iff; now exists (k0, t0)).
    apply (Permutation_in _ (Permutation_sym P)) in H.
    apply in_map_iff in H as [[k1 t1] [E H]]. simpl in E.
    apply (Hset k1 t1 H). congruence. }
  assert (Hk1 : dict_get tasks1 k = Some (set_priority target t)).
  { unfold tasks1. rewrite swap_into_get by assumption.
    now rewrite String.eqb_refl, Ht. }
  assert (Htid1 : dict_get tasks1 tid = Some (set_priority cur tt)).
  { unfold tasks1. rewrite swap_into_get by assumption.
    apply String.eqb_neq in Hne. now rewrite Hne, String.eqb_refl, Htt. }
  assert (Hex2 : exists k0 q, neighbour beyond2 tasks1 k target k0 q).
  { exists tid, cur, (set_priority cur tt).
    repeat split; auto. now apply dict_get_In. }
  destruct (move_priority_by_swaps beyond2 nearest2 closer2 neq2 in2 best2
              tasks1 k (set_priority target t) target ND1 Hset1 Hk1 eq_refl Hex2)
    as [tid2 [target2 [Hn2 [Hbest2 ->]]]].
  pose proof Hn2 as [t2 [Hin2 [Hne2 [Hp2 Hb2]]]].
  assert (Hc : closer2 cur target2).
  { apply (Hbest2 tid). exists (set_priority cur tt).
    repeat split; auto. now apply dict_get_In. }
  assert (Etarget : target2 = cur).
  { destruct (Z.eq_dec target2 cur) as [E|E]; [exact E|].
    destruct (between cur target target2 Hb2 Hc E) as [Hb1 Hnc].
    exfalso. apply Hnc. apply (Hbest1 tid2).
    assert (Htid2 : tid2 <> tid).
    { intros ->. apply (In_dict_get _ _ _ ND1) in Hin2.
      rewrite Htid1 in Hin2. injection Hin2 as <-. simpl in Hp2. congruence. }
    exists t2. repeat split; auto.
    apply dict_get_In. apply (In_dict_get _ _ _ ND1) in Hin2.
    unfold tasks1 in Hin2. rewrite swap_into_get in Hin2 by assumption.
    apply String.eqb_neq in Hne2, Htid2. now rewrite Hne2, Htid2 in Hin2. }
  subst target2.
  assert (Etid : tid2 = tid).
  { assert (E : (tid2, t2) = (tid, set_priority cur tt)).
    { apply (NoDup_map_inj (fun e => priority (snd e)) tasks1 _ _ Hnd1 Hin2
                           (dict_get_In _ _ _ Htid1)).
      simpl. now rewrite Hp2. }
    now injection E. }
  subst tid2. unfold tasks1.
  now apply (swap_into_back tasks tid k tt t).
Qed.
End ThereAndBack.

(** X10: when all priorities are set and pairwise different, moving a
    task up and then down again (if some task had a smaller priority), or
    down and then up again (if some task had a greater one), gives back
    the store as it was. *)
Theorem move_priority_up_down_round_trip :
  forall (tasks : store) (k : string) (t : Task) (cur : Z),
    NoDup (keys tasks) ->
    all_priorities_set tasks ->
    NoDup (map (fun e => priority (snd e)) tasks) ->
    dict_get tasks k = Some t ->
    priority t = Some cur ->
    ((exists k0 q, neighbour Z.ltb tasks k cur k0 q) ->
     move_priority_down (move_priority_up tasks k) k = tasks)
    /\ ((exists k0 q, neighbour Z.gtb tasks k cur k0 q) ->
        move_priority_up (move_priority_down tasks k) k = tasks).
Proof.
  intros tasks k t cur ND Hset Hnd Ht Hcur.
  rewrite move_priority_up_by, move_priority_down_by. split.
  - apply (move_priority_there_and_back Z.ltb Z.gtb py_max py_min
             (fun q m => q <= m) (fun q m => m <= q)) with (t := t) (cur := cur);
      auto.
    + intros a b H. apply Z.ltb_lt in H. lia.
    + intros p ps. apply py_max_spec.
    + intros p ps q. apply py_max_spec.
    + intros a b H. rewrite Z.gtb_ltb in H. apply Z.ltb_lt in H. lia.
    + intros p ps. apply py_min_spec.
    + intros p ps q. apply py_min_spec.
    + intros a b H. rewrite Z.gtb_ltb. exact H.
    + intros c tg q H1 H2 H3. rewrite Z.gtb_ltb in H1. apply Z.ltb_lt in H1.
      split; [apply Z.ltb_lt|]; lia.
  - apply (move_priority_there_and_back Z.gtb Z.ltb py_min py_max
             (fun q m => m <= q) (fun q m => q <= m)) with (t := t) (cur := cur);
      auto.
    + intros a b H. rewrite Z.gtb_ltb in H. apply Z.ltb_lt in H. lia.
    + intros p ps. apply py_min_spec.
    + intros p ps q. apply py_min_spec.
    + intros a b H. apply Z.ltb_lt in H. lia.
    + intros p ps. apply py_max_spec.
    + intros p ps q. apply py_max_spec.
    + intros a b H. rewrite Z.gtb_ltb in H. exact H.
    + intros c tg q H1 H2 H3. apply Z.ltb_lt in H1.
      split; [rewrite Z.gtb_ltb; apply Z.ltb_lt|]; lia.
Qed.

Lemma move_priority_up_down_round_trip_witness :
  NoDup (keys store_xy)
  /\ all_priorities_set store_xy
  /\ NoDup (map (fun e => priority (snd e)) store_xy)
  /\ dict_get store_xy "X" = Some (new_task "X" None None "2024-01-01T10:00:00" 5)
  /\ (exists k0 q, neighbour Z.ltb store_xy "X" 5 k0 q)
  /\ move_priority_down (move_priority_up store_xy "X") "X" = store_xy.
Proof.
  assert (ND : NoDup (keys store_xy)) by (apply nodupb_NoDup; reflexivity).
  assert (Hset : all_priorities_set store_xy).
  { intros k t [H|[H|[]]]; injection H as <- <-; discriminate. }
  assert (Hnd : NoDup (map (fun e => priority (snd e)) store_xy)).
  { simpl. repeat constructor; simpl; intuition discriminate. }
  assert (Hex : exists k q, neighbour Z.ltb store_xy "X" 5 k q).
  { exists "Y", 2, (new_task "Y" None None "2024-01-01T10:01:00" 2).
    repeat split; [right; now left | discriminate]. }
  split; [exact ND|]. split; [exact Hset|]. split; [exact Hnd|].
  split; [reflexivity|]. split; [exact Hex|].
  exact (proj1 (move_priority_up_down_round_trip store_xy "X" _ 5
                  ND Hset Hnd eq_refl eq_refl) Hex).
Defined.

(** ** A whole drag gesture *)

Lemma dropped_on_root (tasks : store) (pos : positions) (x y : Z) (k : string) :
  dropped_on tasks pos x y = Some k ->
  exists t r, dict_get tasks k = Some t /\ is_root t = true
              /\ In (k, r) pos /\ hits x y r = true.
Proof.
  induction pos as [|[k0 r0] pos IH]; simpl; [discriminate|].
  assert (Hrec : dropped_on tasks pos x y = Some k ->
                 exists t r, dict_get tasks k = Some t /\ is_root t = true
                             /\ (k0, r0) = (k, r) \/ In (k, r) pos /\ hits x y r = true).
  { intros H. destruct (IH H) as [t [r [H1 [H2 [H3 H4]]]]]. exists t, r. auto. }
  destruct (hits x y r0) eqn:Hh; [|intros H; destruct (IH H) as [t [r H']];
                                    exists t, r; intuition].
  destruct (dict_get tasks k0) as [t0|] eqn:G;
    [destruct (is_root t0) eqn:R|];
    try (intros H; destruct (IH H) as [t [r H']]; exists t, r; intuition).
  intros H. injection H as <-. exists t0, r0. auto.
Qed.

(** X11: a click and the release that follows it, starting from no drag.
    A click on a button runs the callback of that button and starts no
    drag, so that the release changes nothing.  A click on no button
    changes nothing by itself, and the gesture then never fails and never
    adds, removes or reorders a task: either it leaves the store alone,
    or the click fell on the card of a root task, the release on the card
    of another root task, and the two were swapped; tasks that are not
    roots are not changed, and no field but [priority] is. *)
Theorem drag_gesture_touches_two_roots :
  forall (tasks : store) (pos : positions) (button_regions : list ButtonRegion)
         (x1 y1 x2 y2 : Z),
    NoDup (keys tasks) ->
    (forall callback,
        clicked_button button_regions x1 y1 = Some callback ->
        _on_canvas_click tasks pos button_regions x1 y1 (false, None)
        = option_map (fun st => (st, (false, None))) (callback (tasks, pos))
        /\ forall tasks1 pos1,
             _on_canvas_release tasks1 pos1 false None x2 y2 = Some tasks1)
    /\ (clicked_button button_regions x1 y1 = None ->
        exists drag tasks',
          _on_canvas_click tasks pos button_regions x1 y1 (false, None)
          = Some (tasks, pos, drag)
          /\ _on_canvas_release tasks pos (fst drag) (snd drag) x2 y2
             = Some tasks'
          /\ keys tasks' = keys tasks
          /\ (tasks' = tasks
              \/ exists dragged dropped td tp rd rp,
                  dragged <> dropped
                  /\ dict_get tasks dragged = Some td /\ is_root td = true
                  /\ dict_get tasks dropped = Some tp /\ is_root tp = true
                  /\ In (dragged, rd) pos /\ hits x1 y1 rd = true
                  /\ In (dropped, rp) pos /\ hits x2 y2 rp = true
                  /\ swap_priorities tasks dragged dropped = Some tasks')
          /\ (forall k t, In (k, t) tasks -> is_root t = false ->
                          In (k, t) tasks')
          /\ (forall k t', In (k, t') tasks' ->
                           exists t, In (k, t) tasks
                                     /\ set_priority 0 t' = set_priority 0 t)).
Proof.
  intros tasks pos button_regions x1 y1 x2 y2 ND. split.
  { intros callback Hb. split; [|reflexivity].
    unfold _on_canvas_click. rewrite Hb.
    destruct (callback (tasks, pos)) as [[tasks1 pos1]|]; reflexivity. }
  intros Hb. unfold _on_canvas_click. rewrite Hb.
  assert (Same : forall dragging drag_task_id,
             Some tasks = _on_canvas_release tasks pos dragging drag_task_id x2 y2 ->
             exists tasks',
               _on_canvas_release tasks pos dragging drag_task_id x2 y2
               = Some tasks'
               /\ keys tasks' = keys tasks
               /\ (tasks' = tasks
                   \/ exists dragged dropped td tp rd rp,
                       dragged <> dropped
                       /\ dict_get tasks dragged = Some td /\ is_root td = true
                       /\ dict_get tasks dropped = Some tp /\ is_root tp = true
                       /\ In (dragged, rd) pos /\ hits x1 y1 rd = true
                       /\ In (dropped, rp) pos /\ hits x2 y2 rp = true
                       /\ swap_priorities tasks dragged dropped = Some tasks')
               /\ (forall k t, In (k, t) tasks -> is_root t = false ->
                               In (k, t) tasks')
               /\ (forall k t', In (k, t') tasks' ->
                                exists t, In (k, t) tasks
                                          /\ set_priority 0 t' = set_priority 0 t)).
  { intros dragging drag_task_id E. exists tasks. rewrite <- E.
    repeat split; auto. intros k t' H. now exists t'. }
  destruct (dropped_on tasks pos x1 y1) as [dragged|] eqn:C.
  2:{ destruct (Same false None eq_refl) as [tasks' H].
      exists (false, None), tasks'. split; [reflexivity | exact H]. }
  exists (true, Some dragged). cbn [fst snd].
  destruct (_on_canvas_release tasks pos true (Some dragged) x2 y2)
    as [res|] eqn:Rel.
  2:{ exfalso. unfold _on_canvas_release in Rel. cbn [andb truthy] in Rel.
      destruct (negb (String.eqb dragged "")); simpl in Rel; [|discriminate].
      destruct (dropped_on tasks pos x2 y2) as [dropped|] eqn:R; [|discriminate].
      destruct (negb (String.eqb dropped "") && negb (String.eqb dropped dragged));
        [|discriminate].
      destruct (dropped_on_root _ _ _ _ _ C) as [td [rd [Hd _]]].
      destruct (dropped_on_root _ _ _ _ _ R) as [tp [rp [Hp _]]].
      unfold swap_priorities in Rel. rewrite Hd, Hp in Rel. discriminate. }
  exists res. split; [reflexivity|]. split; [reflexivity|].
  unfold _on_canvas_release in Rel. cbn [andb truthy] in Rel.
  assert (Keep : res = tasks ->
            keys res = keys tasks
            /\ (res = tasks
                \/ exists dragged dropped td tp rd rp,
                    dragged <> dropped
                    /\ dict_get tasks dragged = Some td /\ is_root td = true
                    /\ dict_get tasks dropped = Some tp /\ is_root tp = true
                    /\ In (dragged, rd) pos /\ hits x1 y1 rd = true
                    /\ In (dropped, rp) pos /\ hits x2 y2 rp = true
                    /\ swap_priorities tasks dragged dropped = Some res)
            /\ (forall k t, In (k, t) tasks -> is_root t = false -> In (k, t) res)
            /\ (forall k t', In (k, t') res ->
                             exists t, In (k, t) tasks
                                       /\ set_priority 0 t' = set_priority 0 t)).
  { intros ->. repeat split; auto. intros k t' H. now exists t'. }
  destruct (negb (String.eqb dragged "")); simpl in Rel;
    [|injection Rel as <-; now apply Keep].
  destruct (dropped_on tasks pos x2 y2) as [dropped|] eqn:R;
    [|injection Rel as <-; now apply Keep].
  destruct (negb (String.eqb dropped "")); simpl in Rel;
    [|injection Rel as <-; now apply Keep].
  destruct (String.eqb dropped dragged) eqn:E; simpl in Rel;
    [injection Rel as <-; now apply Keep|].
  apply String.eqb_neq in E.
  destruct (dropped_on_root _ _ _ _ _ C) as [td [rd [Hd [Hrd [Hind Hhd]]]]].
  destruct (dropped_on_root _ _ _ _ _ R) as [tp [rp [Hp [Hrp [Hinp Hhp]]]]].
  pose proof Rel as Swap.
  unfold swap_priorities in Rel. rewrite Hd, Hp in Rel. injection Rel as <-.
  split; [now rewrite !dict_update_keys|]. split.
  - right. exists dragged, dropped, td, tp, rd, rp.
    repeat split; auto.
  - split.
    + intros k t Hin Hroot.
      assert (k <> dragged).
      { intros ->. apply (In_dict_get _ _ _ ND) in Hin. congruence. }
      assert (k <> dropped).
      { intros ->. apply (In_dict_get _ _ _ ND) in Hin. congruence. }
      apply dict_update_other; [assumption|]. now apply dict_update_other.
    + intros k t' Hin.
      apply (swap_into_other_fields tasks dragged dropped
               (priority_or_999 tp) (priority_or_999 td)). exact Hin.
Qed.

Lemma drag_gesture_touches_two_roots_witness :
  NoDup (keys store_xy)
  /\ clicked_button
       [mkButtonRegion true [250; 50; 270; 70]
          (fun st => Some (toggle_done_status (fst st) "Y" DONE_LABEL, snd st))]
       50 330 = None
  /\ exists drag tasks',
      _on_canvas_click store_xy
        [("Y", (40, 40, 240, 120)); ("X", (40, 320, 240, 120))]
        [mkButtonRegion true [250; 50; 270; 70]
           (fun st => Some (toggle_done_status (fst st) "Y" DONE_LABEL, snd st))]
        50 330 (false, None)
      = Some (store_xy, [("Y", (40, 40, 240, 120)); ("X", (40, 320, 240, 120))],
              drag)
      /\ _on_canvas_release store_xy
           [("Y", (40, 40, 240, 120)); ("X", (40, 320, 240, 120))]
           (fst drag) (snd drag) 50 50 = Some tasks'
      /\ keys tasks' = keys store_xy.
Proof.
  assert (ND : NoDup (keys store_xy)) by (apply nodupb_NoDup; reflexivity).
  split; [exact ND|]. split; [reflexivity|].
  destruct (proj2 (drag_gesture_touches_two_roots store_xy
                     [("Y", (40, 40, 240, 120)); ("X", (40, 320, 240, 120))]
                     [mkButtonRegion true [250; 50; 270; 70]
                        (fun st => Some (toggle_done_status (fst st) "Y"
                                                            DONE_LABEL, snd st))]
                     50 330 50 50 ND) eq_refl)
    as [drag [tasks' [H0 [H1 [H2 _]]]]].
  exists drag, tasks'. auto.
Defined.

(** A click inside a button region runs the callback of that region - here
    the one of the done button of [Y] - and starts no drag. *)
Example click_on_a_button_runs_its_callback :
  _on_canvas_click store_xy
    [("Y", (40, 40, 240, 120)); ("X", (40, 320, 240, 120))]
    [mkButtonRegion true [250; 50; 270; 70]
       (fun st => Some (toggle_done_status (fst st) "Y" DONE_LABEL, snd st))]
    260 60 (false, None)
  = Some (toggle_done_status store_xy "Y" DONE_LABEL,
          [("Y", (40, 40, 240, 120)); ("X", (40, 320, 240, 120))],
          (false, None)).
Proof. reflexivity. Qed.

(** ** What the card layout places *)

Lemma queue_subtasks_In (d : Dims) (l : list string) (x y lv : Z) (c : string) :
  In c l -> exists q, In q (queue_subtasks d l x y lv) /\ qid q = c.
Proof.
  intros H. rewrite <- (queue_subtasks_ids d l x y lv) in H.
  apply in_map_iff in H as [q [E H]]. eauto.
Qed.

Lemma queue_workflows_In (d : Dims) (l : list string) (x y lv : Z) (c : string) :
  In c l -> exists q, In q (queue_workflows d l x y lv) /\ qid q = c.
Proof.
  intros H. rewrite <- (queue_workflows_ids d l x y lv) in H.
  apply in_map_iff in H as [q [E H]]. eauto.
Qed.

Lemma layout_trace_sound (d : Dims) (tasks : store) :
  forall fuel queue my mx W my' mx',
    layout_trace fuel d tasks queue my mx = Some (W, my', mx') ->
    forall k, In k (keys W) ->
              exists q, In q queue /\ dict_mem tasks (qid q) = true
                        /\ reachable tasks (qid q) k.
Proof.
  induction fuel as [|fuel IH]; intros queue my mx W my' mx' H k Hk;
    destruct queue as [|[[[cid cx] cy] cl] queue]; simpl in H;
    try discriminate; try (injection H as <- _ _; destruct Hk).
  destruct (dict_get tasks cid) as [tc|] eqn:E.
  - assert (Hm : dict_mem tasks cid = true) by (apply dict_get_mem; eauto).
    destruct (layout_trace fuel d tasks _ _ _) as [[[W1 my1] mx1]|] eqn:T;
      [|discriminate].
    injection H as <- _ _. simpl in Hk. destruct Hk as [<-|Hk].
    + exists (cid, cx, cy, cl). split; [now left|]. split; [exact Hm|].
      apply reach_root.
    + destruct (IH _ _ _ _ _ _ T k Hk) as [q [Hq [Hqm Hr]]].
      rewrite !in_app_iff in Hq. destruct Hq as [[Hq|Hq]|Hq].
      * exists q. split; [now right | auto].
      * exists (cid, cx, cy, cl). split; [now left|]. split; [exact Hm|].
        eapply reachable_trans; [|exact Hr]. apply reachable_child.
        apply (in_map qid) in Hq. rewrite queue_subtasks_ids in Hq.
        unfold children. apply in_app_iff. now left.
      * exists (cid, cx, cy, cl). split; [now left|]. split; [exact Hm|].
        eapply reachable_trans; [|exact Hr]. apply reachable_child.
        apply (in_map qid) in Hq. rewrite queue_workflows_ids in Hq.
        unfold children. apply in_app_iff. now right.
  - destruct (IH _ _ _ _ _ _ H k Hk) as [q [Hq Hr]].
    exists q. split; [now right | exact Hr].
Qed.

Lemma layout_trace_complete (d : Dims) (tasks : store) :
  forall fuel queue my mx W my' mx',
    layout_trace fuel d tasks queue my mx = Some (W, my', mx') ->
    (forall q, In q queue -> dict_mem tasks (qid q) = true -> In (qid q) (keys W))
    /\ (forall k c, In k (keys W) -> In c (children tasks k) -> In c (keys W)).
Proof.
  induction fuel as [|fuel IH]; intros queue my mx W my' mx' H;
    destruct queue as [|[[[cid cx] cy] cl] queue]; simpl in H;
    try discriminate;
    try (injection H as <- _ _; split; [intros q [] | intros k c []]).
  destruct (dict_get tasks cid) as [tc|] eqn:E.
  - destruct (layout_trace fuel d tasks _ _ _) as [[[W1 my1] mx1]|] eqn:T;
      [|discriminate].
    injection H as <- _ _. destruct (IH _ _ _ _ _ _ T) as [H1 H2].
    assert (Hch : forall c, In c (children tasks cid) -> In c (keys W1)).
    { intros c Hc.
      assert (Hm : dict_mem tasks c = true)
        by (apply dict_mem_In; eapply children_in_store; eauto).
      unfold children in Hc. apply in_app_iff in Hc as [Hc|Hc].
      - destruct (queue_subtasks_In d _ (cx + card_width d + card_spacing_h d)
                    cy cl c Hc) as [q [Hq <-]].
        apply H1; [|exact Hm]. rewrite !in_app_iff. auto.
      - destruct (queue_workflows_In d _ (cx + level_indent d)
                    (cy + card_height d + card_spacing_v d) cl c Hc)
          as [q [Hq <-]].
        apply H1; [|exact Hm]. rewrite !in_app_iff. auto. }
    split.
    + intros q [<-|Hq] Hm; [now left|]. right. apply H1; [|exact Hm].
      rewrite !in_app_iff. auto.
    + intros k c [<-|Hk] Hc; right; [now apply Hch | eapply H2; eauto].
  - destruct (IH _ _ _ _ _ _ H) as [H1 H2]. split; [|exact H2].
    intros q [<-|Hq] Hm; [|now apply H1].
    unfold qid in Hm. simpl in Hm. apply dict_get_None in E. congruence.
Qed.

(** X12: when the card layout of a root that is in the store returns, the
    tasks that hold a position are those that held one before and the
    tasks reached from the root through [get_subtasks] and
    [get_workflow_siblings] - all of them, whether completed or stashed or
    not. *)
Theorem render_task_tree_places_the_reachable :
  forall (fuel : nat) (d : Dims) (tasks : store) (pos : positions)
         (root : string) (x y level : Z) (pos' : positions) (h : Z),
    dict_mem tasks root = true ->
    _render_task_tree fuel d tasks pos root x y level = Some (pos', h) ->
    forall k, In k (keys pos') <-> In k (keys pos) \/ reachable tasks root k.
Proof.
  intros fuel d tasks pos root x y level pos' h Hroot H k.
  unfold _render_task_tree in H.
  apply dict_get_mem in Hroot as [t Ht]. rewrite Ht in H.
  rewrite layout_loop_trace in H.
  destruct (layout_trace fuel d tasks [(root, x, y, level)] y x)
    as [[[W my] mx]|] eqn:T; [|discriminate].
  injection H as <- _.
  assert (Hm : dict_mem tasks root = true) by (apply dict_get_mem; eauto).
  split.
  - intros Hk. apply apply_writes_keys_inv in Hk as [Hk|Hk]; [now left|].
    right. destruct (layout_trace_sound _ _ _ _ _ _ _ _ _ T k Hk)
      as [q [[<-|[]] [_ Hr]]]. exact Hr.
  - intros [Hk|Hk]; apply apply_writes_keys_grow; [now left|]. right.
    destruct (layout_trace_complete _ _ _ _ _ _ _ _ _ T) as [H1 H2].
    induction Hk as [|k c Hk IH Hc].
    + apply (H1 (root, x, y, level)); [now left | exact Hm].
    + eapply H2; eauto.
Qed.

Lemma render_task_tree_places_the_reachable_witness :
  dict_mem store_abc "A" = true
  /\ _render_task_tree 3 dims_100 store_abc [] "A" 40 40 0
     = Some ([("A", (40, 40, 240, 120)); ("B", (340, 40, 240, 120));
              ("C", (370, 210, 240, 120))], 410)
  /\ (In "C" (keys [("A", (40, 40, 240, 120)); ("B", (340, 40, 240, 120));
                    ("C", (370, 210, 240, 120))])
      <-> In "C" (keys (@nil (string * Rect))) \/ reachable store_abc "A" "C").
Proof.
  split; [reflexivity|]. split; [reflexivity|].
  exact (render_task_tree_places_the_reachable 3 dims_100 store_abc [] "A"
           40 40 0 _ 410 eq_refl eq_refl "C").
Defined.

(** ** Where the card layout places *)

Lemma queue_subtasks_bounds (d : Dims) :
  0 <= card_width d + card_spacing_h d ->
  forall l sx y lv q,
    In q (queue_subtasks d l sx y lv) -> sx <= qx q /\ qy q = y.
Proof.
  intros Hd. induction l as [|c l IH]; intros sx y lv q; simpl; [tauto|].
  intros [<-|H].
  - unfold qx, qy. simpl. lia.
  - apply IH in H. lia.
Qed.

Lemma queue_workflows_bounds (d : Dims) :
  0 <= card_height d + card_spacing_v d ->
  forall l wx wy lv q,
    In q (queue_workflows d l wx wy lv) -> qx q = wx /\ wy <= qy q.
Proof.
  intros Hd. induction l as [|c l IH]; intros wx wy lv q; simpl; [tauto|].
  intros [<-|H].
  - unfold qx, qy. simpl. lia.
  - apply IH in H. lia.
Qed.

Lemma layout_trace_bounds (d : Dims) (tasks : store) (x0 y0 : Z) :
  dims_nonneg d ->
  forall fuel queue my mx W my' mx',
    layout_trace fuel d tasks queue my mx = Some (W, my', mx') ->
    (forall q, In q queue -> x0 <= qx q /\ y0 <= qy q) ->
    my <= my'
    /\ forall k r, In (k, r) W -> rect_within d x0 y0 my' r.
Proof.
  intros (Hw & Hh & Hsh & Hsv & Hli).
  induction fuel as [|fuel IH]; intros queue my mx W my' mx' H Hq;
    destruct queue as [|[[[cid cx] cy] cl] queue]; simpl in H;
    try discriminate;
    try (injection H as <- <- _; split; [lia | intros k r []]).
  destruct (dict_get tasks cid) as [tc|] eqn:E.
  - destruct (layout_trace fuel d tasks _ _ _) as [[[W1 my1] mx1]|] eqn:T;
      [|discriminate].
    injection H as <- <- _.
    destruct (Hq (cid, cx, cy, cl) (or_introl eq_refl)) as [Hx Hy].
    unfold qx, qy in Hx, Hy. simpl in Hx, Hy.
    destruct (IH _ _ _ _ _ _ T) as [H1 H2].
    { intros q Hin. rewrite !in_app_iff in Hin. destruct Hin as [[Hin|Hin]|Hin].
      - apply Hq. now right.
      - apply queue_subtasks_bounds in Hin; lia.
      - apply queue_workflows_bounds in Hin; lia. }
    split; [lia|]. intros k r [Hin|Hin].
    + injection Hin as <- <-. unfold rect_within. lia.
    + now apply (H2 k).
  - apply (IH _ _ _ _ _ _ H). intros q Hin. apply Hq. now right.
Qed.

Lemma apply_writes_get_notin (W : list (string * Rect)) :
  forall (p : positions) (k : string),
    ~ In k (keys W) -> dict_get (apply_writes W p) k = dict_get p k.
Proof.
  unfold apply_writes.
  induction W as [|[k1 r1] W IH]; intros p k Hk; simpl; [reflexivity|].
  simpl in Hk. rewrite IH by tauto. rewrite dict_set_get.
  destruct (String.eqb k1 k) eqn:E; [|reflexivity].
  apply String.eqb_eq in E. tauto.
Qed.

Lemma apply_writes_get_in (W : list (string * Rect)) :
  forall (p : positions) (k : string),
    In k (keys W) ->
    exists r, In (k, r) W /\ dict_get (apply_writes W p) k = Some r.
Proof.
  induction W as [|[k1 r1] W IH]; intros p k Hk; [destruct Hk|].
  destruct (in_dec string_dec k (keys W)) as [Hin|Hout].
  - destruct (IH (dict_set p k1 r1) k Hin) as [r [Hr Hg]].
    exists r. split; [now right | exact Hg].
  - destruct Hk as [Hk|Hk]; [|contradiction]. simpl in Hk. subst k1.
    exists r1. split; [now left|].
    change (apply_writes ((k, r1) :: W) p)
      with (apply_writes W (dict_set p k r1)).
    rewrite apply_writes_get_notin by exact Hout.
    rewrite dict_set_get, String.eqb_refl. reflexivity.
Qed.

Lemma render_task_tree_trace (fuel : nat) (d : Dims) (tasks : store)
      (pos : positions) (root : string) (x y level : Z)
      (pos' : positions) (h : Z) :
  dict_mem tasks root = true ->
  _render_task_tree fuel d tasks pos root x y level = Some (pos', h) ->
  exists W my mx,
    layout_trace fuel d tasks [(root, x, y, level)] y x = Some (W, my, mx)
    /\ pos' = apply_writes W pos /\ h = my - y + card_height d.
Proof.
  intros Hroot H. unfold _render_task_tree in H.
  apply dict_get_mem in Hroot as [t Ht]. rewrite Ht in H.
  rewrite layout_loop_trace in H.
  destruct (layout_trace fuel d tasks [(root, x, y, level)] y x)
    as [[[W my] mx]|]; [|discriminate].
  injection H as <- <-. eauto 6.
Qed.

(** The layout of one tree, as the later statements use it: the height it
    reports, the band its cards lie in, and the positions it leaves
    alone. *)
Lemma render_task_tree_band (fuel : nat) (d : Dims) (tasks : store)
      (pos : positions) (root : string) (x y level : Z)
      (pos' : positions) (h : Z) :
  dims_nonneg d ->
  dict_mem tasks root = true ->
  _render_task_tree fuel d tasks pos root x y level = Some (pos', h) ->
  2 * card_height d <= h
  /\ (forall k, reachable tasks root k ->
                exists r, dict_get pos' k = Some r
                          /\ rect_within d x y (y + h - card_height d) r)
  /\ (forall k, ~ reachable tasks root k -> dict_get pos' k = dict_get pos k)
  /\ (forall k, dict_get pos' k = dict_get pos k
                \/ exists r, dict_get pos' k = Some r
                             /\ rect_within d x y (y + h - card_height d) r).
Proof.
  intros Hd Hroot H.
  destruct (render_task_tree_trace fuel d tasks pos root x y level pos' h
              Hroot H) as [W [my [mx [T [-> ->]]]]].
  destruct (layout_trace_bounds d tasks x y Hd _ _ _ _ _ _ _ T) as [Hmy HW].
  { intros q [<-|[]]. unfold qx, qy. simpl. lia. }
  destruct (layout_trace_complete _ _ _ _ _ _ _ _ _ T) as [H1 H2].
  assert (Hin : forall k, reachable tasks root k -> In k (keys W)).
  { intros k Hk. induction Hk as [|k c Hk IH Hc].
    - apply (H1 (root, x, y, level)); [now left | exact Hroot].
    - eapply H2; eauto. }
  assert (Hroot_in : In root (keys W)) by (apply Hin, reach_root).
  replace (y + (my - y + card_height d) - card_height d) with my by lia.
  split; [|split; [|split]].
  - apply In_keys in Hroot_in as [r Hr]. apply HW in Hr.
    destruct r as [[[cx cy] w] hh]. unfold rect_within in Hr. lia.
  - intros k Hk. destruct (apply_writes_get_in W pos k (Hin k Hk)) as [r [Hr Hg]].
    exists r. split; [exact Hg | now apply (HW k)].
  - intros k Hk. apply apply_writes_get_notin. intros Hk'. apply Hk.
    destruct (layout_trace_sound _ _ _ _ _ _ _ _ _ T k Hk')
      as [q [[<-|[]] [_ Hr]]]. exact Hr.
  - intros k. destruct (in_dec string_dec k (keys W)) as [Hk|Hk].
    + right. destruct (apply_writes_get_in W pos k Hk) as [r [Hr Hg]].
      exists r. split; [exact Hg | now apply (HW k)].
    + left. now apply apply_writes_get_notin.
Qed.

(** X13: with lengths that are not negative, the layout of a tree whose
    root is in the store reports a height of at least two cards, gives
    every task reached from the root a rectangle of the size of a card
    that lies right of [x], below [y] and ends one card height above
    [y + height], and leaves the position of every other task as it
    was. *)
Theorem render_task_tree_keeps_to_its_band :
  forall (fuel : nat) (d : Dims) (tasks : store) (pos : positions)
         (root : string) (x y level : Z) (pos' : positions) (h : Z),
    dims_nonneg d ->
    dict_mem tasks root = true ->
    _render_task_tree fuel d tasks pos root x y level = Some (pos', h) ->
    2 * card_height d <= h
    /\ (forall k, reachable tasks root k ->
                  exists r, dict_get pos' k = Some r
                            /\ rect_within d x y (y + h - card_height d) r)
    /\ (forall k, ~ reachable tasks root k -> dict_get pos' k = dict_get pos k).
Proof.
  intros fuel d tasks pos root x y level pos' h Hd Hroot H.
  destruct (render_task_tree_band fuel d tasks pos root x y level pos' h
              Hd Hroot H) as (H1 & H2 & H3 & _).
  auto.
Qed.

Lemma dims_100_nonneg : dims_nonneg dims_100.
Proof. unfold dims_nonneg, dims_100. simpl. lia. Qed.

Lemma render_task_tree_keeps_to_its_band_witness :
  dims_nonneg dims_100
  /\ dict_mem store_abc "A" = true
  /\ _render_task_tree 3 dims_100 store_abc [] "A" 40 40 0
     = Some ([("A", (40, 40, 240, 120)); ("B", (340, 40, 240, 120));
              ("C", (370, 210, 240, 120))], 410)
  /\ 2 * card_height dims_100 <= 410.
Proof.
  split; [exact dims_100_nonneg|]. split; [reflexivity|].
  split; [reflexivity|].
  exact (proj1 (render_task_tree_keeps_to_its_band 3 dims_100 store_abc []
                  "A" 40 40 0 _ 410 dims_100_nonneg eq_refl eq_refl)).
Defined.

(** ** The stack of root trees *)

Lemma rect_within_lower (d : Dims) (x0 y0 y1 b : Z) (r : Rect) :
  y0 <= y1 -> rect_within d x0 y1 b r -> rect_within d x0 y0 b r.
Proof.
  destruct r as [[[cx cy] w] h]. unfold rect_within. lia.
Qed.

Lemma render_roots_get (fuel : nat) (d : Dims) (tasks : store) :
  dims_nonneg d ->
  forall roots pos y0 pos',
    (forall r, In r roots -> dict_mem tasks r = true) ->
    render_roots fuel d tasks roots pos y0 = Some pos' ->
    forall k, dict_get pos' k = dict_get pos k
              \/ exists r b, dict_get pos' k = Some r /\ rect_within d 40 y0 b r.
Proof.
  intros Hd. induction roots as [|a roots IH]; intros pos y0 pos' Hin H k;
    simpl in H.
  - injection H as <-. now left.
  - destruct (_render_task_tree fuel d tasks pos a 40 y0 0)
      as [[pos1 h]|] eqn:E; [|discriminate].
    destruct (render_task_tree_band fuel d tasks pos a 40 y0 0 pos1 h Hd
                (Hin a (or_introl eq_refl)) E) as (Hh & _ & _ & H4).
    assert (Hc : 0 <= card_height d) by (destruct Hd as (_ & ? & _); assumption).
    destruct (IH pos1 (y0 + h + 40) pos' (fun r Hr => Hin r (or_intror Hr)) H k)
      as [Hk|[r [b [Hk Hr]]]].
    + rewrite Hk. destruct (H4 k) as [Hk1|[r [Hk1 Hr]]]; [now left|].
      right. exists r, (y0 + h - card_height d). auto.
    + right. exists r, b. split; [exact Hk|].
      apply rect_within_lower with (y1 := y0 + h + 40); [lia | exact Hr].
Qed.

Lemma render_roots_untouched (fuel : nat) (d : Dims) (tasks : store) :
  dims_nonneg d ->
  forall roots pos y0 pos',
    (forall r, In r roots -> dict_mem tasks r = true) ->
    render_roots fuel d tasks roots pos y0 = Some pos' ->
    forall k, (forall r, In r roots -> ~ reachable tasks r k) ->
              dict_get pos' k = dict_get pos k.
Proof.
  intros Hd. induction roots as [|a roots IH]; intros pos y0 pos' Hin H k Hk;
    simpl in H.
  - now injection H as <-.
  - destruct (_render_task_tree fuel d tasks pos a 40 y0 0)
      as [[pos1 h]|] eqn:E; [|discriminate].
    destruct (render_task_tree_band fuel d tasks pos a 40 y0 0 pos1 h Hd
                (Hin a (or_introl eq_refl)) E) as (_ & _ & H3 & _).
    rewrite (IH pos1 (y0 + h + 40) pos' (fun r Hr => Hin r (or_intror Hr)) H k
               (fun r Hr => Hk r (or_intror Hr))).
    apply H3, Hk. now left.
Qed.

Lemma render_roots_placed (fuel : nat) (d : Dims) (tasks : store) :
  dims_nonneg d ->
  forall roots pos y0 pos',
    (forall r, In r roots -> dict_mem tasks r = true) ->
    render_roots fuel d tasks roots pos y0 = Some pos' ->
    forall k, (exists r, In r roots /\ reachable tasks r k) ->
              exists r b, dict_get pos' k = Some r /\ rect_within d 40 y0 b r.
Proof.
  intros Hd. induction roots as [|a roots IH]; intros pos y0 pos' Hin H k Hk;
    [destruct Hk as [r [[] _]]|].
  simpl in H.
  destruct (_render_task_tree fuel d tasks pos a 40 y0 0)
    as [[pos1 h]|] eqn:E; [|discriminate].
  destruct (render_task_tree_band fuel d tasks pos a 40 y0 0 pos1 h Hd
              (Hin a (or_introl eq_refl)) E) as (Hh & H2 & _ & _).
  assert (Hc : 0 <= card_height d) by (destruct Hd as (_ & ? & _); assumption).
  assert (Hin' : forall r, In r roots -> dict_mem tasks r = true)
    by (intros r Hr; apply Hin; now right).
  destruct Hk as [r [[<-|Hr] Hreach]].
  - destruct (H2 k Hreach) as [r1 [Hg1 Hw1]].
    destruct (render_roots_get fuel d tasks Hd roots pos1 (y0 + h + 40) pos'
                Hin' H k) as [Hk|[r2 [b [Hk Hw2]]]].
    + exists r1, (y0 + h - card_height d). split; [congruence | exact Hw1].
    + exists r2, b. split; [exact Hk|].
      apply rect_within_lower with (y1 := y0 + h + 40); [lia | exact Hw2].
  - destruct (IH pos1 (y0 + h + 40) pos' Hin' H k (ex_intro _ r (conj Hr Hreach)))
      as [r2 [b [Hk Hw2]]].
    exists r2, b. split; [exact Hk|].
    apply rect_within_lower with (y1 := y0 + h + 40); [lia | exact Hw2].
Qed.

Lemma stacked_below_no_overlap (r1 r2 : Rect) :
  stacked_below r1 r2 -> rect_overlap r1 r2 = false.
Proof.
  destruct r1 as [[[x1 y1] w1] h1], r2 as [[[x2 y2] w2] h2].
  unfold stacked_below, rect_overlap. intros H.
  assert (E : Z.ltb y2 (y1 + h1) = false) by (apply Z.ltb_ge; lia).
  rewrite E. apply andb_false_r.
Qed.

Lemma render_roots_stacked (fuel : nat) (d : Dims) (tasks : store) :
  dims_nonneg d ->
  forall l1 ri l2 pos y0 pos' k1 k2,
    (forall r, In r (l1 ++ ri :: l2) -> dict_mem tasks r = true) ->
    render_roots fuel d tasks (l1 ++ ri :: l2) pos y0 = Some pos' ->
    reachable tasks ri k1 ->
    (forall r, In r l2 -> ~ reachable tasks r k1) ->
    (exists rj, In rj l2 /\ reachable tasks rj k2) ->
    exists r1 r2, dict_get pos' k1 = Some r1 /\ dict_get pos' k2 = Some r2
                  /\ stacked_below r1 r2.
Proof.
  intros Hd. induction l1 as [|a l1 IH];
    intros ri l2 pos y0 pos' k1 k2 Hin H Hk1 Hnot Hk2; simpl in H, Hin.
  - destruct (_render_task_tree fuel d tasks pos ri 40 y0 0)
      as [[pos1 h]|] eqn:E; [|discriminate].
    destruct (render_task_tree_band fuel d tasks pos ri 40 y0 0 pos1 h Hd
                (Hin ri (or_introl eq_refl)) E) as (Hh & H2 & _ & _).
    assert (Hc : 0 <= card_height d) by (destruct Hd as (_ & ? & _); assumption).
    assert (Hin' : forall r, In r l2 -> dict_mem tasks r = true)
      by (intros r Hr; apply Hin; now right).
    destruct (H2 k1 Hk1) as [r1 [Hg1 Hw1]].
    destruct (render_roots_placed fuel d tasks Hd l2 pos1 (y0 + h + 40) pos'
                Hin' H k2 Hk2) as [r2 [b [Hg2 Hw2]]].
    exists r1, r2. split; [|split; [exact Hg2|]].
    + rewrite (render_roots_untouched fuel d tasks Hd l2 pos1 (y0 + h + 40)
                 pos' Hin' H k1 Hnot). exact Hg1.
    + destruct r1 as [[[x1 y1] w1] h1], r2 as [[[x2 y2] w2] h2].
      unfold rect_within in Hw1, Hw2. unfold stacked_below. lia.
  - destruct (_render_task_tree fuel d tasks pos a 40 y0 0)
      as [[pos1 h]|] eqn:E; [|discriminate].
    apply (IH ri l2 pos1 (y0 + h + 40) pos' k1 k2); auto.
Qed.

(** X14: in the card mode, with lengths that are not negative, the trees
    of the root tasks are stacked: a task reached from one root and from
    no later root lies, with the gap of 40 and more, above every task
    reached from a later root, so that their cards do not overlap. *)
Theorem root_trees_are_stacked :
  forall (fuel : nat) (app app' : App) (l1 l2 : list string)
         (ri k1 k2 : string),
    dims_nonneg (self_dims app) ->
    self_view_mode app = "card" ->
    refresh_pipeline fuel app = Some app' ->
    root_tasks (self_current_view app) (self_sort_mode app) (self_tasks app)
    = l1 ++ ri :: l2 ->
    reachable (self_tasks app) ri k1 ->
    (forall r, In r l2 -> ~ reachable (self_tasks app) r k1) ->
    (exists rj, In rj l2 /\ reachable (self_tasks app) rj k2) ->
    exists r1 r2,
      dict_get (self_task_positions app') k1 = Some r1
      /\ dict_get (self_task_positions app') k2 = Some r2
      /\ stacked_below r1 r2 /\ rect_overlap r1 r2 = false.
Proof.
  intros fuel app app' l1 l2 ri k1 k2 Hd Hmode H Hroots Hk1 Hnot Hk2.
  unfold refresh_pipeline in H. rewrite Hmode in H. simpl in H.
  assert (Hin : forall r, In r (l1 ++ ri :: l2) ->
                          dict_mem (self_tasks app) r = true).
  { intros r Hr. rewrite <- Hroots in Hr. apply root_tasks_In in Hr as [t [Ht _]].
    apply dict_mem_In, In_keys. eauto. }
  rewrite Hroots in H.
  destruct (l1 ++ ri :: l2) as [|r0 rs] eqn:El; [now destruct l1|].
  destruct (render_roots fuel (self_dims app) (self_tasks app) (r0 :: rs) [] 40)
    as [pos'|] eqn:E; [|discriminate].
  injection H as <-. simpl. rewrite <- El in E, Hin.
  destruct (render_roots_stacked fuel (self_dims app) (self_tasks app) Hd
              l1 ri l2 [] 40 pos' k1 k2 Hin E Hk1 Hnot Hk2)
    as [r1 [r2 [H1 [H2 H3]]]].
  exists r1, r2. repeat split; auto.
  now apply stacked_below_no_overlap.
Qed.

Lemma root_trees_are_stacked_witness :
  dims_nonneg (self_dims (app_of store_xy))
  /\ root_tasks "todo" "priority" store_xy = [] ++ "Y" :: ["X"]
  /\ exists r1 r2,
      dict_get (self_task_positions
                  (with_positions (app_of store_xy)
                     [("Y", (40, 40, 240, 120)); ("X", (40, 320, 240, 120))]))
               "Y" = Some r1
      /\ dict_get (self_task_positions
                     (with_positions (app_of store_xy)
                        [("Y", (40, 40, 240, 120)); ("X", (40, 320, 240, 120))]))
                  "X" = Some r2
      /\ stacked_below r1 r2 /\ rect_overlap r1 r2 = false.
Proof.
  split; [exact dims_100_nonneg|]. split; [reflexivity|].
  apply (root_trees_are_stacked 1 (app_of store_xy) _ [] ["X"] "Y" "Y" "X").
  - exact dims_100_nonneg.
  - reflexivity.
  - reflexivity.
  - reflexivity.
  - apply reach_root.
  - intros r [<-|[]] Hr.
    apply reachable_first in Hr as [Hr|[c [Hc _]]]; [discriminate|].
    vm_compute in Hc. exact Hc.
  - exists "X". split; [now left | apply reach_root].
Defined.

(** ** The tree view *)

Lemma rows_of_subtasks_spec (rec : string -> bool -> option (list Row)) :
  forall l rows,
    rows_of_subtasks rec l = Some rows ->
    (forall row, In row rows ->
                 exists c b rows_c,
                   In c l /\ rec c b = Some rows_c /\ In row rows_c)
    /\ (forall c, In c l ->
                  exists b rows_c, rec c b = Some rows_c /\ incl rows_c rows).
Proof.
  induction l as [|c l IH]; intros rows H; simpl in H.
  - injection H as <-. split; [intros row [] | intros c []].
  - destruct (rec c _) as [rows_c|] eqn:E; [|discriminate].
    destruct (rows_of_subtasks rec l) as [more|]; [|discriminate].
    injection H as <-. destruct (IH more eq_refl) as [H1 H2]. split.
    + intros row Hr. apply in_app_iff in Hr as [Hr|Hr].
      * exists c. do 2 eexists. split; [now left|]. split; [exact E | exact Hr].
      * destruct (H1 row Hr) as [c0 [b [rc [Hc Hx]]]].
        exists c0, b, rc. split; [now right | exact Hx].
    + intros c0 [<-|Hc].
      * do 2 eexists. split; [exact E | apply incl_appl, incl_refl].
      * destruct (H2 c0 Hc) as [b [rc [Hx Hi]]].
        exists b, rc. split; [exact Hx | apply incl_appr, Hi].
Qed.

Lemma rows_of_workflows_spec (rec : string -> option (list Row)) :
  forall l rows,
    rows_of_workflows rec l = Some rows ->
    (forall row, In row rows ->
                 exists c rows_c, In c l /\ rec c = Some rows_c /\ In row rows_c)
    /\ (forall c, In c l ->
                  exists rows_c, rec c = Some rows_c /\ incl rows_c rows).
Proof.
  induction l as [|c l IH]; intros rows H; simpl in H.
  - injection H as <-. split; [intros row [] | intros c []].
  - destruct (rec c) as [rows_c|] eqn:E; [|discriminate].
    destruct (rows_of_workflows rec l) as [more|]; [|discriminate].
    injection H as <-. destruct (IH more eq_refl) as [H1 H2]. split.
    + intros row Hr. apply in_app_iff in Hr as [Hr|Hr].
      * exists c, rows_c. split; [now left|]. split; [exact E | exact Hr].
      * destruct (H1 row Hr) as [c0 [rc [Hc Hx]]].
        exists c0, rc. split; [now right | exact Hx].
    + intros c0 [<-|Hc].
      * eexists. split; [exact E | apply incl_appl, incl_refl].
      * destruct (H2 c0 Hc) as [rc [Hx Hi]].
        exists rc. split; [exact Hx | apply incl_appr, Hi].
Qed.

Lemma rows_of_subtasks_returns (rec : string -> bool -> option (list Row)) :
  forall l,
    (forall c b, In c l -> exists rows, rec c b = Some rows) ->
    exists rows, rows_of_subtasks rec l = Some rows.
Proof.
  induction l as [|c l IH]; intros H; simpl; [eauto|].
  destruct (H c (match l with [] => true | _ :: _ => false end)
              (or_introl eq_refl)) as [rows ->].
  destruct IH as [more ->]; [|eauto].
  intros c0 b Hc. apply H. now right.
Qed.

Lemma rows_of_workflows_returns (rec : string -> option (list Row)) :
  forall l,
    (forall c, In c l -> exists rows, rec c = Some rows) ->
    exists rows, rows_of_workflows rec l = Some rows.
Proof.
  induction l as [|c l IH]; intros H; simpl; [eauto|].
  destruct (H c (or_introl eq_refl)) as [rows ->].
  destruct IH as [more ->]; [|eauto].
  intros c0 Hc. apply H. now right.
Qed.

Lemma visible_shown (view : string) (tasks : store) (r k : string) :
  visible view tasks r k ->
  exists t, dict_get tasks k = Some t /\ view_shows view t = true.
Proof. destruct 1; eauto. Qed.

Lemma visible_through (view : string) (tasks : store) (r c k : string) (t : Task) :
  dict_get tasks r = Some t -> view_shows view t = true ->
  In c (children tasks r) -> visible view tasks c k -> visible view tasks r k.
Proof.
  intros Ht Hs Hc H. induction H as [t0 H1 H2|k c0 t0 Hk IH Hc0 H1 H2].
  - eapply visible_step; [eapply visible_root; eauto | exact Hc | eauto | eauto].
  - eapply visible_step; eauto.
Qed.

Lemma visible_first (view : string) (tasks : store) (r k : string) :
  visible view tasks r k ->
  k = r \/ exists c, In c (children tasks r) /\ visible view tasks c k.
Proof.
  induction 1 as [t H1 H2|k c t Hk IH Hc H1 H2]; [now left|]. right.
  destruct IH as [->|[c0 [Hc0 Hv]]].
  - exists c. split; [exact Hc | eapply visible_root; eauto].
  - exists c0. split; [exact Hc0 | eapply visible_step; eauto].
Qed.

Lemma visible_root_shown (view : string) (tasks : store) (r k : string) :
  visible view tasks r k ->
  exists t, dict_get tasks r = Some t /\ view_shows view t = true.
Proof. induction 1; eauto. Qed.

Lemma render_tree_node_rows (view : string) (tasks : store) :
  forall fuel root level is_last prefix rows,
    _render_tree_node fuel view tasks root level is_last prefix true = Some rows ->
    forall k, In k (map row_task rows) <-> visible view tasks root k.
Proof.
  induction fuel as [|fuel IH]; intros root level is_last prefix rows H k;
    simpl in H; [discriminate|].
  destruct (dict_get tasks root) as [t|] eqn:Et.
  2:{ injection H as <-. split; [intros []|]. intros Hv.
      apply visible_root_shown in Hv as [t [Ht _]]. congruence. }
  destruct (view_shows view t) eqn:Es; simpl in H.
  2:{ injection H as <-. split; [intros []|]. intros Hv.
      apply visible_root_shown in Hv as [t' [Ht Hs]]. congruence. }
  destruct (rows_of_subtasks _ (get_subtasks tasks root)) as [sub_rows|] eqn:Esub;
    [|discriminate].
  destruct (rows_of_workflows _ (get_workflow_siblings tasks root))
    as [wf_rows|] eqn:Ewf; [|discriminate].
  injection H as <-.
  apply rows_of_subtasks_spec in Esub as [S1 S2].
  apply rows_of_workflows_spec in Ewf as [W1 W2].
  split.
  - simpl. intros [<-|Hk]; [eapply visible_root; eauto|].
    apply in_map_iff in Hk as [row [<- Hrow]].
    apply in_app_iff in Hrow as [Hrow|Hrow].
    + destruct (S1 row Hrow) as [c [b [rc [Hc [Hrec Hin]]]]].
      eapply visible_through; [exact Et | exact Es | |].
      * unfold children. apply in_app_iff. left. exact Hc.
      * apply (IH _ _ _ _ _ Hrec). now apply in_map.
    + destruct (W1 row Hrow) as [c [rc [Hc [Hrec Hin]]]].
      eapply visible_through; [exact Et | exact Es | |].
      * unfold children. apply in_app_iff. right. exact Hc.
      * apply (IH _ _ _ _ _ Hrec). now apply in_map.
  - intros Hv. simpl. apply visible_first in Hv as [->|[c [Hc Hv]]]; [now left|].
    right. unfold children in Hc. apply in_app_iff in Hc as [Hc|Hc].
    + destruct (S2 c Hc) as [b [rc [Hrec Hincl]]].
      apply (IH _ _ _ _ _ Hrec) in Hv. apply in_map_iff in Hv as [row [<- Hrow]].
      apply in_map, in_app_iff. left. now apply Hincl.
    + destruct (W2 c Hc) as [rc [Hrec Hincl]].
      apply (IH _ _ _ _ _ Hrec) in Hv. apply in_map_iff in Hv as [row [<- Hrow]].
      apply in_map, in_app_iff. right. now apply Hincl.
Qed.

Lemma render_tree_node_returns (rk : string -> nat) (view : string)
      (tasks : store) :
  ranked rk tasks = true ->
  forall fuel root level is_last prefix show,
    (rk root < fuel)%nat ->
    exists rows,
      _render_tree_node fuel view tasks root level is_last prefix show = Some rows.
Proof.
  intros HR. induction fuel as [|fuel IH];
    intros root level is_last prefix show Hf; [lia|].
  simpl. destruct (dict_get tasks root) as [t|]; [|eauto].
  destruct (negb (view_shows view t)); [eauto|].
  match goal with
  | |- context [rows_of_subtasks ?f ?l] =>
      destruct (rows_of_subtasks_returns f l) as [sub_rows ->]
  end.
  { intros c b Hc. apply IH.
    assert (rk c < rk root)%nat; [|lia].
    eapply ranked_children; [exact HR|]. unfold children.
    apply in_app_iff. left. exact Hc. }
  destruct show; [|eauto].
  match goal with
  | |- context [rows_of_workflows ?f ?l] =>
      destruct (rows_of_workflows_returns f l) as [wf_rows ->]
  end.
  { intros c Hc. apply IH.
    assert (rk c < rk root)%nat; [|lia].
    eapply ranked_children; [exact HR|]. unfold children.
    apply in_app_iff. right. exact Hc. }
  eauto.
Qed.

(** X15: the tree view of a root shows the tasks that are reached from the
    root along tasks that all pass the test of the current view, and no
    other: a task that fails the test is left out together with
    everything below it.  On a store without a cycle the rendering
    returns. *)
Theorem render_tree_node_shows_the_visible :
  forall (rk : string -> nat) (fuel : nat) (view : string) (tasks : store)
         (root : string) (level : Z) (is_last : bool) (prefix : string),
    ranked rk tasks = true ->
    (rk root < fuel)%nat ->
    exists rows,
      _render_tree_node fuel view tasks root level is_last prefix true = Some rows
      /\ forall k, In k (map row_task rows) <-> visible view tasks root k.
Proof.
  intros rk fuel view tasks root level is_last prefix HR Hf.
  destruct (render_tree_node_returns rk view tasks HR fuel root level is_last
              prefix true Hf) as [rows H].
  exists rows. split; [exact H|]. now apply (render_tree_node_rows view tasks fuel
                                               root level is_last prefix).
Qed.

Lemma render_tree_node_shows_the_visible_witness :
  ranked rank_abc store_abc = true
  /\ (rank_abc "A" < 3)%nat
  /\ exists rows,
      _render_tree_node 3 "todo" store_abc "A" 0 true "" true = Some rows
      /\ forall k, In k (map row_task rows) <-> visible "todo" store_abc "A" k.
Proof.
  assert (H : (rank_abc "A" < 3)%nat) by (vm_compute; apply le_n).
  split; [reflexivity|]. split; [exact H|].
  exact (render_tree_node_shows_the_visible rank_abc 3 "todo" store_abc "A" 0
           true "" eq_refl H).
Defined.

(** ** The workflow accessor of [main2.0.0.py] *)

Lemma extend_all_spec (f : string -> option (list string)) :
  forall l acc res,
    V2.extend_all f l acc = Some res ->
    (forall x, In x res <->
               In x acc \/ exists c more, In c l /\ f c = Some more /\ In x more)
    /\ (forall c, In c l -> exists more, f c = Some more).
Proof.
  induction l as [|c l IH]; intros acc res H; simpl in H.
  - injection H as <-. split; [|intros c []].
    intros x. split; [now left|]. intros [H|[c [more [[] _]]]]. exact H.
  - destruct (f c) as [more|] eqn:E; [|discriminate].
    destruct (IH _ _ H) as [H1 H2]. split.
    + intros x. rewrite H1, in_app_iff. split.
      * intros [[Hx|Hx]|[c0 [m0 [Hc Hm]]]]; [now left| |].
        -- right. exists c, more. split; [now left | auto].
        -- right. exists c0, m0. split; [now right | exact Hm].
      * intros [Hx|[c0 [m0 [[<-|Hc] [Hf Hm]]]]]; [now left; left | |].
        -- left. right. congruence.
        -- right. exists c0, m0. auto.
    + intros c0 [<-|Hc]; [eauto | now apply H2].
Qed.

Lemma extend_all_returns (f : string -> option (list string)) :
  forall l acc,
    (forall c, In c l -> exists more, f c = Some more) ->
    exists res, V2.extend_all f l acc = Some res.
Proof.
  induction l as [|c l IH]; intros acc H; simpl; [eauto|].
  destruct (H c (or_introl eq_refl)) as [more ->].
  apply IH. intros c0 Hc. apply H. now right.
Qed.

Lemma workflow_reachable_first (tasks : store) (a k : string) :
  workflow_reachable tasks a k <->
  In k (get_workflow_siblings tasks a)
  \/ exists c, In c (get_workflow_siblings tasks a)
               /\ workflow_reachable tasks c k.
Proof.
  split.
  - induction 1 as [k Hk|k c Hk IH Hc]; [now left|]. right.
    destruct IH as [IH|[c0 [H0 H1]]].
    + exists k. split; [exact IH | now apply wf_direct].
    + exists c0. split; [exact H0 | eapply wf_further; eauto].
  - intros [H|[c [Hc H]]]; [now apply wf_direct|].
    induction H as [k Hk|k c0 Hk IH Hc0].
    + eapply wf_further; [apply wf_direct; exact Hc | exact Hk].
    + eapply wf_further; eauto.
Qed.

Lemma older_get_workflow_siblings_spec (tasks : store) :
  forall fuel a l,
    V2.get_workflow_siblings fuel tasks a = Some l ->
    forall k, In k l <-> workflow_reachable tasks a k.
Proof.
  induction fuel as [|fuel IH]; intros a l H k; simpl in H; [discriminate|].
  apply extend_all_spec in H as [H1 H2].
  rewrite H1, workflow_reachable_first.
  change (sort_by String.leb (key_created tasks)
            (keys (filter (fun e => is_workflow_sibling a (snd e)) tasks)))
    with (get_workflow_siblings tasks a).
  split; (intros [H|[c H]]; [now left | right]).
  - destruct H as [more [Hc [Hf Hm]]]. exists c. split; [exact Hc|].
    now apply (IH c more Hf).
  - destruct H as [Hc Hr]. destruct (H2 c Hc) as [more Hf].
    exists c, more. split; [exact Hc|]. split; [exact Hf|].
    now apply (IH c more Hf).
Qed.

Lemma older_get_workflow_siblings_returns (rk : string -> nat) (tasks : store) :
  ranked rk tasks = true ->
  forall fuel a, (rk a < fuel)%nat ->
                 exists l, V2.get_workflow_siblings fuel tasks a = Some l.
Proof.
  intros HR. induction fuel as [|fuel IH]; intros a Hf; [lia|].
  simpl. apply extend_all_returns. intros c Hc. apply IH.
  assert (rk c < rk a)%nat; [|lia].
  eapply ranked_children; [exact HR|]. unfold children.
  apply in_app_iff. right. exact Hc.
Qed.

(** X16: on a store without a cycle, [get_workflow_siblings] of
    [main2.0.0.py] returns, and what it returns are the tasks reached from
    the given task by one or more workflow links: the whole chain, not
    only the direct siblings. *)
Theorem older_get_workflow_siblings_is_the_chain :
  forall (rk : string -> nat) (fuel : nat) (tasks : store) (a : string),
    ranked rk tasks = true ->
    (rk a < fuel)%nat ->
    exists l,
      V2.get_workflow_siblings fuel tasks a = Some l
      /\ forall k, In k l <-> workflow_reachable tasks a k.
Proof.
  intros rk fuel tasks a HR Hf.
  destruct (older_get_workflow_siblings_returns rk tasks HR fuel a Hf) as [l H].
  exists l. split; [exact H|]. now apply (older_get_workflow_siblings_spec tasks fuel).
Qed.

Lemma older_get_workflow_siblings_is_the_chain_witness :
  ranked rank_abc store_chain = true
  /\ (rank_abc "A" < 3)%nat
  /\ exists l,
      V2.get_workflow_siblings 3 store_chain "A" = Some l
      /\ forall k, In k l <-> workflow_reachable store_chain "A" k.
Proof.
  assert (H : (rank_abc "A" < 3)%nat) by (vm_compute; apply le_n).
  split; [reflexivity|]. split; [exact H|].
  exact (older_get_workflow_siblings_is_the_chain rank_abc 3 store_chain "A"
           eq_refl H).
Defined.

(** ** Creating and deleting *)

Lemma dict_del_snoc {V : Type} (d : list (string * V)) (k : string) (v : V) :
  dict_mem d k = false -> dict_del (d ++ [(k, v)]) k = d.
Proof.
  unfold dict_mem, dict_del. induction d as [|[k1 v1] d IH]; simpl.
  - now rewrite String.eqb_refl.
  - rewrite orb_false_iff. intros [H1 H2].
    rewrite String.eqb_sym in H1. rewrite H1. simpl. now rewrite IH.
Qed.

Lemma dict_mem_snoc {V : Type} (d : list (string * V)) (k : string) (v : V) :
  dict_mem (d ++ [(k, v)]) k = true.
Proof.
  apply dict_mem_In. unfold keys. rewrite map_app, in_app_iff. right. now left.
Qed.

(** X17: a task created with a fresh id that no stored task names as its
    parent or anchor, and that is not its own parent or anchor, is removed
    again by a confirmed delete, which gives back the store as it was
    before the creation - same tasks, same order. *)
Theorem create_then_delete_restores :
  forall (fuel : nat) (tasks tasks1 : store)
         (task_id title description : string) (parent : option string)
         (is_workflow : bool) (sibling_of : option string) (now : string),
    dict_mem tasks task_id = false ->
    children tasks task_id = [] ->
    parent <> Some task_id ->
    sibling_of <> Some task_id ->
    create_task tasks task_id title description parent is_workflow sibling_of now
    = Some tasks1 ->
    delete_task (S fuel) tasks1 task_id true = Some tasks.
Proof.
  intros fuel tasks tasks1 task_id title description parent is_workflow
         sibling_of now Hfresh Hch Hp Hs H.
  unfold create_task in H. destruct (String.eqb title ""); [discriminate|].
  injection H as <-. rewrite dict_set_fresh by exact Hfresh.
  set (new_task := mkTask _ _ _ _ _ _ _ _ _).
  unfold children in Hch. apply app_eq_nil in Hch as [Hsub Hwf].
  assert (E1 : is_subtask task_id new_task = false).
  { unfold is_subtask. simpl.
    destruct (get_eqb parent task_id) eqn:E; [|reflexivity].
    apply get_eqb_true in E. contradiction. }
  assert (E2 : is_workflow_sibling task_id new_task = false).
  { unfold is_workflow_sibling. simpl.
    destruct (get_eqb _ task_id) eqn:E; [|reflexivity].
    apply get_eqb_true in E.
    destruct (is_workflow && truthy sibling_of); [contradiction | discriminate]. }
  unfold delete_task. cbn [_delete_recursive].
  rewrite (proj1 (get_subtasks_snoc tasks task_id new_task task_id Hfresh) E1).
  rewrite Hsub. cbn [for_each].
  rewrite (proj1 (get_workflow_siblings_snoc tasks task_id new_task task_id
                    Hfresh) E2).
  rewrite Hwf. cbn [for_each].
  rewrite dict_mem_snoc. now rewrite dict_del_snoc.
Qed.

Lemma create_then_delete_restores_witness :
  dict_mem store_xy "Z" = false
  /\ children store_xy "Z" = []
  /\ create_task store_xy "Z" "title" "" (Some "X") false None "2024-01-02"
     = Some (store_xy ++ [("Z", mkTask "Z" "title" "" false false (Some "X")
                                  None "2024-01-02" (Some 6))])
  /\ delete_task 1 (store_xy ++ [("Z", mkTask "Z" "title" "" false false
                                         (Some "X") None "2024-01-02" (Some 6))])
                 "Z" true = Some store_xy.
Proof.
  split; [reflexivity|]. split; [reflexivity|]. split; [reflexivity|].
  apply (create_then_delete_restores 0 store_xy _ "Z" "title" "" (Some "X")
           false None "2024-01-02"); try reflexivity; discriminate.
Defined.

(** ** Stashing and the tree view *)

Lemma visible_reachable (view : string) (tasks : store) (r k : string) :
  visible view tasks r k -> reachable tasks r k.
Proof.
  induction 1; [apply reach_root | eapply reach_step; eauto].
Qed.

(** X18: on a store without a cycle, stashing a task that is not stashed
    returns, and afterwards the tree view of that task shows nothing in
    the view "todo" and shows in the view "stash" the tasks that are
    reached from it: the whole tree has moved. *)
Theorem stashed_tree_moves_to_the_stash_view :
  forall (rk : string -> nat) (fuel : nat) (tasks : store) (r : string)
         (t : Task) (level : Z) (is_last : bool) (prefix : string),
    ranked rk tasks = true ->
    (rk r < fuel)%nat ->
    dict_get tasks r = Some t ->
    stashed t = false ->
    exists tasks' rows,
      toggle_stash_status fuel tasks r = Some tasks'
      /\ _render_tree_node fuel "todo" tasks' r level is_last prefix true = Some []
      /\ _render_tree_node fuel "stash" tasks' r level is_last prefix true
         = Some rows
      /\ forall k, In k (map row_task rows) <-> reachable tasks r k.
Proof.
  intros rk fuel tasks r t level is_last prefix HR Hf Ht Hst.
  assert (Hm : dict_mem tasks r = true) by (apply dict_get_mem; eauto).
  destruct (set_stash_recursive_terminates rk true fuel tasks r HR Hf)
    as [tasks' E].
  destruct (set_stash_recursive_spec true fuel tasks r tasks' Hm E)
    as [D [-> HD]].
  pose proof (stash_effect_preserves true) as Hpres.
  assert (Hget : forall k, reachable tasks r k -> In k (keys tasks) ->
                           exists t', dict_get (update_keys D (stash_effect true)
                                                  tasks) k = Some t'
                                      /\ stashed t' = true /\ completed t' = false).
  { intros k Hk Hin. apply dict_mem_In, dict_get_mem in Hin as [tk Htk].
    exists (stash_effect true tk). rewrite update_keys_get, Htk. simpl.
    rewrite (proj2 (existsb_eqb_In k D) (proj2 (HD k) Hk)). auto. }
  assert (HR' : ranked rk (update_keys D (stash_effect true) tasks) = true)
    by (rewrite update_keys_ranked; auto).
  destruct (render_tree_node_returns rk "stash" _ HR' fuel r level is_last
              prefix true Hf) as [rows Hrows].
  exists (update_keys D (stash_effect true) tasks), rows.
  split; [unfold toggle_stash_status; rewrite Ht, Hst; exact E|].
  destruct (Hget r (reach_root _ _)) as [tr [Htr [Hs Hc]]].
  { apply dict_mem_In. exact Hm. }
  split; [|split; [exact Hrows|]].
  - destruct fuel as [|fuel]; [lia|]. simpl. rewrite Htr.
    unfold view_shows. simpl. rewrite Hs, Hc. reflexivity.
  - intros k. rewrite (render_tree_node_rows _ _ _ _ _ _ _ _ Hrows k). split.
    + intros Hv. apply visible_reachable in Hv.
      now apply (update_keys_reachable _ Hpres) in Hv.
    + intros Hk. induction Hk as [|k c Hk IH Hc0].
      * eapply visible_root; [exact Htr|]. unfold view_shows. simpl. exact Hs.
      * assert (Hreach : reachable tasks r c) by (eapply reach_step; eauto).
        destruct (Hget c Hreach) as [tc [Htc [Hsc _]]].
        { eapply children_in_store; eauto. }
        eapply visible_step; [exact IH | | exact Htc |].
        -- rewrite (update_keys_children _ Hpres). exact Hc0.
        -- unfold view_shows. simpl. exact Hsc.
Qed.

Lemma stashed_tree_moves_to_the_stash_view_witness :
  ranked rank_abc store_abc = true
  /\ (rank_abc "A" < 3)%nat
  /\ dict_get store_abc "A"
     = Some (new_task "A" None None "2024-01-01T10:00:00" 999)
  /\ exists tasks' rows,
      toggle_stash_status 3 store_abc "A" = Some tasks'
      /\ _render_tree_node 3 "todo" tasks' "A" 0 true "" true = Some []
      /\ _render_tree_node 3 "stash" tasks' "A" 0 true "" true = Some rows
      /\ forall k, In k (map row_task rows) <-> reachable store_abc "A" k.
Proof.
  assert (H : (rank_abc "A" < 3)%nat) by (vm_compute; apply le_n).
  split; [reflexivity|]. split; [exact H|]. split; [reflexivity|].
  exact (stashed_tree_moves_to_the_stash_view rank_abc 3 store_abc "A" _ 0 true
           "" eq_refl H eq_refl eq_refl).
Defined.

(** ** The priority typed into the dialog of [main2.0.0.py] *)

(** X19: in [main2.0.0.py] a subtask created with a typed priority of 0 or
    less is stored with priority 0 and, when no subtask of the parent has
    a sort key above 999, is listed by [get_subtasks] after all of them:
    the smallest number a user can type puts the task last. *)
Theorem older_create_task_priority_zero_is_listed_last :
  forall (tasks tasks1 : store) (task_id title description parent now : string)
         (p : Z),
    dict_mem tasks task_id = false ->
    p <= 0 ->
    (forall a, In a (V2.get_subtasks tasks parent) ->
               key_priority tasks a <= 999) ->
    V2.create_task tasks task_id title description (Some parent) false None now
                   (Some p) = Some tasks1 ->
    option_map priority (dict_get tasks1 task_id) = Some (Some 0)
    /\ V2.get_subtasks tasks1 parent = V2.get_subtasks tasks parent ++ [task_id].
Proof.
  intros tasks tasks1 task_id title description parent now p Hfresh Hp Hle H.
  assert (E0 : V2.priority_val (Some p) = 0).
  { unfold V2.priority_val. destruct (Z.ltb p 0) eqn:E; [reflexivity|].
    apply Z.ltb_ge in E. lia. }
  unfold V2.create_task in H. rewrite E0 in H.
  destruct (String.eqb title ""); [discriminate|].
  injection H as <-. rewrite dict_set_fresh by exact Hfresh. split.
  - rewrite dict_get_app_new by exact Hfresh. reflexivity.
  - apply (proj2 (get_subtasks_snoc tasks task_id _ parent Hfresh)).
    + unfold is_subtask. simpl. now rewrite String.eqb_refl.
    + intros a Ha. simpl. apply Hle, Ha.
Qed.

Lemma older_create_task_priority_zero_is_listed_last_witness :
  dict_mem store_two_levels "Z" = false
  /\ (-3) <= 0
  /\ V2.create_task store_two_levels "Z" "title" "" (Some "A") false None
                    "2024-01-02" (Some (-3))
     = Some (store_two_levels
             ++ [("Z", mkTask "Z" "title" "" false false (Some "A") None
                              "2024-01-02" (Some 0))])
  /\ V2.get_subtasks (store_two_levels
                   ++ [("Z", mkTask "Z" "title" "" false false (Some "A") None
                                    "2024-01-02" (Some 0))]) "A"
     = V2.get_subtasks store_two_levels "A" ++ ["Z"].
Proof.
  split; [reflexivity|]. split; [lia|]. split; [reflexivity|].
  refine (proj2 (older_create_task_priority_zero_is_listed_last
                   store_two_levels _ "Z" "title" "" "A" "2024-01-02" (-3)
                   eq_refl _ _ eq_refl)); [lia|].
  intros a Ha. vm_compute in Ha.
  destruct Ha as [<-|[<-|[]]]; vm_compute; discriminate.
Defined.
